(** * search-custom-markers: marker search, report parsing and matrix assembly

    A shallow embedding of [search-custom-markers.py].  The script globs a
    directory of genomes ([*.faa]) and a directory of markers ([*.hmm]), runs
    [hmmsearch] once per pair into [out/<genome>/<genome>-<marker>.out],
    walks [out/], counts the hits of every report and assembles a
    genome-by-marker table with pandas, which it writes as CSV.

    What lies outside the script is a parameter of the model:
    - the two enumerations delivered by [glob.glob] (lists of paths),
    - the external search engine ([hmmsearch], the report it leaves on disk),
    - the order in which [os.walk] lists the entries of a directory.

    Python strings are [string]s (one [ascii] per character, code points
    below 256), Python [int]s are [Z], Python [dict]s are association lists in
    insertion order, and an uncaught exception is the [Raise] outcome of the
    [result] monad.

    The libraries are modelled as far as the script uses them: a [dict]
    iterates in insertion order and [open] accepts the mode ["rU"] (Python
    3.7 to 3.10); [DataFrame.from_dict]
    transposes the nested dict and keeps columns and rows in first-seen order;
    the [hmmer3-tab] parser of Biopython yields one query result per run of
    consecutive rows with one query name, none for a table without rows.
    Not modelled: a missing [hmmsearch] binary, permissions, a working
    directory that already holds files named like the reports, an output
    path that names [out], [results] or a file below them. *)

From Stdlib Require Import Strings.String Strings.Ascii Lists.List.
From Stdlib Require Import ZArith Arith Lia Bool Permutation.
Import ListNotations.

Local Open Scope string_scope.
Local Open Scope list_scope.

(** ** Exceptions *)

Inductive exn : Type :=
| FileExistsError
| FileNotFoundError
| IndexError
| ValueError
| ParseError.

Inductive result (A : Type) : Type :=
| Ok (a : A)
| Raise (e : exn).

Arguments Ok {A} a.
Arguments Raise {A} e.

Definition bind {A B : Type} (m : result A) (k : A -> result B) : result B :=
  match m with
  | Ok a => k a
  | Raise e => Raise e
  end.

Notation "x <- m ;; k" := (bind m (fun x => k))
  (at level 61, m at next level, right associativity).
Notation "' p <- m ;; k" := (bind m (fun x => let p := x in k))
  (at level 61, p pattern, m at next level, right associativity).

(** A [for] loop whose body may raise. *)
Fixpoint foldM {A S : Type} (body : S -> A -> result S) (l : list A) (s : S)
  : result S :=
  match l with
  | [] => Ok s
  | a :: l' => s' <- body s a ;; foldM body l' s'
  end.

(** ** Python string methods used by the script *)

Module Str.

Definition dash : ascii := "-"%char.
Definition slash : ascii := "/"%char.

Fixpoint startswith (p s : string) : bool :=
  match p, s with
  | EmptyString, _ => true
  | String _ _, EmptyString => false
  | String a p', String b s' => Ascii.eqb a b && startswith p' s'
  end.

(** [old in s] *)
Fixpoint contains (old s : string) : bool :=
  startswith old s ||
  match s with
  | EmptyString => false
  | String _ s' => contains old s'
  end.

(** [c in s] for a single character *)
Fixpoint occurs (c : ascii) (s : string) : bool :=
  match s with
  | EmptyString => false
  | String b s' => Ascii.eqb b c || occurs c s'
  end.

(** [s.split(sep)] for a one-character separator. *)
Fixpoint split (sep : ascii) (s : string) : list string :=
  match s with
  | EmptyString => [EmptyString]
  | String c s' =>
      if Ascii.eqb c sep then EmptyString :: split sep s'
      else match split sep s' with
           | w :: ws => String c w :: ws
           | [] => [String c EmptyString]
           end
  end.

(** [s.replace(old, new)] for a non-empty [old] (every call site passes a
    literal extension): occurrences are found left to right and do not
    overlap; [skip] counts the characters of the current occurrence that
    are still to be dropped. *)
Fixpoint replace_from (old new : string) (skip : nat) (s : string) : string :=
  match s with
  | EmptyString => EmptyString
  | String c s' =>
      match skip with
      | S k => replace_from old new k s'
      | O =>
          if startswith old s
          then (new ++ replace_from old new (String.length old - 1) s')%string
          else String c (replace_from old new 0 s')
      end
  end.

Definition replace (old new s : string) : string := replace_from old new 0 s.

(** [str.isspace] on one character. *)
Definition isspace (c : ascii) : bool :=
  let n := nat_of_ascii c in
  (((9 <=? n) && (n <=? 13)) || ((28 <=? n) && (n <=? 32))
   || (n =? 133) || (n =? 160))%nat.

Fixpoint lstrip (s : string) : string :=
  match s with
  | EmptyString => EmptyString
  | String c s' => if isspace c then lstrip s' else s
  end.

Fixpoint rstrip (s : string) : string :=
  match s with
  | EmptyString => EmptyString
  | String c s' =>
      match rstrip s' with
      | EmptyString => if isspace c then EmptyString else String c EmptyString
      | r => String c r
      end
  end.

Definition strip (s : string) : string := rstrip (lstrip s).

(** The line boundaries of [str.splitlines]. *)
Definition islinebreak (c : ascii) : bool :=
  let n := nat_of_ascii c in
  (((10 <=? n) && (n <=? 13)) || ((28 <=? n) && (n <=? 30)) || (n =? 133))%nat.

Fixpoint splitlines (s : string) : list string :=
  match s with
  | EmptyString => []
  | String c s' =>
      if islinebreak c then
        EmptyString ::
          match s' with
          | String c2 s'' =>
              if ((nat_of_ascii c =? 13) && (nat_of_ascii c2 =? 10))%nat
              then splitlines s'' else splitlines s'
          | EmptyString => []
          end
      else
        match splitlines s' with
        | l :: ls => String c l :: ls
        | [] => [String c EmptyString]
        end
  end.

(** [os.path.basename]: what follows the last slash. *)
Definition basename (p : string) : string := last (split slash p) EmptyString.

(** [l[i]] *)
Definition item {A : Type} (l : list A) (i : nat) : result A :=
  match nth_error l i with
  | Some a => Ok a
  | None => Raise IndexError
  end.

End Str.

(** ** Identifiers *)

(** [os.path.basename(genome).replace(".faa", '').strip().splitlines()[0]] *)
Definition genome_name (genome : string) : result string :=
  Str.item (Str.splitlines (Str.strip (Str.replace ".faa" EmptyString (Str.basename genome)))) 0.

(** [os.path.basename(marker).replace(".hmm", '').strip().splitlines()[0]] *)
Definition marker_name (marker : string) : result string :=
  Str.item (Str.splitlines (Str.strip (Str.replace ".hmm" EmptyString (Str.basename marker)))) 0.

(** The column label of the reformatting loop:
    [os.path.basename(marker).replace(".hmm", '')], without [strip]. *)
Definition marker_col (marker : string) : string :=
  Str.replace ".hmm" EmptyString (Str.basename marker).

(** [name + "-" + prot + ".out"], the file name inside [out/<name>/]. *)
Definition report_file (name prot : string) : string :=
  (name ++ "-" ++ prot ++ ".out")%string.

(** [outname = "out/" + dir + "/" + name + "-" + prot + ".out"] with
    [dir = name]. *)
Definition outname (name prot : string) : string :=
  ("out/" ++ name ++ "/" ++ report_file name prot)%string.


(** ** Insertion-ordered dictionaries

    A Python [dict] keeps its keys in insertion order; assigning to a key
    that is present keeps its position. *)

Module Dict.

Definition t (V : Type) : Type := list (string * V).

Fixpoint get {V : Type} (k : string) (d : t V) : option V :=
  match d with
  | [] => None
  | (k', v) :: d' => if String.eqb k k' then Some v else get k d'
  end.

(** [d[k] = v] *)
Fixpoint set {V : Type} (k : string) (v : V) (d : t V) : t V :=
  match d with
  | [] => [(k, v)]
  | (k', v') :: d' =>
      if String.eqb k k' then (k, v) :: d' else (k', v') :: set k v d'
  end.

Definition keys {V : Type} (d : t V) : list string := map fst d.

(** [k in d] *)
Definition mem {V : Type} (k : string) (d : t V) : bool :=
  match get k d with
  | Some _ => true
  | None => false
  end.

End Dict.

(** [x in l] on a list of labels. *)
Definition label_in (x : string) (l : list string) : bool :=
  existsb (String.eqb x) l.

(** ** Reports and their parser

    The content of a [--tblout] file is modelled by what
    [SearchIO.parse(_, "hmmer3-tab")] makes of it: either a table of rows
    (comment lines left out), each naming its target and its query, or
    something the parser chokes on.  Which exception Biopython raises on
    such content (a [ValueError] for a short row, an [IndexError] for a row
    of eighteen columns) is not modelled: [ParseError] stands for it. *)

Record Row : Type := mkRow { target_name : string; query_name : string }.

Inductive Report : Type :=
| Tbl (rows : list Row)
| Malformed.

Record QueryResult : Type := mkQResult { qid : string; hits : list string }.

(** Consecutive rows of one query make one query block. *)
Fixpoint group_rows (rows : list Row) : list QueryResult :=
  match rows with
  | [] => []
  | r :: rest =>
      match group_rows rest with
      | q :: qs =>
          if String.eqb (query_name r) (qid q)
          then mkQResult (qid q) (target_name r :: hits q) :: qs
          else mkQResult (query_name r) [target_name r] :: q :: qs
      | [] => [mkQResult (query_name r) [target_name r]]
      end
  end.

Fixpoint distinct (l : list string) : bool :=
  match l with
  | [] => true
  | x :: l' => negb (label_in x l') && distinct l'
  end.

(** A [QueryResult] refuses two hits with one identifier. *)
Definition make_qresult (q : QueryResult) : result QueryResult :=
  if distinct (hits q) then Ok q else Raise ValueError.

Fixpoint mapM {A B : Type} (f : A -> result B) (l : list A) : result (list B) :=
  match l with
  | [] => Ok []
  | a :: l' => b <- f a ;; bs <- mapM f l' ;; Ok (b :: bs)
  end.

(** The query results that [SearchIO.parse] yields before the file ends.  An
    exception inside the generator leaves the script through the enclosing
    loops, so the results yielded before it are never observed. *)
Definition SearchIO_parse (r : Report) : result (list QueryResult) :=
  match r with
  | Tbl rows => mapM make_qresult (group_rows rows)
  | Malformed => Raise ParseError
  end.

(** ** The report tree under [out/] *)

Definition Dir : Type := Dict.t Report.
Definition FS : Type := Dict.t Dir.

(** [os.mkdir("out/" + dir)] *)
Definition mkdir (dir : string) (fs : FS) : result FS :=
  if String.eqb dir "." || String.eqb dir ".." || Dict.mem dir fs
  then Raise FileExistsError
  else Ok (Dict.set dir [] fs).

(** What [hmmsearch --tblout=out/<dir>/<file>] leaves behind. *)
Definition write_report (dir file : string) (r : Report) (fs : FS) : FS :=
  match Dict.get dir fs with
  | Some d => Dict.set dir (Dict.set file r d) fs
  | None => fs
  end.

(** [open("out/" + genome + "/" + file, "rU")] *)
Definition open_report (fs : FS) (genome file : string) : result Report :=
  match Dict.get genome fs with
  | Some d =>
      match Dict.get file d with
      | Some r => Ok r
      | None => Raise FileNotFoundError
      end
  | None => Raise FileNotFoundError
  end.

(** The aggregation state: [all_dicts] maps a genome key to a reference to a
    [genome_dict] object; [heap] holds one [genome_dict] per directory
    visited, at the address given by its position. *)
Record Parsed : Type := mkParsed {
  all_dicts : Dict.t nat;
  heap : list (Dict.t Z)
}.

(** [all_dicts] with every reference followed. *)
Definition deref (st : Parsed) : Dict.t (Dict.t Z) :=
  map (fun ka => (fst ka, nth (snd ka) (heap st) [])) (all_dicts st).

Section Pipeline.

(** [hmmsearch marker genome]: the report written for the pair, [None]
    when the engine leaves no file. *)
Variable hmmsearch : string -> string -> option Report.

(** The order in which a directory listing comes back. *)
Variable scandir : list string -> list string.

(** *** Run HMMs *)

Definition search_marker (genome name : string) (fs : FS) (marker : string)
  : result FS :=
  prot <- marker_name marker ;;
  Ok (match hmmsearch marker genome with
      | Some r => write_report name (report_file name prot) r fs
      | None => fs
      end).

Definition search_genome (markers : list string) (fs : FS) (genome : string)
  : result FS :=
  name <- genome_name genome ;;
  fs1 <- mkdir name fs ;;
  foldM (search_marker genome name) markers fs1.

Definition run_hmms (genomes markers : list string) : result FS :=
  foldM (search_genome markers) genomes [].

(** *** Parse the reports *)

(** [os.walk("out/")], top down: [out/] itself, which holds no file, then
    each sub-directory with its files. *)
Definition walk_entry (fs : FS) (d : string) : string * list string :=
  (("out/" ++ d)%string,
   scandir (Dict.keys (match Dict.get d fs with
                       | Some files => files
                       | None => []
                       end))).

Definition os_walk (fs : FS) : list (string * list string) :=
  ("out/", []) :: map (walk_entry fs) (scandir (Dict.keys fs)).

(** The body of [for qresult in SearchIO.parse(...)]. *)
Definition record_hits (prot key : string) (addr : nat)
  (st : Dict.t Z * Dict.t nat) (q : QueryResult) : Dict.t Z * Dict.t nat :=
  let num_hits := Z.of_nat (length (hits q)) in
  (Dict.set prot num_hits (fst st), Dict.set key addr (snd st)).

(** [genome = file.split("-")[0]] *)
Definition file_genome (file : string) : result string :=
  Str.item (Str.split Str.dash file) 0.

(** [prot = file.replace(".out", '').split("-")[1]] *)
Definition file_prot (file : string) : result string :=
  Str.item (Str.split Str.dash (Str.replace ".out" EmptyString file)) 1.

(** [result = "out/" + genome + "/" + file] *)
Definition result_path (genome file : string) : string :=
  ("out/" ++ genome ++ "/" ++ file)%string.

(** The body of [for file in files]; [addr] is the address of the current
    [genome_dict].  [open_report fs genome file] opens [result_path genome
    file]. *)
Definition parse_file (fs : FS) (addr : nat) (st : Dict.t Z * Dict.t nat)
  (file : string) : result (Dict.t Z * Dict.t nat) :=
  genome <- file_genome file ;;
  prot <- file_prot file ;;
  report <- open_report fs genome file ;;
  qresults <- SearchIO_parse report ;;
  key <- Str.item (Str.split Str.dash (Str.basename file)) 0 ;;
  Ok (fold_left (record_hits prot key addr) qresults st).

(** The body of [for path, dirs, files in result_dirs]: a fresh
    [genome_dict] is allocated, filled, and left on the heap. *)
Definition parse_dir (fs : FS) (st : Parsed) (entry : string * list string)
  : result Parsed :=
  let addr := length (heap st) in
  gd_ad <- foldM (parse_file fs addr) (snd entry) ([], all_dicts st) ;;
  Ok (mkParsed (snd gd_ad) (heap st ++ [fst gd_ad])).

Definition parse_results (fs : FS) : result Parsed :=
  foldM (parse_dir fs) (os_walk fs) (mkParsed [] []).

End Pipeline.

(** ** The pandas operations used by the script *)

(** A column is [int64] while every cell is filled and [float64] as soon as
    one is missing; a [float64] cell is [None] for NaN.  Counts are far below
    2^53, so a float cell holds its integer exactly. *)
Inductive Column : Type :=
| Int64 (xs : list Z)
| Float64 (xs : list (option Z)).

Record DataFrame : Type := mkFrame {
  index : list string;
  columns : list string;
  values : list Column
}.

Definition option_default {A : Type} (d : A) (o : option A) : A :=
  match o with
  | Some a => a
  | None => d
  end.

(** [_from_nested_dict]: [new_data[col][index] = v] for every entry. *)
Definition nest_entry (idx : string) (nd : Dict.t (Dict.t Z)) (cv : string * Z)
  : Dict.t (Dict.t Z) :=
  Dict.set (fst cv)
           (Dict.set idx (snd cv) (option_default [] (Dict.get (fst cv) nd)))
           nd.

Definition nest_row (nd : Dict.t (Dict.t Z)) (row : string * Dict.t Z)
  : Dict.t (Dict.t Z) :=
  fold_left (nest_entry (fst row)) (snd row) nd.

Definition from_nested_dict (data : Dict.t (Dict.t Z)) : Dict.t (Dict.t Z) :=
  fold_left nest_row data [].

(** Labels in the order they are first seen. *)
Definition see (acc : list string) (x : string) : list string :=
  if label_in x acc then acc else acc ++ [x].

Definition first_seen (l : list string) : list string := fold_left see l [].

(** The row labels of a frame built from a dict of dicts: the union of the
    inner keys, unsorted. *)
Definition union_indexes (nd : Dict.t (Dict.t Z)) : list string :=
  first_seen (concat (map (fun cd => Dict.keys (snd cd)) nd)).

Fixpoint all_some {A : Type} (l : list (option A)) : option (list A) :=
  match l with
  | [] => Some []
  | Some a :: l' =>
      match all_some l' with
      | Some r => Some (a :: r)
      | None => None
      end
  | None :: _ => None
  end.

Definition make_column (cells : list (option Z)) : Column :=
  match all_some cells with
  | Some xs => Int64 xs
  | None => Float64 cells
  end.

(** [pd.DataFrame.from_dict(data, orient="index", dtype=None)] *)
Definition from_dict (data : Dict.t (Dict.t Z)) : DataFrame :=
  match data with
  | [] => mkFrame [] [] []
  | _ =>
      let nd := from_nested_dict data in
      let idx := union_indexes nd in
      mkFrame idx (Dict.keys nd)
        (map (fun cd => make_column (map (fun r => Dict.get r (snd cd)) idx)) nd)
  end.

(** The column of [df] labelled [c]. *)
Definition column_of (df : DataFrame) (c : string) : option Column :=
  Dict.get c (combine (columns df) (values df)).

(** The column [reindex] takes for label [c]: the one [df] has, or NaN in
    every row. *)
Definition take_column (df : DataFrame) (c : string) : Column :=
  match column_of df c with
  | Some col => col
  | None => Float64 (repeat None (length (index df)))
  end.

(** [df.reindex(columns=all_cols)] *)
Definition reindex (all_cols : list string) (df : DataFrame) : DataFrame :=
  mkFrame (index df) all_cols (map (take_column df) all_cols).

Definition fill_column (v : Z) (col : Column) : Column :=
  match col with
  | Int64 xs => Int64 xs
  | Float64 xs => Float64 (map (fun x => Some (option_default v x)) xs)
  end.

(** [df.fillna(v, inplace=True)] *)
Definition fillna (v : Z) (df : DataFrame) : DataFrame :=
  mkFrame (index df) (columns df) (map (fill_column v) (values df)).

(** The cells of a column, NaN as [None]. *)
Definition cells (col : Column) : list (option Z) :=
  match col with
  | Int64 xs => map Some xs
  | Float64 xs => xs
  end.

Fixpoint position (x : string) (l : list string) : option nat :=
  match l with
  | [] => None
  | y :: l' =>
      if String.eqb x y then Some 0
      else match position x l' with
           | Some n => Some (S n)
           | None => None
           end
  end.

(** [df.loc[r, c]]: [None] when a label is missing (a [KeyError]),
    [Some None] for NaN. *)
Definition loc (df : DataFrame) (r c : string) : option (option Z) :=
  match position r (index df), column_of df c with
  | Some i, Some col => nth_error (cells col) i
  | _, _ => None
  end.

(** *** Writing the table *)

Definition digit (n : nat) : ascii := ascii_of_nat (48 + n).

Fixpoint digits (fuel n : nat) (acc : string) : string :=
  match fuel with
  | O => acc
  | S f =>
      let acc' := String (digit (n mod 10)) acc in
      if (n / 10 =? 0)%nat then acc' else digits f (n / 10) acc'
  end.

(** [str(z)] *)
Definition str_int (z : Z) : string :=
  let n := Z.abs_nat z in
  let d := digits (S n) n EmptyString in
  if (z <? 0)%Z then String "-"%char d else d.

Definition str_cell (is_float : bool) (x : option Z) : string :=
  match x with
  | None => EmptyString
  | Some z => if is_float then (str_int z ++ ".0")%string else str_int z
  end.

Definition str_cells (col : Column) : list string :=
  match col with
  | Int64 xs => map (fun z => str_cell false (Some z)) xs
  | Float64 xs => map (str_cell true) xs
  end.

Definition dquote : ascii := ascii_of_nat 34.

Fixpoint escape (s : string) : string :=
  match s with
  | EmptyString => EmptyString
  | String c s' =>
      if Ascii.eqb c dquote then String c (String c (escape s'))
      else String c (escape s')
  end.

(** [csv.QUOTE_MINIMAL] with the line terminator of [to_csv] on a POSIX
    system, a line feed: a field is quoted when it holds the delimiter, the
    quote character or a line feed. *)
Definition csv_field (s : string) : string :=
  if Str.occurs ","%char s || Str.occurs dquote s
     || Str.occurs (ascii_of_nat 10) s
  then String dquote (escape s ++ String dquote EmptyString)
  else s.

Definition csv_row (fields : list string) : string :=
  match fields with
  | [EmptyString] => String dquote (String dquote (String (ascii_of_nat 10) EmptyString))
  | _ => (String.concat "," (map csv_field fields) ++ String (ascii_of_nat 10) EmptyString)%string
  end.

(** The text of [df.to_csv(path)] with the default options: a header line
    with an empty corner, then one line per row led by its label. *)
Definition csv_text (df : DataFrame) : string :=
  let cols := map str_cells (values df) in
  let line i r := csv_row (r :: map (fun col => nth i col EmptyString) cols) in
  let fix lines (i : nat) (rs : list string) : string :=
    match rs with
    | [] => EmptyString
    | r :: rs' => (line i r ++ lines (S i) rs')%string
    end in
  (csv_row (EmptyString :: columns df) ++ lines 0%nat (index df))%string.

(** ** Reformat the frame and write it *)

(** The two loops that build [all_cols]. *)
Definition absent_cols (markers : list string) (existing_markers : list string)
  : list string :=
  filter (fun prot => negb (label_in prot existing_markers))
         (map marker_col markers).

Definition all_cols (markers : list string) (existing_markers : list string)
  : list string :=
  absent_cols markers existing_markers ++ existing_markers.

(** From [from_dict] to [fillna]: the matrix assembler. *)
Definition assemble (data : Dict.t (Dict.t Z)) (markers : list string)
  : DataFrame :=
  let df := from_dict data in
  let existing_markers := columns df in
  let df_all := reindex (all_cols markers existing_markers) df in
  fillna 0 df_all.

(** What the script sees of the working directory: the report tree once
    [out] exists, whether [results] exists, and the text files. *)
Record World : Type := mkWorld {
  out_dir : option FS;
  results_dir : bool;
  text_files : Dict.t string
}.

(** [df_all.to_csv(OUTFILE)] truncates and rewrites the file. *)
Definition to_csv (df : DataFrame) (path : string) (w : World) : World :=
  mkWorld (out_dir w) (results_dir w) (Dict.set path (csv_text df) (text_files w)).

(** The assembler as a step on the world. *)
Definition write_matrix (data : Dict.t (Dict.t Z)) (markers : list string)
  (OUTFILE : string) (w : World) : World :=
  to_csv (assemble data markers) OUTFILE w.

Section Script.

Variable hmmsearch : string -> string -> option Report.
Variable scandir : list string -> list string.

(** The facts aggregated from a run of the search over the two
    enumerations. *)
Definition aggregate (genomes markers : list string)
  : result (Dict.t (Dict.t Z)) :=
  fs <- run_hmms hmmsearch genomes markers ;;
  st <- parse_results scandir fs ;;
  Ok (deref st).

(** The frame that reaches [to_csv]. *)
Definition result_matrix (genomes markers : list string) : result DataFrame :=
  data <- aggregate genomes markers ;;
  Ok (assemble data markers).

(** The whole script, from [os.mkdir("out")] to [to_csv]. *)
Definition main (genomes markers : list string) (OUTFILE : string) (w : World)
  : result World :=
  match out_dir w with
  | Some _ => Raise FileExistsError
  | None =>
      if results_dir w then Raise FileExistsError
      else
        fs <- run_hmms hmmsearch genomes markers ;;
        st <- parse_results scandir fs ;;
        Ok (write_matrix (deref st) markers OUTFILE (mkWorld (Some fs) true (text_files w)))
  end.

End Script.

(** ** Vocabulary of the properties *)

(** The fact recorded for a genome key and a marker key, if any. *)
Definition fact (data : Dict.t (Dict.t Z)) (genome prot : string) : option Z :=
  match Dict.get genome data with
  | Some gd => Dict.get prot gd
  | None => None
  end.

(** The number of hits the search reported for a pair: the rows of its
    table, none when no readable table was left. *)
Definition report_hits (r : Report) : Z :=
  match r with
  | Tbl rows => Z.of_nat (length rows)
  | Malformed => 0%Z
  end.

Definition reported (hmmsearch : string -> string -> option Report)
  (marker genome : string) : Z :=
  match hmmsearch marker genome with
  | Some r => report_hits r
  | None => 0%Z
  end.

(** A report with at most one query block and no target listed twice. *)
Definition one_query (r : Report) : bool :=
  match r with
  | Tbl [] => true
  | Tbl (r0 :: rows) =>
      forallb (fun r => String.eqb (query_name r) (query_name r0)) rows
      && distinct (map target_name (r0 :: rows))
  | Malformed => false
  end.

Definition reports_one_query (hmmsearch : string -> string -> option Report)
  (genomes markers : list string) : bool :=
  forallb (fun g =>
    forallb (fun m => match hmmsearch m g with
                      | Some r => one_query r
                      | None => true
                      end) markers) genomes.

(** Identifiers the file-name scheme can carry: a genome name is the text
    before the first dash of the report name and names a directory; a marker
    name is the text between the first two dashes once every [".out"] is
    removed. *)
Definition clean_genome_name (n : string) : bool :=
  negb (Str.occurs Str.dash n) && negb (String.eqb n ".") && negb (String.eqb n "..").

Definition clean_marker_name (p : string) : bool :=
  negb (Str.occurs Str.dash p) && negb (Str.contains ".out" p).

Fixpoint labels_eqb (l1 l2 : list string) : bool :=
  match l1, l2 with
  | [], [] => true
  | x :: l1', y :: l2' => String.eqb x y && labels_eqb l1' l2'
  | _, _ => false
  end.

(** Both enumerations yield identifiers, the identifiers are clean and
    pairwise distinct, and stripping changes no marker name. *)
Definition well_formed (genomes markers : list string) : bool :=
  match mapM genome_name genomes, mapM marker_name markers with
  | Ok names, Ok prots =>
      forallb clean_genome_name names && distinct names
      && forallb clean_marker_name prots && distinct prots
      && labels_eqb prots (map marker_col markers)
  | _, _ => false
  end.

(** A column that holds only zeros, and one with a nonzero cell. *)
Definition zero_only (col : Column) : bool :=
  forallb (fun x => match x with Some z => (z =? 0)%Z | None => false end) (cells col).

Definition has_nonzero (col : Column) : bool :=
  existsb (fun x => match x with Some z => negb (z =? 0)%Z | None => false end) (cells col).

(** Every cell is filled with a non-negative integer, and every column is as
    long as the index. *)
Definition cell_ok (x : option Z) : bool :=
  match x with
  | Some z => (0 <=? z)%Z
  | None => false
  end.

Definition column_ok (n : nat) (col : Column) : bool :=
  (length (cells col) =? n)%nat && forallb cell_ok (cells col).

Definition frame_ok (df : DataFrame) : bool :=
  (length (values df) =? length (columns df))%nat
  && forallb (column_ok (length (index df))) (values df).

(** The entry of the transposed facts for column [c] and row [r]. *)
Definition nested_get (nd : Dict.t (Dict.t Z)) (c r : string) : option Z :=
  match Dict.get c nd with
  | Some d => Dict.get r d
  | None => None
  end.

(** The markers observed in some genome's facts, in the order in which they
    are first met when the facts are read genome by genome. *)
Definition observed_markers (data : Dict.t (Dict.t Z)) : list string :=
  first_seen (concat (map (fun row => Dict.keys (snd row)) data)).

(** ** Invariants of the aggregated facts *)

(** Every recorded count is the length of a non-empty hit list. *)
Definition positive_dict (d : Dict.t Z) : Prop :=
  Forall (fun kv => (0 < snd kv)%Z) d.

Definition positive_data (data : Dict.t (Dict.t Z)) : Prop :=
  Forall (fun row => positive_dict (snd row)) data.

(** A column of the transposed facts: some row has an entry, no row has
    two, and the entries are counts. *)
Definition col_inv (d : Dict.t Z) : Prop :=
  d <> [] /\ NoDup (Dict.keys d) /\ positive_dict d.

Definition nested_inv (nd : Dict.t (Dict.t Z)) : Prop :=
  Forall (fun cd => col_inv (snd cd)) nd.

(** ** What the search leaves on disk *)

(** The directory of one genome after the marker loop went through the
    markers [mps], each paired with its name. *)
Definition fill_dir (hmmsearch : string -> string -> option Report)
  (genome name : string) (mps : list (string * string)) (d : Dir) : Dir :=
  fold_left (fun d mp =>
               match hmmsearch (fst mp) genome with
               | Some r => Dict.set (report_file name (snd mp)) r d
               | None => d
               end) mps d.

(** The report tree after the genome loop went through the genomes [gns],
    each paired with its name. *)
Definition fill_tree (hmmsearch : string -> string -> option Report)
  (gns mps : list (string * string)) : FS :=
  map (fun gn => (snd gn, fill_dir hmmsearch (fst gn) (snd gn) mps [])) gns.

(** The aggregation state agrees with the search on the genomes whose
    directory has been [seen]: every reference points into the heap, no
    other genome has an entry, a pair has a fact exactly when the search
    reported hits for it, with the reported count, and every fact is filed
    under the name of a marker. *)
Definition agrees (hmmsearch : string -> string -> option Report)
  (gns mps : list (string * string)) (seen : string -> Prop) (st : Parsed)
  : Prop :=
  (forall k a, Dict.get k (all_dicts st) = Some a -> a < length (heap st)) /\
  (forall k, ~ seen k -> Dict.get k (all_dicts st) = None) /\
  (forall g n m p, In (g, n) gns -> In (m, p) mps -> seen n ->
     fact (deref st) n p
     = if (0 <? reported hmmsearch m g)%Z
       then Some (reported hmmsearch m g) else None) /\
  (forall n p v, fact (deref st) n p = Some v -> exists m, In (m, p) mps).

(** ** Sample runs *)

Definition hits2 : Report := Tbl [mkRow "seq1" "q"; mkRow "seq7" "q"].
Definition hits1 : Report := Tbl [mkRow "seq3" "q"].
Definition no_hits : Report := Tbl [].

(** The scenario of two genomes and two markers: A x m1 = 2, A x m2 = 0,
    B x m1 = 0, B x m2 = 1. *)
Definition scenario (marker genome : string) : option Report :=
  if String.eqb genome "g/A.faa" && String.eqb marker "m/m1.hmm" then Some hits2
  else if String.eqb genome "g/B.faa" && String.eqb marker "m/m2.hmm" then Some hits1
  else Some no_hits.

(** A listing that returns the entries in the order they were created. *)
Definition creation_order (l : list string) : list string := l.

Definition empty_world : World := mkWorld None false [].

(** A marker file with two profiles: its report has two query blocks, two
    hits for the first query and one for the second. *)
Definition two_blocks (marker genome : string) : option Report :=
  Some (Tbl [mkRow "seq1" "q1"; mkRow "seq2" "q1"; mkRow "seq3" "q2"]).

(** The report of genome B is cut short; every other report lists two
    hits. *)
Definition one_malformed (marker genome : string) : option Report :=
  if String.eqb genome "g/B.faa" then Some Malformed else Some hits2.

(** A listing that returns the entries newest first. *)
Definition newest_first (l : list string) : list string := rev l.

(** Two markers whose names differ by [".out"]: the report of either is
    read back as a report of [m1]. *)
Definition suffix_clash (marker genome : string) : option Report :=
  if String.eqb marker "m/m1.hmm" then Some hits2 else Some hits1.

(** ** What one report adds to the facts *)

(** The hits of the last query block of a table: [genome_dict[prot]] is
    assigned once per query result, so this is what it holds when the loop
    over the query results is over. *)
Definition last_block (rows : list Row) : list string :=
  hits (last (group_rows rows) (mkQResult EmptyString [])).

(** The count that the parsing loop records for a pair, 0 when it records
    none. *)
Definition recorded (hmmsearch : string -> string -> option Report)
  (marker genome : string) : Z :=
  match hmmsearch marker genome with
  | Some (Tbl rows) => Z.of_nat (length (last_block rows))
  | _ => 0%Z
  end.

(** A report that the parser reads to its end. *)
Definition readable (r : Report) : bool :=
  match SearchIO_parse r with
  | Ok _ => true
  | Raise _ => false
  end.

(** The report that lists the last query block of [r] and nothing else, and
    the search that leaves such reports. *)
Definition one_block (r : Report) : Report :=
  match r with
  | Tbl rows => Tbl (map (fun t => mkRow t EmptyString) (last_block rows))
  | Malformed => Malformed
  end.

Definition one_block_search (hmmsearch : string -> string -> option Report)
  (marker genome : string) : option Report :=
  option_map one_block (hmmsearch marker genome).

(** * Properties *)

(** ** The string operations on sample names *)

Example ex_genome_name : genome_name "genomes/Ecoli.faa" = Ok "Ecoli".
Proof. reflexivity. Qed.

Example ex_genome_name_blank : genome_name "genomes/ .faa" = Raise IndexError.
Proof. reflexivity. Qed.

Example ex_marker_name : marker_name "markers/nifH.hmm" = Ok "nifH".
Proof. reflexivity. Qed.

Example ex_split : Str.split Str.dash "a-b-c.out" = ["a"; "b"; "c.out"].
Proof. reflexivity. Qed.

Example ex_replace : Str.replace ".out" EmptyString "g-p.o.outut.out" = "g-p.out".
Proof. reflexivity. Qed.

Example ex_outname : outname "Ecoli" "nifH" = "out/Ecoli/Ecoli-nifH.out".
Proof. reflexivity. Qed.

(** The scenario of the two genomes and three markers, as written to the
    output file. *)
Example ex_scenario_csv :
  main scenario creation_order ["g/A.faa"; "g/B.faa"]
       ["m/m1.hmm"; "m/m2.hmm"; "m/m3.hmm"] "results.txt" empty_world
  = Ok (mkWorld
          (Some [("A", [("A-m1.out", hits2); ("A-m2.out", no_hits);
                        ("A-m3.out", no_hits)]);
                 ("B", [("B-m1.out", no_hits); ("B-m2.out", hits1);
                        ("B-m3.out", no_hits)])])
          true
          [("results.txt",
            String.concat (String (ascii_of_nat 10) EmptyString)
              [",m3,m1,m2"; "A,0.0,2.0,0.0"; "B,0.0,0.0,1.0"; EmptyString])]).
Proof. reflexivity. Qed.

(** ** File names *)

Section FileNames.

Import Str.

Lemma occurs_cons (c b : ascii) (s : string) :
  occurs c (String b s) = false -> Ascii.eqb b c = false /\ occurs c s = false.
Proof. simpl. intros H. apply orb_false_iff in H. exact H. Qed.

Lemma split_app_sep (sep : ascii) (a b : string) :
  occurs sep a = false ->
  split sep (a ++ String sep b) = a :: split sep b.
Proof.
  induction a as [|c a IH]; intros H.
  - simpl. rewrite Ascii.eqb_refl. reflexivity.
  - apply occurs_cons in H as [Hc Ha]. simpl. rewrite Hc, (IH Ha). reflexivity.
Qed.

Lemma split_no_sep (sep : ascii) (a : string) :
  occurs sep a = false -> split sep a = [a].
Proof.
  induction a as [|c a IH]; intros H.
  - reflexivity.
  - apply occurs_cons in H as [Hc Ha]. simpl. rewrite Hc, (IH Ha). reflexivity.
Qed.

Lemma occurs_app (c : ascii) (a b : string) :
  occurs c (a ++ b) = occurs c a || occurs c b.
Proof.
  induction a as [|x a IH]; simpl.
  - reflexivity.
  - rewrite IH. apply orb_assoc.
Qed.

(** An occurrence of [".out"] that starts inside a dash-free [a] ends inside
    it when a dash follows. *)
Lemma out_before_dash (a b : string) :
  startswith "out" (a ++ String dash b) = true -> 3 <= String.length a.
Proof.
  destruct a as [|c1 [|c2 [|c3 a]]]; simpl; intros H;
    repeat (apply andb_true_iff in H as [? H]); try discriminate; lia.
Qed.

Lemma replace_out_dash (b a : string) (k : nat) :
  occurs dash a = false -> k <= String.length a ->
  exists a', occurs dash a' = false /\
    replace_from ".out" EmptyString k (a ++ String dash b)
    = (a' ++ String dash (replace ".out" EmptyString b))%string.
Proof.
  revert k. induction a as [|c a IH]; intros k Hd Hk.
  - simpl in Hk. assert (k = 0) by lia. subst k. exists EmptyString. split; reflexivity.
  - apply occurs_cons in Hd as [Hc Ha]. destruct k as [|k].
    + cbn [append replace_from].
      destruct (startswith ".out" (String c (a ++ String dash b))) eqn:E.
      * change (Ascii.eqb "." c && startswith "out" (a ++ String dash b) = true) in E.
        apply andb_true_iff in E as [_ E].
        apply out_before_dash in E.
        destruct (IH 3 Ha E) as [a' [Ha' Hr]].
        exists a'. split; [exact Ha'|]. simpl. exact Hr.
      * destruct (IH 0 Ha (Nat.le_0_l _)) as [a' [Ha' Hr]].
        exists (String c a'). split.
        -- simpl. rewrite Hc, Ha'. reflexivity.
        -- simpl. rewrite Hr. reflexivity.
    + simpl in Hk. destruct (IH k Ha ltac:(lia)) as [a' [Ha' Hr]].
      exists a'. split; [exact Ha'|]. simpl. exact Hr.
Qed.

Lemma out_not_before_suffix (p : string) :
  startswith "out" p = false -> startswith "out" (p ++ ".out") = false.
Proof.
  destruct p as [|c1 [|c2 [|c3 p]]]; simpl; intros H;
    rewrite ?andb_false_r; auto.
Qed.

Lemma replace_out_suffix (p : string) :
  contains ".out" p = false -> replace ".out" EmptyString (p ++ ".out") = p.
Proof.
  unfold replace. induction p as [|c p IH]; intros H.
  - reflexivity.
  - change (contains ".out" (String c p))
      with (startswith ".out" (String c p) || contains ".out" p) in H.
    apply orb_false_iff in H as [Hs Hc].
    cbn [append replace_from].
    assert (E : startswith ".out" (String c (p ++ ".out")) = false).
    { change (Ascii.eqb "." c && startswith "out" p = false) in Hs.
      change (Ascii.eqb "." c && startswith "out" (p ++ ".out") = false).
      apply andb_false_iff in Hs as [Hs|Hs].
      - rewrite Hs. reflexivity.
      - rewrite (out_not_before_suffix _ Hs). apply andb_false_r. }
    rewrite E, (IH Hc). reflexivity.
Qed.

End FileNames.

(** ** Dictionaries *)

Section DictFacts.

Context {V : Type}.
Implicit Types (d : Dict.t V) (k : string) (v : V).

Lemma get_set_eq k v d : Dict.get k (Dict.set k v d) = Some v.
Proof.
  induction d as [|[k' v'] d IH]; simpl.
  - rewrite String.eqb_refl. reflexivity.
  - destruct (String.eqb_spec k k') as [->|N]; simpl.
    + rewrite String.eqb_refl. reflexivity.
    + destruct (String.eqb_spec k k'); [contradiction|exact IH].
Qed.

Lemma get_set_neq k k' v d :
  k <> k' -> Dict.get k' (Dict.set k v d) = Dict.get k' d.
Proof.
  intros N. induction d as [|[k0 v0] d IH]; simpl.
  - destruct (String.eqb_spec k' k); [congruence|reflexivity].
  - destruct (String.eqb_spec k k0) as [->|N0]; simpl.
    + destruct (String.eqb_spec k' k0); [congruence|reflexivity].
    + destruct (String.eqb_spec k' k0); [reflexivity|exact IH].
Qed.

Lemma get_set k k' v d :
  Dict.get k' (Dict.set k v d)
  = if String.eqb k k' then Some v else Dict.get k' d.
Proof.
  destruct (String.eqb_spec k k') as [->|N].
  - apply get_set_eq.
  - apply get_set_neq, N.
Qed.

Lemma get_some_in k v d : Dict.get k d = Some v -> In (k, v) d.
Proof.
  induction d as [|[k' v'] d IH]; simpl; [discriminate|].
  destruct (String.eqb_spec k k') as [->|N]; intros H.
  - injection H as ->. now left.
  - right. auto.
Qed.

Lemma get_none_keys k d : Dict.get k d = None <-> ~ In k (Dict.keys d).
Proof.
  induction d as [|[k' v'] d IH]; simpl.
  - tauto.
  - destruct (String.eqb_spec k k') as [->|N].
    + split; [discriminate|]. intros H. exfalso. apply H. now left.
    + rewrite IH. split; intros H; [intros [E|E]; [congruence|tauto]|tauto].
Qed.

Lemma get_in_keys k v d : Dict.get k d = Some v -> In k (Dict.keys d).
Proof.
  intros H. apply get_some_in in H. apply (in_map fst) in H. exact H.
Qed.

Lemma in_keys_get k d : In k (Dict.keys d) -> exists v, Dict.get k d = Some v.
Proof.
  intros H. destruct (Dict.get k d) as [v|] eqn:E; [eauto|].
  apply get_none_keys in E. contradiction.
Qed.

Lemma in_get k v d : NoDup (Dict.keys d) -> In (k, v) d -> Dict.get k d = Some v.
Proof.
  induction d as [|[k' v'] d IH]; simpl; [tauto|].
  intros ND [E|H].
  - injection E as -> ->. rewrite String.eqb_refl. reflexivity.
  - inversion ND as [|? ? Hn ND']; subst.
    destruct (String.eqb_spec k k') as [->|N].
    + exfalso. apply Hn. apply (in_map fst) in H. exact H.
    + auto.
Qed.

Lemma keys_set k v d :
  Dict.keys (Dict.set k v d)
  = if Dict.mem k d then Dict.keys d else Dict.keys d ++ [k].
Proof.
  unfold Dict.mem. induction d as [|[k' v'] d IH]; simpl.
  - reflexivity.
  - destruct (String.eqb_spec k k') as [->|N]; simpl.
    + reflexivity.
    + rewrite IH. destruct (Dict.get k d); reflexivity.
Qed.

Lemma mem_keys k d : Dict.mem k d = label_in k (Dict.keys d).
Proof.
  unfold Dict.mem, label_in. induction d as [|[k' v'] d IH]; simpl.
  - reflexivity.
  - destruct (String.eqb_spec k k'); simpl; [reflexivity|exact IH].
Qed.

Lemma nodup_keys_set k v d :
  NoDup (Dict.keys d) -> NoDup (Dict.keys (Dict.set k v d)).
Proof.
  intros ND. rewrite keys_set. unfold Dict.mem.
  destruct (Dict.get k d) eqn:E; [exact ND|].
  apply get_none_keys in E.
  apply NoDup_app; [exact ND|repeat constructor; simpl; tauto|].
  intros x Hx [<-|[]]. contradiction.
Qed.

Lemma set_absent k v d :
  Dict.get k d = None -> Dict.set k v d = d ++ [(k, v)].
Proof.
  induction d as [|[k' v'] d IH]; simpl; [reflexivity|].
  destruct (String.eqb_spec k k'); [discriminate|].
  intros H. rewrite (IH H). reflexivity.
Qed.

Lemma set_set k v v' d : Dict.set k v (Dict.set k v' d) = Dict.set k v d.
Proof.
  induction d as [|[k0 v0] d IH]; simpl.
  - rewrite String.eqb_refl. reflexivity.
  - destruct (String.eqb_spec k k0) as [->|N]; simpl.
    + rewrite String.eqb_refl. reflexivity.
    + destruct (String.eqb_spec k k0); [contradiction|]. rewrite IH. reflexivity.
Qed.

End DictFacts.

Lemma label_in_iff (x : string) (l : list string) :
  label_in x l = true <-> In x l.
Proof.
  unfold label_in. rewrite existsb_exists. split.
  - intros [y [Hy E]]. apply String.eqb_eq in E. subst. exact Hy.
  - intros H. exists x. split; [exact H|apply String.eqb_refl].
Qed.

Lemma label_in_false (x : string) (l : list string) :
  label_in x l = false <-> ~ In x l.
Proof.
  rewrite <- label_in_iff. destruct (label_in x l); split; congruence.
Qed.

Lemma distinct_nodup (l : list string) : distinct l = true <-> NoDup l.
Proof.
  induction l as [|x l IH]; simpl.
  - split; [constructor|reflexivity].
  - rewrite andb_true_iff, negb_true_iff, label_in_false, IH. split.
    + intros [H1 H2]. now constructor.
    + intros H. inversion H; subst. tauto.
Qed.

(** ** First-seen order and the transposition of the facts *)

Lemma see_in (acc : list string) (x y : string) :
  In y (see acc x) <-> In y acc \/ y = x.
Proof.
  unfold see. destruct (label_in x acc) eqn:E.
  - apply label_in_iff in E. split; [tauto|]. intros [H| ->]; assumption.
  - rewrite in_app_iff. simpl. split.
    + intros [H|[<-|[]]]; auto.
    + intros [H| ->]; auto.
Qed.

Lemma fold_see_in (l acc : list string) (y : string) :
  In y (fold_left see l acc) <-> In y acc \/ In y l.
Proof.
  revert acc. induction l as [|x l IH]; intros acc; simpl.
  - tauto.
  - rewrite IH, see_in. split; intros H; intuition (subst; auto).
Qed.

Lemma see_nodup (acc : list string) (x : string) :
  NoDup acc -> NoDup (see acc x).
Proof.
  intros ND. unfold see. destruct (label_in x acc) eqn:E; [exact ND|].
  apply label_in_false in E.
  apply NoDup_app; [exact ND|repeat constructor; simpl; tauto|].
  intros y Hy [<-|[]]. contradiction.
Qed.

Lemma fold_see_nodup (l acc : list string) :
  NoDup acc -> NoDup (fold_left see l acc).
Proof.
  revert acc. induction l as [|x l IH]; intros acc ND; simpl.
  - exact ND.
  - apply IH, see_nodup, ND.
Qed.

Lemma first_seen_in (l : list string) (y : string) :
  In y (first_seen l) <-> In y l.
Proof. unfold first_seen. rewrite fold_see_in. simpl. tauto. Qed.

Lemma first_seen_nodup (l : list string) : NoDup (first_seen l).
Proof. apply fold_see_nodup. constructor. Qed.

Lemma keys_set_see {V : Type} (k : string) (v : V) (d : Dict.t V) :
  Dict.keys (Dict.set k v d) = see (Dict.keys d) k.
Proof. rewrite keys_set, mem_keys. reflexivity. Qed.

Lemma keys_nest_row (row : string * Dict.t Z) (nd : Dict.t (Dict.t Z)) :
  Dict.keys (nest_row nd row)
  = fold_left see (Dict.keys (snd row)) (Dict.keys nd).
Proof.
  unfold nest_row. revert nd.
  induction (snd row) as [|cv s IH]; intros nd; simpl.
  - reflexivity.
  - rewrite IH. unfold nest_entry. rewrite keys_set_see. reflexivity.
Qed.

Lemma keys_nest_rows (data nd : Dict.t (Dict.t Z)) :
  Dict.keys (fold_left nest_row data nd)
  = fold_left see (concat (map (fun row => Dict.keys (snd row)) data))
                  (Dict.keys nd).
Proof.
  revert nd. induction data as [|row data IH]; intros nd; simpl.
  - reflexivity.
  - rewrite IH, keys_nest_row, fold_left_app. reflexivity.
Qed.

(** The columns of the frame are the observed markers in first-seen
    order. *)
Lemma columns_from_dict (data : Dict.t (Dict.t Z)) :
  columns (from_dict data) = observed_markers data.
Proof.
  unfold observed_markers, first_seen.
  destruct data as [|row data]; [reflexivity|].
  unfold from_dict, from_nested_dict. cbn [columns].
  rewrite keys_nest_rows. reflexivity.
Qed.

Lemma from_dict_unfold (data : Dict.t (Dict.t Z)) :
  from_dict data
  = let nd := from_nested_dict data in
    let idx := union_indexes nd in
    mkFrame idx (Dict.keys nd)
      (map (fun cd => make_column (map (fun r => Dict.get r (snd cd)) idx)) nd).
Proof. destruct data; reflexivity. Qed.

Lemma in_set_inv {V : Type} (k : string) (v : V) (d : Dict.t V) (kv : string * V) :
  In kv (Dict.set k v d) -> kv = (k, v) \/ In kv d.
Proof.
  induction d as [|[k' v'] d IH]; simpl.
  - intros [<-|[]]. now left.
  - destruct (String.eqb_spec k k') as [->|N]; simpl.
    + intros [<-|H]; auto.
    + intros [<-|H]; auto. destruct (IH H); auto.
Qed.

Lemma Forall_set {V : Type} (P : string * V -> Prop) (k : string) (v : V)
  (d : Dict.t V) :
  Forall P d -> P (k, v) -> Forall P (Dict.set k v d).
Proof.
  intros H Hk. apply Forall_forall. intros kv Hin.
  apply in_set_inv in Hin as [->|Hin]; [exact Hk|].
  rewrite Forall_forall in H. auto.
Qed.

Lemma set_not_nil {V : Type} (k : string) (v : V) (d : Dict.t V) :
  Dict.set k v d <> [].
Proof.
  destruct d as [|[k' v'] d]; simpl; [discriminate|].
  destruct (String.eqb k k'); discriminate.
Qed.

Lemma nest_entry_inv (idx : string) (nd : Dict.t (Dict.t Z)) (cv : string * Z) :
  nested_inv nd -> (0 < snd cv)%Z -> nested_inv (nest_entry idx nd cv).
Proof.
  intros Hnd Hv. unfold nest_entry. apply Forall_set; [exact Hnd|].
  cbn [snd]. unfold col_inv.
  assert (Hold : NoDup (Dict.keys (option_default [] (Dict.get (fst cv) nd)))
                 /\ positive_dict (option_default [] (Dict.get (fst cv) nd))).
  { destruct (Dict.get (fst cv) nd) as [d|] eqn:E; simpl.
    - apply get_some_in in E. unfold nested_inv in Hnd.
      rewrite Forall_forall in Hnd. destruct (Hnd _ E) as [_ [H1 H2]]. auto.
    - split; constructor. }
  destruct Hold as [H1 H2]. split; [apply set_not_nil|]. split.
  - apply nodup_keys_set, H1.
  - apply Forall_set; [exact H2|exact Hv].
Qed.

Lemma nest_row_inv (row : string * Dict.t Z) (nd : Dict.t (Dict.t Z)) :
  nested_inv nd -> positive_dict (snd row) -> nested_inv (nest_row nd row).
Proof.
  unfold nest_row, positive_dict. revert nd.
  induction (snd row) as [|cv s IH]; intros nd Hnd Hp; simpl.
  - exact Hnd.
  - inversion Hp; subst. apply IH; [apply nest_entry_inv|]; assumption.
Qed.

Lemma from_nested_inv (data : Dict.t (Dict.t Z)) :
  positive_data data -> nested_inv (from_nested_dict data).
Proof.
  unfold from_nested_dict.
  assert (G : forall nd, nested_inv nd -> positive_data data ->
                         nested_inv (fold_left nest_row data nd)).
  { induction data as [|row data IH]; intros nd Hnd Hp; simpl.
    - exact Hnd.
    - inversion Hp; subst. apply IH; [apply nest_row_inv|]; assumption. }
  apply G. constructor.
Qed.

Lemma nodup_keys_nested (data : Dict.t (Dict.t Z)) :
  NoDup (Dict.keys (from_nested_dict data)).
Proof.
  unfold from_nested_dict. rewrite keys_nest_rows. apply fold_see_nodup. constructor.
Qed.

Lemma union_indexes_in (nd : Dict.t (Dict.t Z)) (r : string) :
  In r (union_indexes nd) <-> exists cd, In cd nd /\ In r (Dict.keys (snd cd)).
Proof.
  unfold union_indexes. rewrite first_seen_in, in_concat. split.
  - intros [l [Hl Hr]]. apply in_map_iff in Hl as [cd [<- Hcd]]. eauto.
  - intros [cd [Hcd Hr]]. exists (Dict.keys (snd cd)). split; [|exact Hr].
    apply in_map_iff. eauto.
Qed.

(** ** Loops *)

Lemma foldM_inv {A S : Type} (P : S -> Prop) (body : S -> A -> result S)
  (l : list A) :
  (forall s a s', P s -> body s a = Ok s' -> P s') ->
  forall s s', P s -> foldM body l s = Ok s' -> P s'.
Proof.
  intros Hstep. induction l as [|a l IH]; intros s s' Hs H; simpl in H.
  - injection H as <-. exact Hs.
  - destruct (body s a) as [s1|e] eqn:E; simpl in H; [|discriminate].
    apply (IH s1); [eapply Hstep; eauto|exact H].
Qed.

Lemma foldM_raise {A S : Type} (body : S -> A -> result S) (l : list A) (a : A) :
  In a l -> (forall s, exists e, body s a = Raise e) ->
  forall s, exists e, foldM body l s = Raise e.
Proof.
  intros Hin Ha. induction l as [|b l IH]; intros s; [destruct Hin|].
  simpl. destruct Hin as [->|Hin].
  - destruct (Ha s) as [e ->]. exists e. reflexivity.
  - destruct (body s b) as [s1|e]; simpl.
    + apply IH, Hin.
    + exists e. reflexivity.
Qed.

Lemma foldM_ext {A S : Type} (f g : S -> A -> result S) (l : list A) :
  (forall s a, In a l -> f s a = g s a) ->
  forall s, foldM f l s = foldM g l s.
Proof.
  induction l as [|a l IH]; intros H s; simpl.
  - reflexivity.
  - rewrite (H s a (or_introl eq_refl)).
    destruct (g s a) as [s1|e]; simpl; [|reflexivity].
    apply IH. intros s2 b Hb. apply H. now right.
Qed.

(** ** Query blocks *)

Lemma group_rows_hits (rows : list Row) :
  Forall (fun q => hits q <> []) (group_rows rows).
Proof.
  induction rows as [|r rows IH]; simpl.
  - constructor.
  - destruct (group_rows rows) as [|q qs].
    + repeat constructor. discriminate.
    + inversion IH; subst.
      destruct (String.eqb (query_name r) (qid q)).
      * constructor; [discriminate|assumption].
      * constructor; [discriminate|]. constructor; assumption.
Qed.

Lemma mapM_make_qresult (qs rs : list QueryResult) :
  mapM make_qresult qs = Ok rs -> rs = qs.
Proof.
  revert rs. induction qs as [|q qs IH]; intros rs H; simpl in H.
  - now injection H as <-.
  - unfold make_qresult in H at 1. destruct (distinct (hits q)); [|discriminate].
    simpl in H. destruct (mapM make_qresult qs) as [bs|e]; [|discriminate].
    simpl in H. injection H as <-. rewrite (IH bs eq_refl). reflexivity.
Qed.

Lemma parse_hits (r : Report) (qs : list QueryResult) :
  SearchIO_parse r = Ok qs -> Forall (fun q => hits q <> []) qs.
Proof.
  destruct r as [rows|]; simpl; [|discriminate].
  intros H. apply mapM_make_qresult in H. subst. apply group_rows_hits.
Qed.

(** ** What every genome dictionary satisfies

    A property of dictionaries that holds of the empty one and survives the
    recording of a positive count holds of every [genome_dict] on the heap,
    and of every row of the dereferenced facts. *)

Section HeapInvariant.

Variable P : Dict.t Z -> Prop.
Hypothesis P_nil : P [].
Hypothesis P_set : forall k v d, (0 < v)%Z -> P d -> P (Dict.set k v d).

Lemma record_hits_inv (prot key : string) (addr : nat)
  (qs : list QueryResult) (st : Dict.t Z * Dict.t nat) :
  Forall (fun q => hits q <> []) qs -> P (fst st) ->
  P (fst (fold_left (record_hits prot key addr) qs st)).
Proof.
  revert st. induction qs as [|q qs IH]; intros st Hq Hp; simpl.
  - exact Hp.
  - inversion Hq; subst. apply IH; [assumption|].
    unfold record_hits. cbn [fst]. apply P_set; [|exact Hp].
    destruct (hits q); [contradiction|simpl; lia].
Qed.

Lemma parse_file_inv (fs : FS) (addr : nat) (st st' : Dict.t Z * Dict.t nat)
  (file : string) :
  P (fst st) -> parse_file fs addr st file = Ok st' -> P (fst st').
Proof.
  intros Hp H. unfold parse_file in H.
  destruct (file_genome file) as [genome|]; [|discriminate].
  destruct (file_prot file) as [prot|]; [|discriminate].
  cbn [bind] in H.
  destruct (open_report fs genome file) as [report|]; [|discriminate].
  cbn [bind] in H.
  destruct (SearchIO_parse report) as [qs|] eqn:E; [|discriminate].
  cbn [bind] in H.
  destruct (Str.item _ 0) as [key|]; [|discriminate].
  cbn [bind] in H. injection H as <-.
  apply record_hits_inv; [eapply parse_hits; eauto|exact Hp].
Qed.

Lemma parse_dir_inv (fs : FS) (st st' : Parsed) (entry : string * list string) :
  Forall P (heap st) -> parse_dir fs st entry = Ok st' -> Forall P (heap st').
Proof.
  intros Hh H. unfold parse_dir in H.
  destruct (foldM _ (snd entry) _) as [[gd ad]|] eqn:E; [|discriminate].
  cbn [bind] in H. injection H as <-. cbn [heap].
  apply Forall_app. split; [exact Hh|]. constructor; [|constructor].
  change gd with (fst (gd, ad)).
  apply (foldM_inv (fun s => P (fst s)) _ _) with (3 := E); [|exact P_nil].
  intros s a s' Hs Hb. eapply parse_file_inv; eauto.
Qed.

Lemma deref_inv (st : Parsed) :
  Forall P (heap st) -> Forall (fun row => P (snd row)) (deref st).
Proof.
  intros Hh. unfold deref. apply Forall_map.
  apply Forall_forall. intros [k a] _. cbn [fst snd].
  destruct (Nat.lt_ge_cases a (length (heap st))) as [L|L].
  - rewrite Forall_forall in Hh. apply Hh, nth_In, L.
  - rewrite nth_overflow by exact L. exact P_nil.
Qed.

Lemma parse_results_inv (scandir : list string -> list string) (fs : FS)
  (st : Parsed) :
  parse_results scandir fs = Ok st -> Forall (fun row => P (snd row)) (deref st).
Proof.
  intros E. apply deref_inv. unfold parse_results in E.
  apply (foldM_inv (fun s => Forall P (heap s)) _ _) with (3 := E);
    [|constructor].
  intros s a s' Hs Hb. eapply parse_dir_inv; eauto.
Qed.

End HeapInvariant.

Lemma aggregate_inv (hmmsearch : string -> string -> option Report)
  (scandir : list string -> list string) (genomes markers : list string)
  (data : Dict.t (Dict.t Z)) :
  aggregate hmmsearch scandir genomes markers = Ok data ->
  exists fs st, run_hmms hmmsearch genomes markers = Ok fs
                /\ parse_results scandir fs = Ok st /\ data = deref st.
Proof.
  unfold aggregate. intros H.
  destruct (run_hmms hmmsearch genomes markers) as [fs|]; [|discriminate].
  cbn [bind] in H.
  destruct (parse_results scandir fs) as [st|] eqn:E; [|discriminate].
  cbn [bind] in H. injection H as <-. eauto.
Qed.

Lemma aggregate_positive (hmmsearch : string -> string -> option Report)
  (scandir : list string -> list string) (genomes markers : list string)
  (data : Dict.t (Dict.t Z)) :
  aggregate hmmsearch scandir genomes markers = Ok data -> positive_data data.
Proof.
  intros H. apply aggregate_inv in H as [fs [st [_ [E ->]]]].
  apply (parse_results_inv positive_dict) with (3 := E).
  - constructor.
  - intros k v d Hv Hd. apply Forall_set; assumption.
Qed.

(** No dictionary of the aggregated facts holds a key twice. *)
Lemma aggregate_rows_nodup (hmmsearch : string -> string -> option Report)
  (scandir : list string -> list string) (genomes markers : list string)
  (data : Dict.t (Dict.t Z)) :
  aggregate hmmsearch scandir genomes markers = Ok data ->
  Forall (fun row => NoDup (Dict.keys (snd row))) data.
Proof.
  intros H. apply aggregate_inv in H as [fs [st [_ [E ->]]]].
  apply (parse_results_inv (fun d => NoDup (Dict.keys d))) with (3 := E).
  - constructor.
  - intros k v d _ Hd. apply nodup_keys_set, Hd.
Qed.

Lemma record_hits_keys (prot key : string) (addr : nat)
  (qs : list QueryResult) (st : Dict.t Z * Dict.t nat) :
  NoDup (Dict.keys (snd st)) ->
  NoDup (Dict.keys (snd (fold_left (record_hits prot key addr) qs st))).
Proof.
  revert st. induction qs as [|q qs IH]; intros st Hp; simpl.
  - exact Hp.
  - apply IH. unfold record_hits. cbn [snd]. apply nodup_keys_set, Hp.
Qed.

Lemma parse_file_keys (fs : FS) (addr : nat) (st st' : Dict.t Z * Dict.t nat)
  (file : string) :
  NoDup (Dict.keys (snd st)) -> parse_file fs addr st file = Ok st' ->
  NoDup (Dict.keys (snd st')).
Proof.
  intros Hp H. unfold parse_file in H.
  destruct (file_genome file) as [genome|]; [|discriminate].
  destruct (file_prot file) as [prot|]; [|discriminate].
  cbn [bind] in H.
  destruct (open_report fs genome file) as [report|]; [|discriminate].
  cbn [bind] in H.
  destruct (SearchIO_parse report) as [qs|] eqn:E; [|discriminate].
  cbn [bind] in H.
  destruct (Str.item _ 0) as [key|]; [|discriminate].
  cbn [bind] in H. injection H as <-.
  apply record_hits_keys, Hp.
Qed.

Lemma parse_dir_keys (fs : FS) (st st' : Parsed) (entry : string * list string) :
  NoDup (Dict.keys (all_dicts st)) -> parse_dir fs st entry = Ok st' ->
  NoDup (Dict.keys (all_dicts st')).
Proof.
  intros Hh H. unfold parse_dir in H.
  destruct (foldM _ (snd entry) _) as [[gd ad]|] eqn:E; [|discriminate].
  cbn [bind] in H. injection H as <-. cbn [all_dicts].
  change ad with (snd (gd, ad)).
  apply (foldM_inv (fun s => NoDup (Dict.keys (snd s))) _ _) with (3 := E);
    [|exact Hh].
  intros s a s' Hs Hb. eapply parse_file_keys; eauto.
Qed.

Lemma keys_deref (st : Parsed) : Dict.keys (deref st) = Dict.keys (all_dicts st).
Proof. unfold deref, Dict.keys. rewrite map_map. reflexivity. Qed.

(** No genome key occurs twice in the aggregated facts. *)
Lemma aggregate_keys_nodup (hmmsearch : string -> string -> option Report)
  (scandir : list string -> list string) (genomes markers : list string)
  (data : Dict.t (Dict.t Z)) :
  aggregate hmmsearch scandir genomes markers = Ok data ->
  NoDup (Dict.keys data).
Proof.
  intros H. apply aggregate_inv in H as [fs [st [_ [E ->]]]].
  rewrite keys_deref. unfold parse_results in E.
  apply (foldM_inv (fun s => NoDup (Dict.keys (all_dicts s))) _ _) with (3 := E);
    [|constructor].
  intros s a s' Hs Hb. eapply parse_dir_keys; eauto.
Qed.

(** ** Columns of the assembled frame *)

Lemma all_some_cells {A : Type} (l : list (option A)) (xs : list A) :
  all_some l = Some xs -> map Some xs = l.
Proof.
  revert xs. induction l as [|[a|] l IH]; intros xs H; simpl in H.
  - now injection H as <-.
  - destruct (all_some l) as [r|]; [|discriminate].
    injection H as <-. simpl. rewrite (IH r eq_refl). reflexivity.
  - discriminate.
Qed.

Lemma cells_make_column (cs : list (option Z)) : cells (make_column cs) = cs.
Proof.
  unfold make_column. destruct (all_some cs) as [xs|] eqn:E; simpl.
  - apply all_some_cells, E.
  - reflexivity.
Qed.

Lemma cells_fill (v : Z) (col : Column) :
  cells (fill_column v col)
  = map (fun x => Some (option_default v x)) (cells col).
Proof.
  destruct col as [xs|xs]; simpl; [|reflexivity].
  rewrite map_map. reflexivity.
Qed.

Lemma get_combine_keys {V W : Type} (f : string * V -> W) (d : Dict.t V)
  (c : string) :
  Dict.get c (combine (Dict.keys d) (map f d))
  = match Dict.get c d with
    | Some v => Some (f (c, v))
    | None => None
    end.
Proof.
  induction d as [|[k v] d IH]; simpl.
  - reflexivity.
  - destruct (String.eqb_spec c k) as [->|N]; [reflexivity|exact IH].
Qed.

Lemma repeat_map_const {A B : Type} (b : B) (l : list A) :
  repeat b (length l) = map (fun _ => b) l.
Proof. induction l; simpl; congruence. Qed.

(** Before [fillna], the cell of row [r] in the column taken for [c] is the
    entry the transposed facts hold for [c] and [r]. *)
Lemma take_column_cells (data : Dict.t (Dict.t Z)) (c : string) :
  cells (take_column (from_dict data) c)
  = map (nested_get (from_nested_dict data) c) (index (from_dict data)).
Proof.
  rewrite from_dict_unfold. cbn zeta.
  unfold take_column, column_of. cbn [columns values index].
  rewrite get_combine_keys. unfold nested_get.
  destruct (Dict.get c (from_nested_dict data)) as [d|].
  - cbn [snd]. apply cells_make_column.
  - cbn [cells]. apply repeat_map_const.
Qed.

Lemma assemble_index (data : Dict.t (Dict.t Z)) (markers : list string) :
  index (assemble data markers) = index (from_dict data).
Proof. reflexivity. Qed.

Lemma assemble_columns (data : Dict.t (Dict.t Z)) (markers : list string) :
  columns (assemble data markers) = all_cols markers (observed_markers data).
Proof. unfold assemble. cbn. rewrite columns_from_dict. reflexivity. Qed.

Lemma assemble_values (data : Dict.t (Dict.t Z)) (markers : list string) :
  values (assemble data markers)
  = map (fun c => fill_column 0 (take_column (from_dict data) c))
        (all_cols markers (observed_markers data)).
Proof.
  unfold assemble. cbn. rewrite map_map, columns_from_dict. reflexivity.
Qed.

Lemma assemble_cells (data : Dict.t (Dict.t Z)) (c : string) :
  cells (fill_column 0 (take_column (from_dict data) c))
  = map (fun r => Some (option_default 0%Z
                          (nested_get (from_nested_dict data) c r)))
        (index (from_dict data)).
Proof. rewrite cells_fill, take_column_cells, map_map. reflexivity. Qed.

Lemma nested_get_positive (nd : Dict.t (Dict.t Z)) (c r : string) (v : Z) :
  nested_inv nd -> nested_get nd c r = Some v -> (0 < v)%Z.
Proof.
  unfold nested_get, nested_inv. intros Hnd H.
  destruct (Dict.get c nd) as [d|] eqn:E; [|discriminate].
  apply get_some_in in E. rewrite Forall_forall in Hnd.
  destruct (Hnd _ E) as [_ [_ Hp]]. cbn [snd] in Hp.
  apply get_some_in in H. unfold positive_dict in Hp.
  rewrite Forall_forall in Hp. apply (Hp _ H).
Qed.

Lemma assemble_frame_ok (data : Dict.t (Dict.t Z)) (markers : list string) :
  positive_data data -> frame_ok (assemble data markers) = true.
Proof.
  intros Hp. apply from_nested_inv in Hp. unfold frame_ok.
  rewrite assemble_values, assemble_columns, assemble_index.
  rewrite length_map, Nat.eqb_refl. cbn [andb].
  apply forallb_forall. intros col Hcol.
  apply in_map_iff in Hcol as [c [<- _]].
  unfold column_ok. rewrite assemble_cells, length_map, Nat.eqb_refl.
  cbn [andb]. apply forallb_forall. intros x Hx.
  apply in_map_iff in Hx as [r [<- _]]. cbn [cell_ok].
  destruct (nested_get (from_nested_dict data) c r) as [v|] eqn:E; simpl.
  - apply nested_get_positive in E; [|exact Hp]. apply Z.leb_le. lia.
  - reflexivity.
Qed.

(** A column taken for an unobserved label is zero in every row. *)
Lemma absent_column_zero (data : Dict.t (Dict.t Z)) (c : string) :
  ~ In c (observed_markers data) ->
  has_nonzero (fill_column 0 (take_column (from_dict data) c)) = false.
Proof.
  intros Hc. unfold has_nonzero. rewrite assemble_cells.
  destruct (existsb _ _) eqn:E; [|reflexivity]. exfalso.
  apply existsb_exists in E as [x [Hx Hz]].
  apply in_map_iff in Hx as [r [<- _]].
  rewrite <- columns_from_dict, from_dict_unfold in Hc. cbn in Hc.
  apply get_none_keys in Hc. unfold nested_get in Hz. rewrite Hc in Hz.
  discriminate.
Qed.

(** A column taken for an observed label has a positive cell. *)
Lemma observed_column_nonzero (data : Dict.t (Dict.t Z)) (c : string) :
  positive_data data -> In c (observed_markers data) ->
  zero_only (fill_column 0 (take_column (from_dict data) c)) = false.
Proof.
  intros Hp Hc. apply from_nested_inv in Hp.
  rewrite <- columns_from_dict, from_dict_unfold in Hc. cbn in Hc.
  apply in_keys_get in Hc as [d Hd].
  pose proof (get_some_in _ _ _ Hd) as Hin.
  unfold nested_inv in Hp. rewrite Forall_forall in Hp.
  destruct (Hp _ Hin) as [Hne [Hnd Hpos]]. cbn [snd] in *.
  destruct d as [|[r v] d]; [contradiction|].
  assert (Hr : In r (index (from_dict data))).
  { rewrite from_dict_unfold. cbn. apply union_indexes_in.
    exists (c, (r, v) :: d). split; [exact Hin|]. now left. }
  assert (Hv : (0 < v)%Z).
  { unfold positive_dict in Hpos. inversion Hpos; subst. assumption. }
  unfold zero_only. rewrite assemble_cells.
  destruct (forallb _ _) eqn:E; [|reflexivity]. exfalso.
  rewrite forallb_forall in E.
  specialize (E _ (in_map _ _ _ Hr)). cbn beta in E.
  unfold nested_get in E. rewrite Hd in E. simpl in E.
  rewrite String.eqb_refl in E. simpl in E.
  apply Z.eqb_eq in E. lia.
Qed.

(** ** Looking a cell up *)

Lemma nested_get_entry (idx : string) (nd : Dict.t (Dict.t Z)) (c0 : string)
  (v0 : Z) (c r : string) :
  nested_get (nest_entry idx nd (c0, v0)) c r
  = if String.eqb c0 c && String.eqb idx r then Some v0 else nested_get nd c r.
Proof.
  unfold nested_get, nest_entry. cbn [fst snd]. rewrite get_set.
  destruct (String.eqb_spec c0 c) as [->|N]; cbn [andb]; [|reflexivity].
  rewrite get_set. destruct (String.eqb idx r); [reflexivity|].
  destruct (Dict.get c nd); reflexivity.
Qed.

Lemma nested_get_row (k : string) (s : Dict.t Z) (nd : Dict.t (Dict.t Z))
  (c r : string) :
  NoDup (Dict.keys s) ->
  nested_get (nest_row nd (k, s)) c r
  = if String.eqb k r
    then match Dict.get c s with
         | Some v => Some v
         | None => nested_get nd c r
         end
    else nested_get nd c r.
Proof.
  unfold nest_row. cbn [fst snd]. revert nd.
  induction s as [|[c0 v0] s IH]; intros nd ND; simpl.
  - destruct (String.eqb k r); reflexivity.
  - inversion ND as [|? ? Hn ND']; subst. rewrite (IH _ ND').
    rewrite nested_get_entry.
    destruct (String.eqb_spec k r) as [->|N].
    + destruct (String.eqb_spec c c0) as [->|Nc].
      * rewrite String.eqb_refl. cbn [andb].
        assert (E : Dict.get c0 s = None) by (apply get_none_keys; exact Hn).
        rewrite E. reflexivity.
      * destruct (String.eqb_spec c0 c); [congruence|]. reflexivity.
    + rewrite andb_false_r. reflexivity.
Qed.

Lemma nested_get_rows (data nd : Dict.t (Dict.t Z)) (c r : string) :
  NoDup (Dict.keys data) ->
  Forall (fun row => NoDup (Dict.keys (snd row))) data ->
  nested_get (fold_left nest_row data nd) c r
  = match fact data r c with
    | Some v => Some v
    | None => nested_get nd c r
    end.
Proof.
  revert nd. induction data as [|[k s] data IH]; intros nd ND Hrows; simpl.
  - reflexivity.
  - inversion ND as [|? ? Hn ND']; subst. inversion Hrows as [|? ? Hs Hrows']; subst.
    rewrite (IH _ ND' Hrows'). cbn [snd] in Hs. rewrite (nested_get_row _ _ _ _ _ Hs).
    unfold fact. cbn [Dict.get].
    destruct (String.eqb_spec r k) as [->|N].
    + rewrite String.eqb_refl.
      assert (E : Dict.get k data = None) by (apply get_none_keys; exact Hn).
      rewrite E. reflexivity.
    + destruct (String.eqb_spec k r); [congruence|]. reflexivity.
Qed.

(** The transposed facts hold for a column and a row what the facts hold
    for the row and the column. *)
Lemma nested_get_fact (data : Dict.t (Dict.t Z)) (c r : string) :
  NoDup (Dict.keys data) ->
  Forall (fun row => NoDup (Dict.keys (snd row))) data ->
  nested_get (from_nested_dict data) c r = fact data r c.
Proof.
  intros ND Hrows. unfold from_nested_dict.
  rewrite (nested_get_rows _ _ _ _ ND Hrows).
  destruct (fact data r c); reflexivity.
Qed.

Lemma position_in (x : string) (l : list string) :
  In x l -> exists i, position x l = Some i /\ nth_error l i = Some x.
Proof.
  induction l as [|y l IH]; simpl; [tauto|].
  intros H. destruct (String.eqb_spec x y) as [->|N].
  - exists 0. split; reflexivity.
  - destruct H as [E|H]; [congruence|].
    destruct (IH H) as [i [Hi Hn]]. exists (S i). rewrite Hi. split; [reflexivity|exact Hn].
Qed.

Lemma get_combine_map {V : Type} (g : string -> V) (l : list string) (c : string) :
  Dict.get c (combine l (map g l))
  = if label_in c l then Some (g c) else None.
Proof.
  unfold label_in. induction l as [|k l IH]; simpl.
  - reflexivity.
  - destruct (String.eqb_spec c k) as [->|N]; [reflexivity|exact IH].
Qed.

(** A row exists for every genome key with a fact, a column for every label
    of [all_cols]; the cell holds the recorded count, or 0 where there is
    none. *)
Lemma loc_assemble (data : Dict.t (Dict.t Z)) (markers : list string)
  (r c c' : string) (v' : Z) :
  NoDup (Dict.keys data) ->
  Forall (fun row => NoDup (Dict.keys (snd row))) data ->
  fact data r c' = Some v' ->
  In c (all_cols markers (observed_markers data)) ->
  loc (assemble data markers) r c
  = Some (Some (option_default 0%Z (fact data r c))).
Proof.
  intros ND Hrows Hf Hc.
  assert (Hr : In r (index (from_dict data))).
  { rewrite from_dict_unfold. cbn. apply union_indexes_in.
    rewrite <- (nested_get_fact data c' r ND Hrows) in Hf.
    unfold nested_get in Hf.
    destruct (Dict.get c' (from_nested_dict data)) as [d|] eqn:E; [|discriminate].
    exists (c', d). split; [apply get_some_in, E|].
    cbn [snd]. eapply get_in_keys, Hf. }
  apply position_in in Hr as [i [Hi Hn]].
  unfold loc. rewrite assemble_index, Hi.
  unfold column_of. rewrite assemble_values, assemble_columns, get_combine_map.
  apply label_in_iff in Hc. rewrite Hc, assemble_cells, nth_error_map, Hn.
  cbn [option_map]. rewrite (nested_get_fact data c r ND Hrows). reflexivity.
Qed.

(** Without a fact for the genome key there is no row. *)
Lemma loc_no_row (data : Dict.t (Dict.t Z)) (markers : list string) (r c : string) :
  NoDup (Dict.keys data) ->
  Forall (fun row => NoDup (Dict.keys (snd row))) data ->
  (forall c', fact data r c' = None) ->
  loc (assemble data markers) r c = None.
Proof.
  intros ND Hrows Hf. unfold loc. rewrite assemble_index.
  destruct (position r (index (from_dict data))) as [i|] eqn:E; [|reflexivity].
  exfalso.
  assert (Hr : In r (index (from_dict data))).
  { clear - E. revert i E. induction (index (from_dict data)) as [|y l IH];
      simpl; intros i E; [discriminate|].
    destruct (String.eqb_spec r y) as [->|N]; [now left|].
    destruct (position r l) as [j|]; [|discriminate]. right. eapply IH. reflexivity. }
  rewrite from_dict_unfold in Hr. cbn in Hr.
  apply union_indexes_in in Hr as [[c' d] [Hcd Hk]]. cbn [snd] in Hk.
  apply in_keys_get in Hk as [v Hv].
  pose proof (nodup_keys_nested data) as NDn.
  pose proof (in_get _ _ _ NDn Hcd) as Hg.
  specialize (Hf c'). rewrite <- (nested_get_fact data c' r ND Hrows) in Hf.
  unfold nested_get in Hf. rewrite Hg, Hv in Hf. discriminate.
Qed.

(** ** The table that is written *)

Lemma result_matrix_inv (hmmsearch : string -> string -> option Report)
  (scandir : list string -> list string) (genomes markers : list string)
  (df : DataFrame) :
  result_matrix hmmsearch scandir genomes markers = Ok df ->
  exists data, aggregate hmmsearch scandir genomes markers = Ok data
               /\ df = assemble data markers.
Proof.
  unfold result_matrix. intros H.
  destruct (aggregate hmmsearch scandir genomes markers) as [data|]; [|discriminate].
  cbn [bind] in H. injection H as <-. eauto.
Qed.

(** C2. The columns of the table are, first, the labels of the markers that
    no genome's facts mention, in the order of the marker enumeration, and
    then the observed markers in the order in which they are first met; and
    a column that holds only zeros stands before every column that holds a
    nonzero cell. *)
Theorem C2_column_order (hmmsearch : string -> string -> option Report)
  (scandir : list string -> list string) (genomes markers : list string)
  (df : DataFrame) :
  result_matrix hmmsearch scandir genomes markers = Ok df ->
  exists data,
    aggregate hmmsearch scandir genomes markers = Ok data /\
    columns df
    = filter (fun c => negb (label_in c (observed_markers data)))
             (map marker_col markers)
      ++ observed_markers data /\
    forall i j ci cj,
      nth_error (values df) i = Some ci -> nth_error (values df) j = Some cj ->
      zero_only ci = true -> has_nonzero cj = true -> i < j.
Proof.
  intros H. apply result_matrix_inv in H as [data [Hd ->]].
  exists data. split; [exact Hd|]. split; [apply assemble_columns|].
  pose proof (aggregate_positive _ _ _ _ _ Hd) as Hp.
  intros i j ci cj Hi Hj Hz Hn.
  rewrite assemble_values in Hi, Hj. rewrite nth_error_map in Hi, Hj.
  unfold all_cols in Hi, Hj.
  set (absent := absent_cols markers (observed_markers data)) in *.
  assert (Li : i < length absent).
  { destruct (Nat.lt_ge_cases i (length absent)) as [L|L]; [exact L|exfalso].
    rewrite nth_error_app2 in Hi by exact L.
    destruct (nth_error (observed_markers data) (i - length absent)) as [c|] eqn:E;
      [|discriminate].
    cbn in Hi. injection Hi as <-. apply nth_error_In in E.
    rewrite (observed_column_nonzero data c Hp E) in Hz. discriminate. }
  assert (Lj : length absent <= j).
  { destruct (Nat.lt_ge_cases j (length absent)) as [L|L]; [exfalso|exact L].
    rewrite nth_error_app1 in Hj by exact L.
    destruct (nth_error absent j) as [c|] eqn:E; [|discriminate].
    cbn in Hj. injection Hj as <-. apply nth_error_In in E.
    unfold absent, absent_cols in E. apply filter_In in E as [_ E].
    apply negb_true_iff, label_in_false in E.
    rewrite (absent_column_zero data c E) in Hn. discriminate. }
  lia.
Qed.

Lemma C2_column_order_witness :
  result_matrix scenario creation_order
    ["g/A.faa"; "g/B.faa"] ["m/m1.hmm"; "m/m2.hmm"; "m/m3.hmm"]
  = Ok (mkFrame ["A"; "B"] ["m3"; "m1"; "m2"]
          [Float64 [Some 0%Z; Some 0%Z]; Float64 [Some 2%Z; Some 0%Z];
           Float64 [Some 0%Z; Some 1%Z]])
  /\ exists data,
       aggregate scenario creation_order
         ["g/A.faa"; "g/B.faa"] ["m/m1.hmm"; "m/m2.hmm"; "m/m3.hmm"] = Ok data /\
       ["m3"; "m1"; "m2"]
       = filter (fun c => negb (label_in c (observed_markers data)))
                (map marker_col ["m/m1.hmm"; "m/m2.hmm"; "m/m3.hmm"])
         ++ observed_markers data.
Proof.
  split; [reflexivity|].
  destruct (C2_column_order scenario creation_order
              ["g/A.faa"; "g/B.faa"] ["m/m1.hmm"; "m/m2.hmm"; "m/m3.hmm"]
              (mkFrame ["A"; "B"] ["m3"; "m1"; "m2"]
                 [Float64 [Some 0%Z; Some 0%Z]; Float64 [Some 2%Z; Some 0%Z];
                  Float64 [Some 0%Z; Some 1%Z]]) eq_refl)
    as [data [Hd [Hc _]]].
  exists data. split; [exact Hd|exact Hc].
Defined.

(** C6. In the table that reaches [to_csv] every column has one cell per
    row, and every cell is filled with a non-negative integer. *)
Theorem C6_cells_defined_nonnegative
  (hmmsearch : string -> string -> option Report)
  (scandir : list string -> list string) (genomes markers : list string)
  (df : DataFrame) :
  result_matrix hmmsearch scandir genomes markers = Ok df ->
  frame_ok df = true.
Proof.
  intros H. apply result_matrix_inv in H as [data [Hd ->]].
  apply assemble_frame_ok. eapply aggregate_positive, Hd.
Qed.

Lemma C6_cells_defined_nonnegative_witness :
  result_matrix scenario creation_order
    ["g/A.faa"; "g/B.faa"] ["m/m1.hmm"; "m/m2.hmm"; "m/m3.hmm"]
  = Ok (mkFrame ["A"; "B"] ["m3"; "m1"; "m2"]
          [Float64 [Some 0%Z; Some 0%Z]; Float64 [Some 2%Z; Some 0%Z];
           Float64 [Some 0%Z; Some 1%Z]])
  /\ frame_ok (mkFrame ["A"; "B"] ["m3"; "m1"; "m2"]
          [Float64 [Some 0%Z; Some 0%Z]; Float64 [Some 2%Z; Some 0%Z];
           Float64 [Some 0%Z; Some 1%Z]]) = true.
Proof.
  split; [reflexivity|].
  apply (C6_cells_defined_nonnegative scenario creation_order
           ["g/A.faa"; "g/B.faa"] ["m/m1.hmm"; "m/m2.hmm"; "m/m3.hmm"]).
  reflexivity.
Defined.

(** ** Identifiers hold no slash *)

Section NoSlash.

Import Str.

Variable c : ascii.

Lemma split_not_nil (sep : ascii) (s : string) : split sep s <> [].
Proof.
  destruct s as [|a s]; simpl; [discriminate|].
  destruct (Ascii.eqb a sep); [discriminate|].
  destruct (split sep s); discriminate.
Qed.

Lemma last_split_clean (s : string) : occurs c (last (split c s) EmptyString) = false.
Proof.
  induction s as [|a s IH]; [reflexivity|].
  cbn [split]. destruct (Ascii.eqb a c) eqn:E.
  - pose proof (split_not_nil c s) as Hne.
    destruct (split c s) as [|w ws]; [contradiction|exact IH].
  - pose proof (split_not_nil c s) as Hne.
    destruct (split c s) as [|w ws]; [contradiction|].
    destruct ws as [|w' ws].
    + simpl in IH |- *. rewrite E, IH. reflexivity.
    + exact IH.
Qed.

Lemma replace_from_clean (old : string) (k : nat) (s : string) :
  occurs c s = false -> occurs c (replace_from old EmptyString k s) = false.
Proof.
  revert k. induction s as [|a s IH]; intros k H; [reflexivity|].
  apply occurs_cons in H as [Ha Hs]. cbn [replace_from].
  destruct k as [|k]; [|apply IH, Hs].
  destruct (startswith old (String a s)).
  - cbn [append]. apply IH, Hs.
  - simpl. rewrite Ha. apply IH, Hs.
Qed.

Lemma lstrip_clean (s : string) :
  occurs c s = false -> occurs c (lstrip s) = false.
Proof.
  induction s as [|a s IH]; intros H; [reflexivity|].
  cbn [lstrip]. destruct (isspace a); [|exact H].
  apply occurs_cons in H as [_ Hs]. apply IH, Hs.
Qed.

Lemma rstrip_clean (s : string) :
  occurs c s = false -> occurs c (rstrip s) = false.
Proof.
  induction s as [|a s IH]; intros H; [reflexivity|].
  apply occurs_cons in H as [Ha Hs]. cbn [rstrip].
  specialize (IH Hs). destruct (rstrip s) as [|b r].
  - destruct (isspace a); [reflexivity|]. simpl. rewrite Ha. reflexivity.
  - cbn [occurs] in IH |- *. rewrite Ha, IH. reflexivity.
Qed.

Lemma splitlines_clean (n : nat) (s : string) :
  String.length s <= n -> occurs c s = false ->
  Forall (fun l => occurs c l = false) (splitlines s).
Proof.
  revert s. induction n as [|n IH]; intros s L H.
  - destruct s; [constructor|simpl in L; lia].
  - destruct s as [|a s]; [constructor|].
    apply occurs_cons in H as [Ha Hs]. simpl in L. cbn [splitlines].
    destruct (islinebreak a).
    + constructor; [reflexivity|].
      destruct s as [|b s]; [constructor|].
      destruct (_ && _).
      * apply occurs_cons in Hs as [_ Hs]. apply IH; [simpl in L; lia|exact Hs].
      * apply IH; [lia|exact Hs].
    + assert (Hl : Forall (fun l => occurs c l = false) (splitlines s))
        by (apply IH; [lia|exact Hs]).
      destruct (splitlines s) as [|l ls].
      * repeat constructor. simpl. rewrite Ha. reflexivity.
      * inversion Hl; subst. constructor; [|assumption].
        simpl. rewrite Ha. assumption.
Qed.

Lemma item_in {A : Type} (l : list A) (i : nat) (a : A) :
  item l i = Ok a -> In a l.
Proof.
  unfold item. destruct (nth_error l i) eqn:E; [|discriminate].
  intros H. injection H as <-. eapply nth_error_In, E.
Qed.

End NoSlash.

Lemma genome_name_no_slash (genome n : string) :
  genome_name genome = Ok n -> Str.occurs Str.slash n = false.
Proof.
  unfold genome_name. intros H. apply item_in in H. revert n H. apply Forall_forall.
  eapply splitlines_clean; [apply Nat.le_refl|].
  apply rstrip_clean, lstrip_clean, replace_from_clean, last_split_clean.
Qed.

Lemma marker_name_no_slash (marker p : string) :
  marker_name marker = Ok p -> Str.occurs Str.slash p = false.
Proof.
  unfold marker_name. intros H. apply item_in in H. revert p H. apply Forall_forall.
  eapply splitlines_clean; [apply Nat.le_refl|].
  apply rstrip_clean, lstrip_clean, replace_from_clean, last_split_clean.
Qed.

(** ** Reading a report name back *)

Lemma report_file_eq (name prot : string) :
  report_file name prot = (name ++ String Str.dash (prot ++ ".out"))%string.
Proof. reflexivity. Qed.

Lemma file_genome_report (name prot : string) :
  Str.occurs Str.dash name = false ->
  file_genome (report_file name prot) = Ok name.
Proof.
  intros H. unfold file_genome. rewrite report_file_eq, (split_app_sep _ _ _ H).
  reflexivity.
Qed.

Lemma file_prot_report (name prot : string) :
  Str.occurs Str.dash name = false -> Str.occurs Str.dash prot = false ->
  Str.contains ".out" prot = false ->
  file_prot (report_file name prot) = Ok prot.
Proof.
  intros Hn Hp Hc. unfold file_prot, Str.replace. rewrite report_file_eq.
  destruct (replace_out_dash (prot ++ ".out") name 0 Hn (Nat.le_0_l _))
    as [a' [Ha' ->]].
  rewrite (split_app_sep _ _ _ Ha'), (replace_out_suffix _ Hc).
  rewrite (split_no_sep _ _ Hp). reflexivity.
Qed.

Lemma basename_report (name prot : string) :
  Str.occurs Str.slash name = false -> Str.occurs Str.slash prot = false ->
  Str.basename (report_file name prot) = report_file name prot.
Proof.
  intros Hn Hp. unfold Str.basename. rewrite split_no_sep; [reflexivity|].
  rewrite report_file_eq, occurs_app. cbn [Str.occurs]. rewrite occurs_app, Hn, Hp.
  reflexivity.
Qed.

Lemma report_file_inj (name p1 p2 : string) :
  Str.occurs Str.dash name = false ->
  Str.occurs Str.dash p1 = false -> Str.contains ".out" p1 = false ->
  Str.occurs Str.dash p2 = false -> Str.contains ".out" p2 = false ->
  report_file name p1 = report_file name p2 -> p1 = p2.
Proof.
  intros Hn H1 C1 H2 C2 E.
  pose proof (file_prot_report name p1 Hn H1 C1) as E1.
  rewrite E, (file_prot_report name p2 Hn H2 C2) in E1. congruence.
Qed.

(** ** Enumerations and their identifiers *)

Lemma mapM_cons_inv {A B : Type} (f : A -> result B) (a : A) (l : list A)
  (rs : list B) :
  mapM f (a :: l) = Ok rs ->
  exists r rs', f a = Ok r /\ mapM f l = Ok rs' /\ rs = r :: rs'.
Proof.
  simpl. destruct (f a) as [r|]; [|discriminate]. simpl.
  destruct (mapM f l) as [rs'|]; [|discriminate]. simpl.
  intros H. injection H as <-. eauto.
Qed.

Lemma mapM_in_combine {A B : Type} (f : A -> result B) (l : list A) (rs : list B) :
  mapM f l = Ok rs -> forall a r, In (a, r) (combine l rs) -> f a = Ok r.
Proof.
  revert rs. induction l as [|a0 l IH]; intros rs H a r Hin.
  - destruct Hin.
  - apply mapM_cons_inv in H as [r0 [rs' [H0 [H1 ->]]]].
    destruct Hin as [E|Hin]; [injection E as <- <-; exact H0|eauto].
Qed.

Lemma mapM_in {A B : Type} (f : A -> result B) (l : list A) (rs : list B) :
  mapM f l = Ok rs -> forall a, In a l -> exists r, In (a, r) (combine l rs).
Proof.
  revert rs. induction l as [|a0 l IH]; intros rs H a Hin; [destruct Hin|].
  apply mapM_cons_inv in H as [r0 [rs' [H0 [H1 ->]]]].
  destruct Hin as [->|Hin].
  - exists r0. now left.
  - destruct (IH _ H1 _ Hin) as [r Hr]. exists r. now right.
Qed.

Lemma mapM_snd_combine {A B : Type} (f : A -> result B) (l : list A) (rs : list B) :
  mapM f l = Ok rs -> map snd (combine l rs) = rs.
Proof.
  revert rs. induction l as [|a0 l IH]; intros rs H.
  - simpl in H. now injection H as <-.
  - apply mapM_cons_inv in H as [r0 [rs' [H0 [H1 ->]]]].
    simpl. rewrite (IH _ H1). reflexivity.
Qed.

(** ** What the search leaves on disk *)

Lemma set_same {V : Type} (k : string) (v : V) (d : Dict.t V) :
  Dict.get k d = Some v -> Dict.set k v d = d.
Proof.
  induction d as [|[k' v'] d IH]; simpl; [discriminate|].
  destruct (String.eqb_spec k k') as [->|N]; intros H.
  - now injection H as ->.
  - rewrite (IH H). reflexivity.
Qed.

Lemma set_app_last {V : Type} (k : string) (v v0 : V) (d : Dict.t V) :
  Dict.get k d = None -> Dict.set k v (d ++ [(k, v0)]) = d ++ [(k, v)].
Proof.
  induction d as [|[k' v'] d IH]; simpl.
  - rewrite String.eqb_refl. reflexivity.
  - destruct (String.eqb_spec k k'); [discriminate|].
    intros H. rewrite (IH H). reflexivity.
Qed.

Lemma get_app_last {V : Type} (k : string) (v : V) (d : Dict.t V) :
  Dict.get k d = None -> Dict.get k (d ++ [(k, v)]) = Some v.
Proof.
  intros H. rewrite <- (set_absent _ _ _ H). apply get_set_eq.
Qed.

Section Orchestrator.

Variable hmmsearch : string -> string -> option Report.

Lemma search_markers_spec (genome name : string) (ms : list string) :
  forall (ps : list string) (fs : FS) (d0 : Dir),
    mapM marker_name ms = Ok ps -> Dict.get name fs = Some d0 ->
    foldM (search_marker hmmsearch genome name) ms fs
    = Ok (Dict.set name (fill_dir hmmsearch genome name (combine ms ps) d0) fs).
Proof.
  induction ms as [|m ms IH]; intros ps fs d0 Hps Hd.
  - simpl in Hps. injection Hps as <-. simpl. rewrite (set_same _ _ _ Hd).
    reflexivity.
  - apply mapM_cons_inv in Hps as [p [ps' [Hp [Hps ->]]]].
    cbn [foldM]. unfold search_marker at 1. rewrite Hp. cbn [bind combine].
    unfold fill_dir. cbn [fold_left fst snd].
    destruct (hmmsearch m genome) as [r|].
    + unfold write_report. rewrite Hd.
      rewrite (IH ps' _ (Dict.set (report_file name p) r d0) Hps (get_set_eq _ _ _)).
      rewrite set_set. reflexivity.
    + apply (IH ps' fs d0 Hps Hd).
Qed.

Lemma run_hmms_spec (markers prots : list string) (gs : list string) :
  mapM marker_name markers = Ok prots ->
  forall (ns : list string) (fs0 : FS),
    mapM genome_name gs = Ok ns ->
    forallb clean_genome_name ns = true -> NoDup ns ->
    (forall n, In n ns -> ~ In n (Dict.keys fs0)) ->
    foldM (search_genome hmmsearch markers) gs fs0
    = Ok (fs0 ++ fill_tree hmmsearch (combine gs ns) (combine markers prots)).
Proof.
  intros Hps. induction gs as [|g gs IH]; intros ns fs0 Hns Hc ND Hfresh.
  - simpl in Hns. injection Hns as <-. simpl. rewrite app_nil_r. reflexivity.
  - apply mapM_cons_inv in Hns as [n [ns' [Hn [Hns ->]]]].
    cbn [forallb] in Hc. apply andb_true_iff in Hc as [Hcn Hc].
    inversion ND as [|? ? Hnn ND']; subst.
    cbn [foldM]. unfold search_genome at 1. rewrite Hn. cbn [bind].
    assert (Hg : Dict.get n fs0 = None).
    { apply get_none_keys, Hfresh. now left. }
    unfold clean_genome_name in Hcn.
    apply andb_true_iff in Hcn as [Hcn H2]. apply andb_true_iff in Hcn as [_ H1].
    apply negb_true_iff in H1, H2.
    unfold mkdir, Dict.mem. rewrite H1, H2, Hg. cbn [orb bind].
    rewrite (set_absent _ _ _ Hg).
    rewrite (search_markers_spec g n markers prots _ [] Hps (get_app_last _ _ _ Hg)).
    rewrite (set_app_last _ _ _ _ Hg). cbn [bind].
    rewrite (IH ns' _ Hns Hc ND').
    + cbn [combine fill_tree map fst snd]. rewrite <- app_assoc. reflexivity.
    + intros n' Hn' Hk. unfold Dict.keys in Hk. rewrite map_app, in_app_iff in Hk.
      destruct Hk as [Hk|[<-|[]]].
      * apply (Hfresh n'); [now right|exact Hk].
      * contradiction.
Qed.

(** *** The directory of one genome *)

Variables genome name : string.

Lemma fill_dir_other (f : string) (mps : list (string * string)) :
  forall d0 : Dir,
    (forall mp, In mp mps -> report_file name (snd mp) <> f) ->
    Dict.get f (fill_dir hmmsearch genome name mps d0) = Dict.get f d0.
Proof.
  unfold fill_dir. induction mps as [|[m p] mps IH]; intros d0 H; simpl.
  - reflexivity.
  - rewrite IH by (intros mp Hmp; apply H; now right).
    destruct (hmmsearch m genome); [|reflexivity].
    apply get_set_neq. apply (H (m, p)). now left.
Qed.

Lemma fill_dir_get (m p : string) (mps : list (string * string)) :
  forall d0 : Dir,
    NoDup (map (fun mp => report_file name (snd mp)) mps) ->
    In (m, p) mps ->
    Dict.get (report_file name p) (fill_dir hmmsearch genome name mps d0)
    = match hmmsearch m genome with
      | Some r => Some r
      | None => Dict.get (report_file name p) d0
      end.
Proof.
  induction mps as [|[m0 p0] mps IH]; intros d0 ND Hin; [destruct Hin|].
  cbn [map snd] in ND. inversion ND as [|? ? Hn ND']; subst.
  destruct Hin as [E|Hin].
  - injection E as -> ->.
    change (fill_dir hmmsearch genome name ((m, p) :: mps) d0)
      with (fill_dir hmmsearch genome name mps
              (match hmmsearch m genome with
               | Some r => Dict.set (report_file name p) r d0
               | None => d0
               end)).
    rewrite fill_dir_other.
    + destruct (hmmsearch m genome); [apply get_set_eq|reflexivity].
    + intros mp Hmp E. apply Hn. rewrite <- E.
      apply (in_map (fun mp => report_file name (snd mp))), Hmp.
  - change (fill_dir hmmsearch genome name ((m0, p0) :: mps) d0)
      with (fill_dir hmmsearch genome name mps
              (match hmmsearch m0 genome with
               | Some r => Dict.set (report_file name p0) r d0
               | None => d0
               end)).
    rewrite (IH _ ND' Hin).
    destruct (hmmsearch m genome); [reflexivity|].
    destruct (hmmsearch m0 genome); [|reflexivity].
    apply get_set_neq. intros E. apply Hn. rewrite E.
    apply (in_map (fun mp => report_file name (snd mp)) _ (m, p)), Hin.
Qed.

Lemma fill_dir_keys (f : string) (mps : list (string * string)) :
  forall d0 : Dir,
    In f (Dict.keys (fill_dir hmmsearch genome name mps d0)) ->
    In f (Dict.keys d0)
    \/ exists m p r, In (m, p) mps /\ f = report_file name p
                     /\ hmmsearch m genome = Some r.
Proof.
  unfold fill_dir. induction mps as [|[m p] mps IH]; intros d0 H; simpl in H.
  - now left.
  - apply IH in H as [H|[m' [p' [r [H1 [H2 H3]]]]]].
    + destruct (hmmsearch m genome) as [r|] eqn:E; [|now left].
      rewrite keys_set_see in H. apply see_in in H as [H| ->]; [now left|].
      right. exists m, p, r. split; [now left|]. split; [reflexivity|exact E].
    + right. exists m', p', r. split; [now right|]. split; assumption.
Qed.

End Orchestrator.

(** ** A run over well-formed identifiers *)

Lemma in_combine_fun {A B : Type} (f : A -> B) (l : list A) (a : A) (b : B) :
  In (a, b) (combine l (map f l)) -> b = f a.
Proof.
  induction l as [|x l IH]; simpl; [tauto|].
  intros [E|H]; [now injection E as <- <-|auto].
Qed.

Lemma nodup_snd_inj {A B : Type} (l : list (A * B)) (a a' : A) (b : B) :
  NoDup (map snd l) -> In (a, b) l -> In (a', b) l -> a = a'.
Proof.
  induction l as [|[x y] l IH]; simpl; [tauto|].
  intros ND H1 H2. inversion ND as [|? ? Hn ND']; subst.
  destruct H1 as [E1|H1], H2 as [E2|H2].
  - congruence.
  - injection E1 as -> ->. exfalso. apply Hn.
    apply (in_map snd) in H2. exact H2.
  - injection E2 as -> ->. exfalso. apply Hn.
    apply (in_map snd) in H1. exact H1.
  - auto.
Qed.

Lemma nodup_map_inj_in {A B : Type} (f : A -> B) (l : list A) :
  (forall x y, In x l -> In y l -> f x = f y -> x = y) ->
  NoDup l -> NoDup (map f l).
Proof.
  induction l as [|a l IH]; intros Hinj ND; simpl; [constructor|].
  inversion ND as [|? ? Hn ND']; subst. constructor.
  - intros H. apply in_map_iff in H as [y [E Hy]].
    apply Hn. rewrite (Hinj a y); [exact Hy|now left|now right|now symmetry].
  - apply IH; [|exact ND']. intros x y Hx Hy. apply Hinj; now right.
Qed.

Lemma labels_eqb_eq (l1 l2 : list string) : labels_eqb l1 l2 = true -> l1 = l2.
Proof.
  revert l2. induction l1 as [|x l1 IH]; intros [|y l2]; simpl; try discriminate.
  - reflexivity.
  - intros H. apply andb_true_iff in H as [E H].
    apply String.eqb_eq in E. rewrite E, (IH _ H). reflexivity.
Qed.

Lemma get_deref (st : Parsed) (k : string) :
  Dict.get k (deref st)
  = option_map (fun a => nth a (heap st) []) (Dict.get k (all_dicts st)).
Proof.
  unfold deref. induction (all_dicts st) as [|[k' a] ad IH]; simpl.
  - reflexivity.
  - destruct (String.eqb k k'); [reflexivity|exact IH].
Qed.

Lemma group_rows_one (q : string) (rows : list Row) :
  rows <> [] -> Forall (fun r => query_name r = q) rows ->
  group_rows rows = [mkQResult q (map target_name rows)].
Proof.
  induction rows as [|r rows IH]; intros Hne Hq; [contradiction|].
  inversion Hq as [|? ? Hr Hq']; subst. simpl.
  destruct rows as [|r' rows].
  - reflexivity.
  - rewrite (IH ltac:(discriminate) Hq'). cbn [qid hits].
    rewrite String.eqb_refl. reflexivity.
Qed.

(** A report with one query block yields one query result, with one hit
    per row, and none when the table is empty. *)
Lemma parse_one_query (r : Report) :
  one_query r = true ->
  exists qs, SearchIO_parse r = Ok qs /\
    forall prot key addr st,
      fold_left (record_hits prot key addr) qs st
      = if (0 <? report_hits r)%Z
        then (Dict.set prot (report_hits r) (fst st), Dict.set key addr (snd st))
        else st.
Proof.
  destruct r as [[|r0 rows]|]; cbn [one_query]; [| |discriminate].
  - intros _. exists []. split; reflexivity.
  - intros H. apply andb_true_iff in H as [Hq Hd].
    exists [mkQResult (query_name r0) (map target_name (r0 :: rows))]. split.
    + change (mapM make_qresult (group_rows (r0 :: rows)) = Ok [mkQResult (query_name r0) (map target_name (r0 :: rows))]).
      rewrite (group_rows_one (query_name r0)).
      * cbn [mapM]. unfold make_qresult. cbn [hits]. rewrite Hd. reflexivity.
      * discriminate.
      * constructor; [reflexivity|]. apply Forall_forall. intros r Hr.
        rewrite forallb_forall in Hq. apply String.eqb_eq, Hq, Hr.
    + intros prot key addr st. cbn [fold_left]. unfold record_hits. cbn [hits].
      rewrite length_map. cbn [length report_hits].
      destruct (0 <? Z.of_nat (S (length rows)))%Z eqn:E; [reflexivity|].
      apply Z.ltb_ge in E. lia.
Qed.

Lemma report_hits_nonneg (r : Report) : (0 <= report_hits r)%Z.
Proof. destruct r; simpl; lia. Qed.

Lemma reported_nonneg (hmmsearch : string -> string -> option Report)
  (m g : string) : (0 <= reported hmmsearch m g)%Z.
Proof.
  unfold reported. destruct (hmmsearch m g); [apply report_hits_nonneg|lia].
Qed.

Section WellFormedRun.

Variable hmmsearch : string -> string -> option Report.
Variable scandir : list string -> list string.
Variables genomes markers names prots : list string.

Hypothesis Hnames : mapM genome_name genomes = Ok names.
Hypothesis Hprots : mapM marker_name markers = Ok prots.
Hypothesis Hcn : forallb clean_genome_name names = true.
Hypothesis Hdn : NoDup names.
Hypothesis Hcp : forallb clean_marker_name prots = true.
Hypothesis Hdp : NoDup prots.
Hypothesis Hscan : forall l, Permutation (scandir l) l.

Local Abbreviation gns := (combine genomes names).
Local Abbreviation mps := (combine markers prots).
Local Abbreviation fs := (fill_tree hmmsearch (combine genomes names) (combine markers prots)).

Lemma run_hmms_tree : run_hmms hmmsearch genomes markers = Ok fs.
Proof.
  unfold run_hmms.
  rewrite (run_hmms_spec hmmsearch markers prots genomes Hprots names []
             Hnames Hcn Hdn); [reflexivity|].
  intros n _ [].
Qed.

Lemma genome_facts (g n : string) :
  In (g, n) gns ->
  genome_name g = Ok n /\ In n names /\ Str.occurs Str.dash n = false
  /\ Str.occurs Str.slash n = false.
Proof.
  intros H. pose proof (mapM_in_combine _ _ _ Hnames _ _ H) as Hg.
  pose proof (in_combine_r _ _ _ _ H) as Hn.
  split; [exact Hg|]. split; [exact Hn|]. split.
  - rewrite forallb_forall in Hcn. specialize (Hcn _ Hn).
    unfold clean_genome_name in Hcn.
    apply andb_true_iff in Hcn as [Hc _]. apply andb_true_iff in Hc as [Hc _].
    apply negb_true_iff, Hc.
  - eapply genome_name_no_slash, Hg.
Qed.

Lemma marker_facts (m p : string) :
  In (m, p) mps ->
  marker_name m = Ok p /\ Str.occurs Str.dash p = false
  /\ Str.contains ".out" p = false /\ Str.occurs Str.slash p = false.
Proof.
  intros H. pose proof (mapM_in_combine _ _ _ Hprots _ _ H) as Hm.
  pose proof (in_combine_r _ _ _ _ H) as Hp.
  rewrite forallb_forall in Hcp. specialize (Hcp _ Hp).
  unfold clean_marker_name in Hcp. apply andb_true_iff in Hcp as [H1 H2].
  apply negb_true_iff in H1, H2.
  repeat split; try assumption. eapply marker_name_no_slash, Hm.
Qed.

Lemma marker_unique (m m' p : string) :
  In (m, p) mps -> In (m', p) mps -> m = m'.
Proof.
  apply nodup_snd_inj. rewrite (mapM_snd_combine _ _ _ Hprots). exact Hdp.
Qed.

Lemma genome_unique (g g' n : string) :
  In (g, n) gns -> In (g', n) gns -> g = g'.
Proof.
  apply nodup_snd_inj. rewrite (mapM_snd_combine _ _ _ Hnames). exact Hdn.
Qed.

Lemma keys_tree : Dict.keys fs = names.
Proof.
  unfold fill_tree, Dict.keys. rewrite map_map. cbn [fst].
  apply (mapM_snd_combine _ _ _ Hnames).
Qed.

Lemma get_tree (g n : string) :
  In (g, n) gns ->
  Dict.get n fs = Some (fill_dir hmmsearch g n mps []).
Proof.
  intros H. apply in_get.
  - rewrite keys_tree. exact Hdn.
  - unfold fill_tree.
    apply (in_map (fun gn => (snd gn, fill_dir hmmsearch (fst gn) (snd gn) mps []))
                  _ (g, n)), H.
Qed.

Lemma report_files_nodup (n : string) :
  Str.occurs Str.dash n = false ->
  NoDup (map (fun mp => report_file n (snd mp)) mps).
Proof.
  intros Hn. rewrite <- (map_map snd (report_file n)).
  rewrite (mapM_snd_combine _ _ _ Hprots).
  apply nodup_map_inj_in; [|exact Hdp].
  intros p1 p2 H1 H2. rewrite forallb_forall in Hcp.
  pose proof (Hcp _ H1) as C1. pose proof (Hcp _ H2) as C2.
  unfold clean_marker_name in C1, C2.
  apply andb_true_iff in C1 as [A1 B1]. apply andb_true_iff in C2 as [A2 B2].
  apply negb_true_iff in A1, B1, A2, B2.
  apply report_file_inj; assumption.
Qed.

Lemma get_report (g n m p : string) :
  In (g, n) gns -> In (m, p) mps ->
  Dict.get (report_file n p) (fill_dir hmmsearch g n mps []) = hmmsearch m g.
Proof.
  intros Hg Hm. destruct (genome_facts g n Hg) as [_ [_ [Hd _]]].
  rewrite (fill_dir_get hmmsearch g n m p mps [] (report_files_nodup n Hd) Hm).
  destruct (hmmsearch m g); reflexivity.
Qed.

(** The parser reads back the pair that wrote the file and opens the very
    file. *)
Lemma parse_file_report (g n m p : string) (r : Report) (addr : nat)
  (st : Dict.t Z * Dict.t nat) :
  In (g, n) gns -> In (m, p) mps -> hmmsearch m g = Some r ->
  parse_file fs addr st (report_file n p)
  = bind (SearchIO_parse r)
         (fun qs => Ok (fold_left (record_hits p n addr) qs st)).
Proof.
  intros Hg Hm Hr.
  destruct (genome_facts g n Hg) as [_ [_ [Hnd Hns]]].
  destruct (marker_facts m p Hm) as [_ [Hpd [Hpc Hps]]].
  unfold parse_file.
  rewrite (file_genome_report n p Hnd), (file_prot_report n p Hnd Hpd Hpc).
  cbn [bind]. unfold open_report.
  rewrite (get_tree g n Hg), (get_report g n m p Hg Hm), Hr. cbn [bind].
  destruct (SearchIO_parse r) as [qs|e]; [|reflexivity]. cbn [bind].
  rewrite (basename_report n p Hns Hps).
  change (Str.item (Str.split Str.dash (report_file n p)) 0)
    with (file_genome (report_file n p)).
  rewrite (file_genome_report n p Hnd). reflexivity.
Qed.

Lemma walked_dir (n : string) :
  In n names -> In (walk_entry scandir fs n) (os_walk scandir fs).
Proof.
  intros H. unfold os_walk. right. apply in_map.
  apply (Permutation_in _ (Permutation_sym (Hscan _))).
  rewrite keys_tree. exact H.
Qed.

Lemma walked_file (g n m p : string) (r : Report) :
  In (g, n) gns -> In (m, p) mps -> hmmsearch m g = Some r ->
  In (report_file n p) (snd (walk_entry scandir fs n)).
Proof.
  intros Hg Hm Hr. unfold walk_entry. cbn [snd]. rewrite (get_tree g n Hg).
  apply (Permutation_in _ (Permutation_sym (Hscan _))).
  apply (get_in_keys _ r). rewrite (get_report g n m p Hg Hm). exact Hr.
Qed.

(** One unreadable report stops the whole aggregation. *)
Lemma malformed_aborts (g m : string) :
  In g genomes -> In m markers -> hmmsearch m g = Some Malformed ->
  exists e, aggregate hmmsearch scandir genomes markers = Raise e.
Proof.
  intros Hg Hm Hr.
  destruct (mapM_in _ _ _ Hnames _ Hg) as [n Hgn].
  destruct (mapM_in _ _ _ Hprots _ Hm) as [p Hmp].
  unfold aggregate. rewrite run_hmms_tree. cbn [bind].
  assert (H : exists e, parse_results scandir fs = Raise e).
  { unfold parse_results.
    apply (foldM_raise _ _ (walk_entry scandir fs n)).
    - apply walked_dir. apply (genome_facts g n Hgn).
    - intros st. unfold parse_dir.
      destruct (foldM_raise (parse_file fs (length (heap st))) _ _
                  (walked_file g n m p Malformed Hgn Hmp Hr)) with (s := (@nil (string * Z), all_dicts st))
        as [e He].
      + intros s. exists ParseError.
        rewrite (parse_file_report g n m p Malformed _ _ Hgn Hmp Hr). reflexivity.
      + rewrite He. exists e. reflexivity. }
  destruct H as [e ->]. exists e. reflexivity.
Qed.

(** *** Every report holds at most one query block *)

Hypothesis Hone : reports_one_query hmmsearch genomes markers = true.

Lemma one_query_pair (g n m p : string) (r : Report) :
  In (g, n) gns -> In (m, p) mps -> hmmsearch m g = Some r ->
  one_query r = true.
Proof.
  intros Hg Hm Hr. unfold reports_one_query in Hone.
  rewrite forallb_forall in Hone.
  specialize (Hone _ (in_combine_l _ _ _ _ Hg)).
  rewrite forallb_forall in Hone.
  specialize (Hone _ (in_combine_l _ _ _ _ Hm)).
  rewrite Hr in Hone. exact Hone.
Qed.

Lemma parse_file_counted (g n m p : string) (r : Report) (addr : nat)
  (st : Dict.t Z * Dict.t nat) :
  In (g, n) gns -> In (m, p) mps -> hmmsearch m g = Some r ->
  parse_file fs addr st (report_file n p)
  = Ok (if (0 <? reported hmmsearch m g)%Z
        then (Dict.set p (reported hmmsearch m g) (fst st),
              Dict.set n addr (snd st))
        else st).
Proof.
  intros Hg Hm Hr. rewrite (parse_file_report g n m p r addr st Hg Hm Hr).
  destruct (parse_one_query r (one_query_pair g n m p r Hg Hm Hr)) as [qs [-> Hf]].
  cbn [bind]. rewrite Hf. unfold reported. rewrite Hr. reflexivity.
Qed.

(** The files of one genome's directory, read in any order. *)
Lemma parse_files_spec (g n : string) (addr : nat) (l : list string) :
  In (g, n) gns ->
  (forall f, In f l -> In f (Dict.keys (fill_dir hmmsearch g n mps []))) ->
  forall gd ad, exists gd' ad',
    foldM (parse_file fs addr) l (gd, ad) = Ok (gd', ad') /\
    (forall m p, In (m, p) mps -> In (report_file n p) l ->
                 (0 < reported hmmsearch m g)%Z ->
                 Dict.get p gd' = Some (reported hmmsearch m g)) /\
    (forall p, Dict.get p gd' = Dict.get p gd
               \/ exists m, In (m, p) mps /\ (0 < reported hmmsearch m g)%Z
                            /\ Dict.get p gd' = Some (reported hmmsearch m g)) /\
    ((gd' = gd /\ ad' = ad) \/ ad' = Dict.set n addr ad).
Proof.
  intros Hg. destruct (genome_facts g n Hg) as [_ [_ [Hnd _]]].
  induction l as [|f l IH]; intros Hl gd ad.
  - exists gd, ad. split; [reflexivity|]. split; [intros m p _ []|].
    split; [now left|now left].
  - assert (Hf : In f (Dict.keys (fill_dir hmmsearch g n mps [])))
      by (apply Hl; now left).
    apply fill_dir_keys in Hf as [[]|[m0 [p0 [r0 [Hm0 [-> Hr0]]]]]].
    cbn [foldM]. rewrite (parse_file_counted g n m0 p0 r0 addr (gd, ad) Hg Hm0 Hr0).
    cbn [bind fst snd].
    assert (Hl' : forall f, In f l -> In f (Dict.keys (fill_dir hmmsearch g n mps [])))
      by (intros f Hf; apply Hl; now right).
    destruct (0 <? reported hmmsearch m0 g)%Z eqn:E0.
    + apply Z.ltb_lt in E0.
      destruct (IH Hl' (Dict.set p0 (reported hmmsearch m0 g) gd) (Dict.set n addr ad))
        as [gd' [ad' [Hrun [Hc [Hfr Had]]]]].
      assert (Hfr' : forall p, Dict.get p gd' = Dict.get p gd
               \/ exists m, In (m, p) mps /\ (0 < reported hmmsearch m g)%Z
                            /\ Dict.get p gd' = Some (reported hmmsearch m g)).
      { intros p. destruct (Hfr p) as [H|H]; [|now right].
        rewrite get_set in H. destruct (String.eqb_spec p0 p) as [E|N].
        - subst p. right. exists m0. auto.
        - now left. }
      exists gd', ad'. split; [exact Hrun|]. split; [|split; [exact Hfr'|]].
      * intros m p Hm [Ef|Hin] Hpos; [|eauto].
        destruct (marker_facts m p Hm) as [_ [Hpd [Hpc _]]].
        destruct (marker_facts m0 p0 Hm0) as [_ [Hpd0 [Hpc0 _]]].
        apply (report_file_inj n p0 p Hnd Hpd0 Hpc0 Hpd Hpc) in Ef. subst p0.
        rewrite (marker_unique m m0 p Hm Hm0).
        destruct (Hfr p) as [H|[m' [Hm' [_ H]]]].
        -- rewrite H. apply get_set_eq.
        -- rewrite H, (marker_unique m' m0 p Hm' Hm0). reflexivity.
      * right. destruct Had as [[_ ->]| ->]; [reflexivity|apply set_set].
    + destruct (IH Hl' gd ad) as [gd' [ad' [Hrun [Hc [Hfr Had]]]]].
      exists gd', ad'. split; [exact Hrun|]. split; [|split; assumption].
      intros m p Hm [Ef|Hin] Hpos; [|eauto]. exfalso.
      destruct (marker_facts m p Hm) as [_ [Hpd [Hpc _]]].
      destruct (marker_facts m0 p0 Hm0) as [_ [Hpd0 [Hpc0 _]]].
      apply (report_file_inj n p0 p Hnd Hpd0 Hpc0 Hpd Hpc) in Ef. subst p0.
      rewrite (marker_unique m m0 p Hm Hm0) in Hpos.
      apply Z.ltb_ge in E0. lia.
Qed.

Lemma fact_deref (st : Parsed) (k p : string) :
  fact (deref st) k p
  = match Dict.get k (all_dicts st) with
    | Some a => Dict.get p (nth a (heap st) [])
    | None => None
    end.
Proof.
  unfold fact. rewrite get_deref.
  destruct (Dict.get k (all_dicts st)); reflexivity.
Qed.

Lemma agrees_ext (seen seen' : string -> Prop) (st : Parsed) :
  (forall k, seen k <-> seen' k) ->
  agrees hmmsearch gns mps seen st -> agrees hmmsearch gns mps seen' st.
Proof.
  intros Hs [A [B [C K]]]. split; [exact A|]. split; [|split; [|exact K]].
  - intros k Hk. apply B. rewrite Hs. exact Hk.
  - intros g n m p Hg Hm Hn. apply (C g n m p Hg Hm). rewrite Hs. exact Hn.
Qed.

(** Walking one more directory keeps the agreement. *)
Lemma parse_dir_agrees (g n : string) (seen : string -> Prop) (st : Parsed) :
  In (g, n) gns -> ~ seen n -> agrees hmmsearch gns mps seen st ->
  exists st', parse_dir fs st (walk_entry scandir fs n) = Ok st'
              /\ agrees hmmsearch gns mps (fun k => seen k \/ k = n) st'.
Proof.
  intros Hg Hns [A [B [C K]]].
  unfold parse_dir, walk_entry. cbn [snd]. rewrite (get_tree g n Hg).
  set (addr := length (heap st)).
  set (l := scandir (Dict.keys (fill_dir hmmsearch g n mps []))).
  assert (Hl : forall f, In f l -> In f (Dict.keys (fill_dir hmmsearch g n mps [])))
    by (intros f; apply Permutation_in, Hscan).
  destruct (parse_files_spec g n addr l Hg Hl [] (all_dicts st))
    as [gd' [ad' [Hrun [Hc [Hfr Had]]]]].
  eexists. split.
  { unfold Dict.t in Hrun |- *. rewrite Hrun. cbn [bind fst snd]. reflexivity. }
  assert (Hpos : forall m p, In (m, p) mps -> (0 < reported hmmsearch m g)%Z ->
                             Dict.get p gd' = Some (reported hmmsearch m g)).
  { intros m p Hm Hv. apply (Hc m p Hm); [|exact Hv].
    unfold reported in Hv. destruct (hmmsearch m g) as [r|] eqn:Er; [|lia].
    pose proof (walked_file g n m p r Hg Hm Er) as Hw.
    unfold walk_entry in Hw. cbn [snd] in Hw. rewrite (get_tree g n Hg) in Hw.
    exact Hw. }
  assert (Hother : forall k, k <> n -> Dict.get k ad' = Dict.get k (all_dicts st)).
  { intros k Hk. destruct Had as [[_ ->]| ->]; [reflexivity|].
    apply get_set_neq. congruence. }
  subst addr. split; [|split; [|split]]; cbn [all_dicts heap].
  - intros k a Hk. rewrite length_app. cbn [length]. unfold Dict.t in *.
    destruct (String.eqb_spec k n) as [->|N].
    + destruct Had as [[_ ->]| ->].
      * apply A in Hk. lia.
      * rewrite get_set_eq in Hk. injection Hk as <-. lia.
    + rewrite (Hother k N) in Hk. apply A in Hk. lia.
  - intros k Hk. assert (N : k <> n) by tauto.
    rewrite (Hother k N). apply B. tauto.
  - intros g' n' m p Hg' Hm Hseen. rewrite fact_deref. cbn [all_dicts heap].
    destruct (String.eqb_spec n' n) as [->|N].
    + rewrite (genome_unique g' g n Hg' Hg).
      destruct (0 <? reported hmmsearch m g)%Z eqn:Ev.
      * apply Z.ltb_lt in Ev. pose proof (Hpos m p Hm Ev) as Hp.
        destruct Had as [[-> _]| ->]; [discriminate|].
        rewrite get_set_eq, nth_middle. exact Hp.
      * apply Z.ltb_ge in Ev.
        assert (Hn : Dict.get p gd' = None).
        { destruct (Hfr p) as [H|[m' [Hm' [Hv' _]]]]; [exact H|].
          rewrite (marker_unique m' m p Hm' Hm) in Hv'. lia. }
        destruct Had as [[_ ->]| ->].
        -- rewrite (B n Hns). reflexivity.
        -- rewrite get_set_eq, nth_middle. exact Hn.
    + assert (Hs : seen n') by tauto.
      rewrite (Hother n' N), <- (C g' n' m p Hg' Hm Hs), fact_deref.
      destruct (Dict.get n' (all_dicts st)) as [a|] eqn:Ea; [|reflexivity].
      rewrite app_nth1 by (eapply A, Ea). reflexivity.
  - intros n' p v Hf. rewrite fact_deref in Hf. cbn [all_dicts heap] in Hf.
    destruct (String.eqb_spec n' n) as [->|N].
    + destruct Had as [[_ ->]| ->].
      * rewrite (B n Hns) in Hf. discriminate.
      * rewrite get_set_eq, nth_middle in Hf.
        destruct (Hfr p) as [H|[m [Hm _]]]; [|eauto].
        rewrite H in Hf. discriminate.
    + rewrite (Hother n' N) in Hf. apply (K n' p v). rewrite fact_deref.
      destruct (Dict.get n' (all_dicts st)) as [a|] eqn:Ea; [|discriminate].
      rewrite app_nth1 in Hf by (eapply A, Ea). exact Hf.
Qed.

Lemma walk_agrees (D : list string) :
  NoDup D -> (forall n, In n D -> In n names) ->
  forall (seen : string -> Prop) (st : Parsed),
    agrees hmmsearch gns mps seen st -> (forall n, In n D -> ~ seen n) ->
    exists st', foldM (parse_dir fs) (map (walk_entry scandir fs) D) st = Ok st'
                /\ agrees hmmsearch gns mps (fun k => seen k \/ In k D) st'.
Proof.
  induction D as [|n D IH]; intros ND Hsub seen st Hag Hfresh.
  - exists st. split; [reflexivity|].
    apply (agrees_ext seen); [|exact Hag]. intros k. simpl. tauto.
  - inversion ND as [|? ? Hn ND']; subst.
    assert (Hg : exists g, In (g, n) gns).
    { assert (H : In n names) by (apply Hsub; now left).
      rewrite <- (mapM_snd_combine _ _ _ Hnames) in H.
      apply in_map_iff in H as [[g n'] [E H]]. cbn in E. subst n'. eauto. }
    destruct Hg as [g Hg].
    destruct (parse_dir_agrees g n seen st Hg (Hfresh n (or_introl eq_refl)) Hag)
      as [st1 [H1 Hag1]].
    destruct (IH ND' (fun k Hk => Hsub k (or_intror Hk)) _ st1 Hag1)
      as [st' [Hrun Hag']].
    + intros k Hk [Hs| ->]; [|contradiction].
      apply (Hfresh k); [now right|exact Hs].
    + exists st'. split.
      * cbn [map foldM]. rewrite H1. exact Hrun.
      * apply (agrees_ext (fun k => (seen k \/ k = n) \/ In k D)); [|exact Hag'].
        intros k. simpl. split; intros H; intuition (subst; auto).
Qed.

(** The aggregated facts are the hits the search reported: a pair has a
    fact exactly when its report lists hits, and there is no other fact. *)
Lemma aggregate_spec :
  exists data,
    aggregate hmmsearch scandir genomes markers = Ok data /\
    (forall g n m p, In (g, n) gns -> In (m, p) mps ->
       fact data n p
       = if (0 <? reported hmmsearch m g)%Z
         then Some (reported hmmsearch m g) else None) /\
    (forall n p v, fact data n p = Some v ->
       (exists g, In (g, n) gns) /\ exists m, In (m, p) mps).
Proof.
  unfold aggregate. rewrite run_hmms_tree. cbn [bind].
  unfold parse_results, os_walk. cbn [foldM].
  change (parse_dir fs (mkParsed [] []) ("out/", []))
    with (Ok (mkParsed [] [[]]) : result Parsed).
  cbn [bind].
  destruct (walk_agrees (scandir (Dict.keys fs))) with
    (seen := fun _ : string => False) (st := mkParsed [] [[]])
    as [st' [Hrun Hag]].
  - apply (Permutation_NoDup (Permutation_sym (Hscan _))).
    rewrite keys_tree. exact Hdn.
  - intros n Hn. rewrite <- keys_tree. apply (Permutation_in _ (Hscan _) Hn).
  - split; [|split; [|split]].
    + intros k a H. discriminate.
    + reflexivity.
    + intros g n m p _ _ [].
    + intros n p v H. discriminate.
  - tauto.
  - rewrite Hrun. cbn [bind]. exists (deref st'). split; [reflexivity|].
    destruct Hag as [_ [B [C K]]]. split.
    + intros g n m p Hg Hm. apply (C g n m p Hg Hm).
      right. apply (Permutation_in _ (Permutation_sym (Hscan _))).
      rewrite keys_tree. apply (genome_facts g n Hg).
    + intros n p v Hf. split; [|apply (K n p v Hf)].
      destruct (in_dec string_dec n (scandir (Dict.keys fs))) as [Hin|Hout].
      * apply (Permutation_in _ (Hscan _)) in Hin. rewrite keys_tree in Hin.
        rewrite <- (mapM_snd_combine _ _ _ Hnames) in Hin.
        apply in_map_iff in Hin as [[g n'] [E Hin]]. cbn in E. subst n'. eauto.
      * rewrite fact_deref, B in Hf by tauto. discriminate.
Qed.

End WellFormedRun.

(** ** The claims about whole runs *)

Lemma well_formed_inv (genomes markers : list string) :
  well_formed genomes markers = true ->
  exists names prots,
    mapM genome_name genomes = Ok names /\
    mapM marker_name markers = Ok prots /\
    forallb clean_genome_name names = true /\ NoDup names /\
    forallb clean_marker_name prots = true /\ NoDup prots /\
    prots = map marker_col markers.
Proof.
  unfold well_formed.
  destruct (mapM genome_name genomes) as [names|]; [|discriminate].
  destruct (mapM marker_name markers) as [prots|]; [|discriminate].
  intros H. repeat (apply andb_true_iff in H as [H ?]).
  exists names, prots. repeat split; try assumption.
  - now apply distinct_nodup.
  - now apply distinct_nodup.
  - now apply labels_eqb_eq.
Qed.

Lemma in_all_cols (markers observed : list string) (c : string) :
  In c (map marker_col markers) -> In c (all_cols markers observed).
Proof.
  intros H. unfold all_cols, absent_cols. apply in_app_iff.
  destruct (label_in c observed) eqn:E.
  - right. apply label_in_iff, E.
  - left. apply filter_In. split; [exact H|]. rewrite E. reflexivity.
Qed.

Lemma main_raise (hmmsearch : string -> string -> option Report)
  (scandir : list string -> list string) (genomes markers : list string)
  (OUTFILE : string) (w : World) (e : exn) :
  aggregate hmmsearch scandir genomes markers = Raise e ->
  exists e', main hmmsearch scandir genomes markers OUTFILE w = Raise e'.
Proof.
  unfold aggregate, main. intros H.
  destruct (out_dir w); [eauto|]. destruct (results_dir w); [eauto|].
  destruct (run_hmms hmmsearch genomes markers) as [fs|e1]; cbn [bind] in *; [|eauto].
  destruct (parse_results scandir fs) as [st|e2]; cbn [bind] in *; [discriminate|eauto].
Qed.

(** What a completed run leaves in the output file. *)
Lemma main_writes (hmmsearch : string -> string -> option Report)
  (scandir : list string -> list string) (genomes markers : list string)
  (OUTFILE : string) (w w' : World) :
  main hmmsearch scandir genomes markers OUTFILE w = Ok w' ->
  exists df, result_matrix hmmsearch scandir genomes markers = Ok df
             /\ Dict.get OUTFILE (text_files w') = Some (csv_text df).
Proof.
  unfold main, result_matrix, aggregate. intros H.
  destruct (out_dir w); [discriminate|]. destruct (results_dir w); [discriminate|].
  destruct (run_hmms hmmsearch genomes markers) as [fs|]; cbn [bind] in *; [|discriminate].
  destruct (parse_results scandir fs) as [st|]; cbn [bind] in *; [|discriminate].
  injection H as <-. eexists. split; [reflexivity|].
  unfold write_matrix, to_csv. cbn [text_files]. apply get_set_eq.
Qed.

(** A run over well-formed identifiers and one-block reports completes;
    its facts are the positive counts the search reported, and the cells of
    the rows it has are the reported counts. *)
Lemma well_formed_run
  (hmmsearch : string -> string -> option Report)
  (scandir : list string -> list string) (genomes markers : list string) :
  well_formed genomes markers = true ->
  reports_one_query hmmsearch genomes markers = true ->
  (forall l, Permutation (scandir l) l) ->
  exists data,
    aggregate hmmsearch scandir genomes markers = Ok data /\
    (forall g m name prot,
        In g genomes -> In m markers ->
        genome_name g = Ok name -> marker_name m = Ok prot ->
        fact data name prot
        = if (0 <? reported hmmsearch m g)%Z
          then Some (reported hmmsearch m g) else None) /\
    (forall g m name,
        In g genomes -> In m markers -> genome_name g = Ok name ->
        (exists m', In m' markers /\ (0 < reported hmmsearch m' g)%Z) ->
        loc (assemble data markers) name (marker_col m)
        = Some (Some (reported hmmsearch m g))).
Proof.
  intros Hwf Hone Hscan.
  destruct (well_formed_inv _ _ Hwf)
    as [names [prots [Hn [Hp [Hcn [Hdn [Hcp [Hdp Hcol]]]]]]]].
  destruct (aggregate_spec hmmsearch scandir genomes markers names prots
              Hn Hp Hcn Hdn Hcp Hdp Hscan Hone) as [data [Hagg [Hfact _]]].
  assert (Hpair : forall g name, In g genomes -> genome_name g = Ok name ->
                                 In (g, name) (combine genomes names)).
  { intros g name Hg Hname. destruct (mapM_in _ _ _ Hn _ Hg) as [n Hgn].
    pose proof (mapM_in_combine _ _ _ Hn _ _ Hgn). congruence. }
  assert (Hmark : forall m prot, In m markers -> marker_name m = Ok prot ->
                                 In (m, prot) (combine markers prots)).
  { intros m prot Hm Hprot. destruct (mapM_in _ _ _ Hp _ Hm) as [p Hmp].
    pose proof (mapM_in_combine _ _ _ Hp _ _ Hmp). congruence. }
  exists data. split; [exact Hagg|]. split.
  { intros g m name prot Hg Hm Hname Hprot.
    apply Hfact; [apply Hpair|apply Hmark]; assumption. }
  intros g m name Hg Hm Hname [m' [Hm' Hpos]].
  pose proof (Hpair g name Hg Hname) as Hgn.
  destruct (mapM_in _ _ _ Hp _ Hm) as [p Hmp].
  destruct (mapM_in _ _ _ Hp _ Hm') as [p' Hmp'].
  assert (Ep : p = marker_col m).
  { rewrite Hcol in Hmp. apply (in_combine_fun _ _ _ _ Hmp). }
  pose proof (Hfact g name m' p' Hgn Hmp') as Hf'.
  apply Z.ltb_lt in Hpos. rewrite Hpos in Hf'.
  rewrite <- Ep.
  rewrite (loc_assemble data markers name p p' _
             (aggregate_keys_nodup _ _ _ _ _ Hagg)
             (aggregate_rows_nodup _ _ _ _ _ Hagg) Hf').
  - rewrite (Hfact g name m p Hgn Hmp).
    destruct (0 <? reported hmmsearch m g)%Z eqn:E; [reflexivity|].
    apply Z.ltb_ge in E. pose proof (reported_nonneg hmmsearch m g).
    cbn [option_default]. repeat f_equal. lia.
  - apply in_all_cols. rewrite Ep. apply in_map, Hm.
Qed.

Lemma index_in_iff (data : Dict.t (Dict.t Z)) (r : string) :
  NoDup (Dict.keys data) ->
  Forall (fun row => NoDup (Dict.keys (snd row))) data ->
  In r (index (from_dict data)) <-> exists c v, fact data r c = Some v.
Proof.
  intros ND Hrows. rewrite from_dict_unfold. cbn [index].
  rewrite union_indexes_in. split.
  - intros [[c d] [Hcd Hr]]. cbn [snd] in Hr.
    apply in_keys_get in Hr as [v Hv]. exists c, v.
    rewrite <- (nested_get_fact data c r ND Hrows). unfold nested_get.
    rewrite (in_get _ _ _ (nodup_keys_nested data) Hcd). exact Hv.
  - intros [c [v Hf]].
    rewrite <- (nested_get_fact data c r ND Hrows) in Hf. unfold nested_get in Hf.
    destruct (Dict.get c (from_nested_dict data)) as [d|] eqn:E; [|discriminate].
    exists (c, d). split; [apply get_some_in, E|].
    cbn [snd]. eapply get_in_keys, Hf.
Qed.

Lemma observed_in_iff (data : Dict.t (Dict.t Z)) (c : string) :
  NoDup (Dict.keys data) ->
  In c (observed_markers data) <-> exists r v, fact data r c = Some v.
Proof.
  intros ND. unfold observed_markers. rewrite first_seen_in, in_concat. split.
  - intros [l [Hl Hc]]. apply in_map_iff in Hl as [[r gd] [<- Hrow]].
    cbn [snd] in Hc. apply in_keys_get in Hc as [v Hv].
    exists r, v. unfold fact. rewrite (in_get _ _ _ ND Hrow). exact Hv.
  - intros [r [v Hf]]. unfold fact in Hf.
    destruct (Dict.get r data) as [gd|] eqn:E; [|discriminate].
    exists (Dict.keys gd). split.
    + apply in_map_iff. exists (r, gd). split; [reflexivity|apply get_some_in, E].
    + eapply get_in_keys, Hf.
Qed.

Lemma all_cols_length (markers observed : list string) :
  NoDup (map marker_col markers) -> NoDup observed ->
  incl observed (map marker_col markers) ->
  length (all_cols markers observed) = length markers.
Proof.
  intros NDl NDo Hincl. unfold all_cols, absent_cols.
  rewrite length_app, <- (length_map marker_col markers).
  rewrite <- (filter_length (fun c => label_in c observed) (map marker_col markers)).
  rewrite Nat.add_comm. f_equal. apply Permutation_length.
  apply NoDup_Permutation; [exact NDo|apply NoDup_filter, NDl|].
  intros c. rewrite filter_In, label_in_iff. split; [|tauto].
  intros H. split; [apply Hincl, H|exact H].
Qed.

(** The shape of the table of a run over well-formed identifiers and
    one-block reports: one column per marker, and a row for a genome exactly
    when the search reported a hit for it. *)
Lemma table_shape
  (hmmsearch : string -> string -> option Report)
  (scandir : list string -> list string) (genomes markers : list string) :
  well_formed genomes markers = true ->
  reports_one_query hmmsearch genomes markers = true ->
  (forall l, Permutation (scandir l) l) ->
  exists df,
    result_matrix hmmsearch scandir genomes markers = Ok df /\
    length (columns df) = length markers /\
    NoDup (index df) /\
    forall g name,
      In g genomes -> genome_name g = Ok name ->
      (In name (index df)
       <-> exists m, In m markers /\ (0 < reported hmmsearch m g)%Z).
Proof.
  intros Hwf Hone Hscan.
  destruct (well_formed_inv _ _ Hwf)
    as [names [prots [Hn [Hp [Hcn [Hdn [Hcp [Hdp Hcol]]]]]]]].
  destruct (aggregate_spec hmmsearch scandir genomes markers names prots
              Hn Hp Hcn Hdn Hcp Hdp Hscan Hone) as [data [Hagg [Hfact Hkeys]]].
  pose proof (aggregate_keys_nodup _ _ _ _ _ Hagg) as ND.
  pose proof (aggregate_rows_nodup _ _ _ _ _ Hagg) as Hrows.
  exists (assemble data markers). split.
  { unfold result_matrix. rewrite Hagg. reflexivity. }
  split; [|split].
  - rewrite assemble_columns. apply all_cols_length.
    + rewrite <- Hcol. exact Hdp.
    + apply first_seen_nodup.
    + intros c Hc. apply (observed_in_iff data c ND) in Hc as [r [v Hf]].
      destruct (Hkeys r c v Hf) as [_ [m Hm]].
      rewrite <- Hcol. apply (in_combine_r _ _ _ _ Hm).
  - rewrite assemble_index, from_dict_unfold. cbn [index].
    apply first_seen_nodup.
  - intros g name Hg Hname.
    assert (Hgn : In (g, name) (combine genomes names)).
    { destruct (mapM_in _ _ _ Hn _ Hg) as [n Hgn].
      pose proof (mapM_in_combine _ _ _ Hn _ _ Hgn). congruence. }
    rewrite assemble_index, (index_in_iff data name ND Hrows). split.
    + intros [c [v Hf]]. destruct (Hkeys name c v Hf) as [_ [m Hm]].
      exists m. split; [apply (in_combine_l _ _ _ _ Hm)|].
      rewrite (Hfact g name m c Hgn Hm) in Hf.
      destruct (0 <? reported hmmsearch m g)%Z eqn:E; [|discriminate].
      apply Z.ltb_lt, E.
    + intros [m [Hm Hpos]]. destruct (mapM_in _ _ _ Hp _ Hm) as [p Hmp].
      exists p, (reported hmmsearch m g).
      rewrite (Hfact g name m p Hgn Hmp).
      apply Z.ltb_lt in Hpos. rewrite Hpos. reflexivity.
Qed.

(** C3, amended.  When the identifiers are well formed and every report
    holds at most one query block, the run completes, and for every genome
    with at least one hit and every marker the cell of the genome's row in
    the marker's column is the number of hits the search reported for the
    pair -- 0 when it reported none. *)
Theorem C3_cell_is_reported_count
  (hmmsearch : string -> string -> option Report)
  (scandir : list string -> list string) (genomes markers : list string) :
  well_formed genomes markers = true ->
  reports_one_query hmmsearch genomes markers = true ->
  (forall l, Permutation (scandir l) l) ->
  exists df,
    result_matrix hmmsearch scandir genomes markers = Ok df /\
    forall g m name,
      In g genomes -> In m markers -> genome_name g = Ok name ->
      (exists m', In m' markers /\ (0 < reported hmmsearch m' g)%Z) ->
      loc df name (marker_col m) = Some (Some (reported hmmsearch m g)).
Proof.
  intros Hwf Hone Hscan.
  destruct (well_formed_run hmmsearch scandir genomes markers Hwf Hone Hscan)
    as [data [Hagg [_ Hcell]]].
  exists (assemble data markers). split; [|exact Hcell].
  unfold result_matrix. rewrite Hagg. reflexivity.
Qed.

Lemma C3_cell_is_reported_count_witness :
  exists df,
    result_matrix scenario newest_first
      ["g/A.faa"; "g/B.faa"] ["m/m1.hmm"; "m/m2.hmm"; "m/m3.hmm"] = Ok df /\
    loc df "A" "m1" = Some (Some 2%Z) /\ loc df "A" "m2" = Some (Some 0%Z) /\
    loc df "B" "m2" = Some (Some 1%Z) /\ loc df "B" "m3" = Some (Some 0%Z).
Proof.
  destruct (C3_cell_is_reported_count scenario newest_first
              ["g/A.faa"; "g/B.faa"] ["m/m1.hmm"; "m/m2.hmm"; "m/m3.hmm"]
              eq_refl eq_refl (fun l => Permutation_sym (Permutation_rev l)))
    as [df [Hdf Hcell]].
  exists df. split; [exact Hdf|].
  assert (HA : exists m', In m' ["m/m1.hmm"; "m/m2.hmm"; "m/m3.hmm"]
                          /\ (0 < reported scenario m' "g/A.faa")%Z).
  { exists "m/m1.hmm". split; [simpl; tauto|reflexivity]. }
  assert (HB : exists m', In m' ["m/m1.hmm"; "m/m2.hmm"; "m/m3.hmm"]
                          /\ (0 < reported scenario m' "g/B.faa")%Z).
  { exists "m/m2.hmm". split; [simpl; tauto|reflexivity]. }
  repeat split.
  - apply (Hcell "g/A.faa" "m/m1.hmm" "A"); [simpl; tauto|simpl; tauto|reflexivity|exact HA].
  - apply (Hcell "g/A.faa" "m/m2.hmm" "A"); [simpl; tauto|simpl; tauto|reflexivity|exact HA].
  - apply (Hcell "g/B.faa" "m/m2.hmm" "B"); [simpl; tauto|simpl; tauto|reflexivity|exact HB].
  - apply (Hcell "g/B.faa" "m/m3.hmm" "B"); [simpl; tauto|simpl; tauto|reflexivity|exact HB].
Defined.

(** C3 as stated fails: with two query blocks in one report the cell holds
    the hits of the last block (1), not the 3 hits reported for the pair;
    with a dash in a genome name the run stops before any table exists; and
    a genome without any hit has no row to look the cell up in. *)
Lemma C3_counterexample :
  (reported two_blocks "m/m1.hmm" "g/A.faa" = 3%Z /\
   exists df, result_matrix two_blocks creation_order ["g/A.faa"] ["m/m1.hmm"] = Ok df
              /\ loc df "A" "m1" = Some (Some 1%Z)) /\
  result_matrix scenario creation_order ["g/A-1.faa"] ["m/m1.hmm"]
  = Raise FileNotFoundError /\
  (exists df, result_matrix scenario creation_order
                ["g/A.faa"; "g/B.faa"] ["m/m1.hmm"] = Ok df
              /\ reported scenario "m/m1.hmm" "g/B.faa" = 0%Z
              /\ loc df "B" "m1" = None).
Proof.
  split; [split; [reflexivity|]|split; [reflexivity|]].
  - eexists. split; reflexivity.
  - eexists. repeat split; reflexivity.
Qed.

(** C4, amended.  The script catches no exception: when the identifiers are
    well formed and the report of one searched pair does not parse, the
    aggregation raises, no table is assembled and the script ends without
    writing the output file. *)
Theorem C4_malformed_report_aborts_run
  (hmmsearch : string -> string -> option Report)
  (scandir : list string -> list string) (genomes markers : list string)
  (g m : string) :
  well_formed genomes markers = true ->
  (forall l, Permutation (scandir l) l) ->
  In g genomes -> In m markers -> hmmsearch m g = Some Malformed ->
  (exists e, result_matrix hmmsearch scandir genomes markers = Raise e) /\
  (forall OUTFILE w,
      exists e, main hmmsearch scandir genomes markers OUTFILE w = Raise e).
Proof.
  intros Hwf Hscan Hg Hm Hr.
  destruct (well_formed_inv _ _ Hwf)
    as [names [prots [Hn [Hp [Hcn [Hdn [Hcp [Hdp _]]]]]]]].
  destruct (malformed_aborts hmmsearch scandir genomes markers names prots
              Hn Hp Hcn Hdn Hcp Hdp Hscan g m Hg Hm Hr) as [e He].
  split.
  - exists e. unfold result_matrix. rewrite He. reflexivity.
  - intros OUTFILE w. eapply main_raise, He.
Qed.

Lemma C4_malformed_report_aborts_run_witness :
  (exists e, result_matrix one_malformed creation_order
               ["g/A.faa"; "g/B.faa"] ["m/m1.hmm"] = Raise e) /\
  (forall OUTFILE w,
      exists e, main one_malformed creation_order
                  ["g/A.faa"; "g/B.faa"] ["m/m1.hmm"] OUTFILE w = Raise e).
Proof.
  apply (C4_malformed_report_aborts_run one_malformed creation_order
           ["g/A.faa"; "g/B.faa"] ["m/m1.hmm"] "g/B.faa" "m/m1.hmm").
  - reflexivity.
  - intros l. apply Permutation_refl.
  - simpl; tauto.
  - simpl; tauto.
  - reflexivity.
Defined.

(** C4 as stated fails: the report of B does not parse, the report of A
    lists two hits, and the run ends with the parse error: no table is
    produced and nothing is written, so the result of A x m1 appears
    nowhere. *)
Lemma C4_counterexample :
  one_malformed "m/m1.hmm" "g/A.faa" = Some hits2 /\
  one_malformed "m/m1.hmm" "g/B.faa" = Some Malformed /\
  result_matrix one_malformed creation_order ["g/A.faa"; "g/B.faa"] ["m/m1.hmm"]
  = Raise ParseError /\
  main one_malformed creation_order ["g/A.faa"; "g/B.faa"] ["m/m1.hmm"]
       "custom-metabolic-markers-results.txt" empty_world
  = Raise ParseError.
Proof. repeat split; reflexivity. Qed.

(** C5, amended.  When the identifiers are well formed and every report
    holds at most one query block, a searched pair whose report lists no hit
    leaves no fact: the pair is absent from the aggregated facts.  Its zero
    is written only when the table is assembled, in the row of a genome
    that has a hit for some other marker. *)
Theorem C5_zero_hits_leave_no_fact
  (hmmsearch : string -> string -> option Report)
  (scandir : list string -> list string) (genomes markers : list string) :
  well_formed genomes markers = true ->
  reports_one_query hmmsearch genomes markers = true ->
  (forall l, Permutation (scandir l) l) ->
  exists data,
    aggregate hmmsearch scandir genomes markers = Ok data /\
    forall g m name prot,
      In g genomes -> In m markers ->
      genome_name g = Ok name -> marker_name m = Ok prot ->
      hmmsearch m g = Some (Tbl []) ->
      fact data name prot = None /\
      ((exists m', In m' markers /\ (0 < reported hmmsearch m' g)%Z) ->
       loc (assemble data markers) name (marker_col m) = Some (Some 0%Z)).
Proof.
  intros Hwf Hone Hscan.
  destruct (well_formed_run hmmsearch scandir genomes markers Hwf Hone Hscan)
    as [data [Hagg [Hfact Hcell]]].
  exists data. split; [exact Hagg|].
  intros g m name prot Hg Hm Hname Hprot Hr.
  assert (Hz : reported hmmsearch m g = 0%Z) by (unfold reported; rewrite Hr; reflexivity).
  split.
  - rewrite (Hfact g m name prot Hg Hm Hname Hprot), Hz. reflexivity.
  - intros Hrow. rewrite (Hcell g m name Hg Hm Hname Hrow), Hz. reflexivity.
Qed.

Lemma C5_zero_hits_leave_no_fact_witness :
  exists data,
    aggregate scenario creation_order
      ["g/A.faa"; "g/B.faa"] ["m/m1.hmm"; "m/m2.hmm"] = Ok data /\
    fact data "A" "m2" = None /\
    loc (assemble data ["m/m1.hmm"; "m/m2.hmm"]) "A" "m2" = Some (Some 0%Z).
Proof.
  destruct (C5_zero_hits_leave_no_fact scenario creation_order
              ["g/A.faa"; "g/B.faa"] ["m/m1.hmm"; "m/m2.hmm"]
              eq_refl eq_refl (fun l => Permutation_refl l))
    as [data [Hagg H]].
  exists data. split; [exact Hagg|].
  destruct (H "g/A.faa" "m/m2.hmm" "A" "m2") as [Hf Hc];
    [simpl; tauto|simpl; tauto|reflexivity|reflexivity|reflexivity|].
  split; [exact Hf|]. apply Hc.
  exists "m/m1.hmm". split; [simpl; tauto|reflexivity].
Defined.

(** C5 as stated fails: the report of A x m2 lists no hit, and the facts
    aggregated for A hold m1 only; there is no fact with count 0 for
    (A, m2). *)
Lemma C5_counterexample :
  scenario "m/m2.hmm" "g/A.faa" = Some (Tbl []) /\
  aggregate scenario creation_order ["g/A.faa"] ["m/m1.hmm"; "m/m2.hmm"]
  = Ok [("A", [("m1", 2%Z)])] /\
  fact [("A", [("m1", 2%Z)])] "A" "m2" = None /\
  fact [("A", [("m1", 2%Z)])] "A" "m2" <> Some 0%Z.
Proof. repeat split; try reflexivity. discriminate. Qed.

(** C1.  The table misses the row of a genome without any hit: of the two
    well-formed genomes searched here, B has no hit for the one marker, and
    the table that reaches [to_csv] has the single row A.  (The columns are
    complete: the reformatting loop adds the markers found in no genome;
    nothing adds the genomes found with no marker.) *)
Theorem C1_genome_without_hits_has_no_row :
  well_formed ["g/A.faa"; "g/B.faa"] ["m/m1.hmm"] = true /\
  reports_one_query scenario ["g/A.faa"; "g/B.faa"] ["m/m1.hmm"] = true /\
  scenario "m/m1.hmm" "g/B.faa" = Some (Tbl []) /\
  result_matrix scenario creation_order ["g/A.faa"; "g/B.faa"] ["m/m1.hmm"]
  = Ok (mkFrame ["A"] ["m1"] [Int64 [2%Z]]) /\
  length (index (mkFrame ["A"] ["m1"] [Int64 [2%Z]])) <> length ["g/A.faa"; "g/B.faa"].
Proof. repeat split; try reflexivity. discriminate. Qed.

(** C8.  Running the assembler a second time on the same facts and the same
    markers rewrites the output file with the very same text: the second
    run leaves the world as the first one left it. *)
Theorem C8_assembler_idempotent (data : Dict.t (Dict.t Z))
  (markers : list string) (OUTFILE : string) (w : World) :
  write_matrix data markers OUTFILE (write_matrix data markers OUTFILE w)
  = write_matrix data markers OUTFILE w /\
  Dict.get OUTFILE
    (text_files (write_matrix data markers OUTFILE
                   (write_matrix data markers OUTFILE w)))
  = Some (csv_text (assemble data markers)) /\
  Dict.get OUTFILE (text_files (write_matrix data markers OUTFILE w))
  = Some (csv_text (assemble data markers)).
Proof.
  unfold write_matrix, to_csv. cbn [out_dir results_dir text_files].
  rewrite set_set. repeat split; apply get_set_eq.
Qed.

(** C9.  With an empty marker enumeration the table has no column, and no
    row either: the two genomes searched here leave no row.  With an empty
    genome enumeration the table has no row and one column per marker. *)
Theorem C9_empty_enumerations :
  result_matrix scenario creation_order ["g/A.faa"; "g/B.faa"] []
  = Ok (mkFrame [] [] []) /\
  length (index (mkFrame [] [] [])) <> length ["g/A.faa"; "g/B.faa"] /\
  result_matrix scenario creation_order [] ["m/m1.hmm"; "m/m2.hmm"]
  = Ok (mkFrame [] ["m1"; "m2"] [Float64 []; Float64 []]).
Proof. repeat split; try reflexivity. discriminate. Qed.

Lemma open_written (name file : string) (r : Report) (fs : FS) :
  Dict.mem name fs = true ->
  open_report (write_report name file r fs) name file = Ok r.
Proof.
  unfold Dict.mem, write_report, open_report.
  destruct (Dict.get name fs) as [d|]; [|discriminate]. intros _.
  rewrite get_set_eq, get_set_eq. reflexivity.
Qed.

(** C10, amended.  When neither the genome name nor the marker name holds a
    dash and the marker name does not contain [".out"], the parser reads
    back from the report's file name the very pair that wrote it, rebuilds
    the path the report was written to, and opens the report; and for a
    genome name with a dash the rebuilt path is not the written one. *)
Theorem C10_report_name_read_back (name prot : string) (r : Report) (fs : FS) :
  Str.occurs Str.dash name = false ->
  Str.occurs Str.dash prot = false ->
  Str.contains ".out" prot = false ->
  Dict.mem name fs = true ->
  file_genome (report_file name prot) = Ok name /\
  file_prot (report_file name prot) = Ok prot /\
  result_path name (report_file name prot) = outname name prot /\
  open_report (write_report name (report_file name prot) r fs)
              name (report_file name prot) = Ok r /\
  exists name' prot' genome,
    Str.occurs Str.dash name' = true /\
    file_genome (report_file name' prot') = Ok genome /\
    result_path genome (report_file name' prot') <> outname name' prot'.
Proof.
  intros Hn Hp Hc Hfs. split; [apply file_genome_report, Hn|].
  split; [apply file_prot_report; assumption|].
  split; [reflexivity|]. split; [apply open_written, Hfs|].
  exists "a-b", "p", "a". repeat split; try reflexivity. discriminate.
Qed.

Lemma C10_report_name_read_back_witness :
  file_genome (report_file "Ecoli" "nifH") = Ok "Ecoli" /\
  file_prot (report_file "Ecoli" "nifH") = Ok "nifH" /\
  result_path "Ecoli" (report_file "Ecoli" "nifH") = outname "Ecoli" "nifH" /\
  open_report (write_report "Ecoli" (report_file "Ecoli" "nifH") hits1 [("Ecoli", [])])
              "Ecoli" (report_file "Ecoli" "nifH") = Ok hits1 /\
  exists name' prot' genome,
    Str.occurs Str.dash name' = true /\
    file_genome (report_file name' prot') = Ok genome /\
    result_path genome (report_file name' prot') <> outname name' prot'.
Proof.
  apply (C10_report_name_read_back "Ecoli" "nifH" hits1 [("Ecoli", [])]);
    reflexivity.
Defined.

(** C10 as stated fails: the marker file [a.out.hmm] gives the marker name
    [a.out], which holds no dash, as does the genome name [g]; yet the
    parser reads the marker name [a] back from the report's file name. *)
Lemma C10_counterexample :
  marker_name "m/a.out.hmm" = Ok "a.out" /\
  Str.occurs Str.dash "g" = false /\ Str.occurs Str.dash "a.out" = false /\
  report_file "g" "a.out" = "g-a.out.out" /\
  file_prot (report_file "g" "a.out") = Ok "a" /\
  file_prot (report_file "g" "a.out") <> Ok "a.out".
Proof. repeat split; try reflexivity. discriminate. Qed.


(** * Further properties of the script *)

(** ** The identifiers derived from file names *)

Section Identifiers.

Import Str.

Lemma linebreak_is_space (c : ascii) : islinebreak c = true -> isspace c = true.
Proof.
  destruct c as [[] [] [] [] [] [] [] []]; vm_compute; intros H;
    first [reflexivity | discriminate H].
Qed.

Lemma lstrip_blank (s : string) :
  lstrip s = EmptyString <-> forall c, occurs c s = true -> isspace c = true.
Proof.
  induction s as [|a s IH]; cbn [lstrip occurs].
  - split; [discriminate|reflexivity].
  - destruct (isspace a) eqn:E.
    + rewrite IH. split.
      * intros H c Hc. apply orb_true_iff in Hc as [Hc|Hc]; [|auto].
        apply Ascii.eqb_eq in Hc. subst c. exact E.
      * intros H c Hc. apply H. rewrite Hc. apply orb_true_r.
    + split; [discriminate|]. intros H. specialize (H a).
      rewrite Ascii.eqb_refl, E in H. discriminate (H eq_refl).
Qed.

Lemma lstrip_head (s : string) (c : ascii) (r : string) :
  lstrip s = String c r -> isspace c = false.
Proof.
  induction s as [|a s IH]; cbn [lstrip]; [discriminate|].
  destruct (isspace a) eqn:E; [exact IH|].
  intros H. injection H as <- _. exact E.
Qed.

Lemma rstrip_head (c : ascii) (r : string) :
  isspace c = false -> exists r', rstrip (String c r) = String c r'.
Proof.
  intros E. cbn [rstrip]. destruct (rstrip r) as [|b r'].
  - rewrite E. eauto.
  - eauto.
Qed.

Lemma strip_blank (s : string) :
  strip s = EmptyString <-> forall c, occurs c s = true -> isspace c = true.
Proof.
  rewrite <- lstrip_blank. unfold strip. split.
  - intros H. destruct (lstrip s) as [|c r] eqn:E; [reflexivity|].
    destruct (rstrip_head c r (lstrip_head s c r E)) as [r' Hr].
    rewrite Hr in H. discriminate.
  - intros ->. reflexivity.
Qed.

Lemma strip_head (s : string) (c : ascii) (r : string) :
  strip s = String c r -> isspace c = false.
Proof.
  unfold strip. destruct (lstrip s) as [|a t] eqn:E; [discriminate|].
  pose proof (lstrip_head s a t E) as Ha.
  destruct (rstrip_head a t Ha) as [r' Hr]. rewrite Hr.
  intros H. injection H as <- _. exact Ha.
Qed.

Lemma splitlines_head (c : ascii) (r : string) :
  islinebreak c = false ->
  exists l ls, splitlines (String c r) = String c l :: ls.
Proof.
  intros E. cbn [splitlines]. rewrite E.
  destruct (splitlines r) as [|l ls]; eauto.
Qed.

Lemma splitlines_no_break (n : nat) (s : string) :
  String.length s <= n ->
  Forall (fun l => forall c, occurs c l = true -> islinebreak c = false)
         (splitlines s).
Proof.
  revert s. induction n as [|n IH]; intros s L.
  - destruct s; [constructor|simpl in L; lia].
  - destruct s as [|a s]; [constructor|]. simpl in L. cbn [splitlines].
    destruct (islinebreak a) eqn:E.
    + constructor; [intros c Hc; discriminate Hc|].
      destruct s as [|b s]; [constructor|].
      destruct (_ && _); apply IH; simpl in L |- *; lia.
    + assert (Hl : Forall (fun l => forall c, occurs c l = true -> islinebreak c = false)
                          (splitlines s)) by (apply IH; lia).
      assert (Hc : forall l, (forall c, occurs c l = true -> islinebreak c = false) ->
                             forall c, occurs c (String a l) = true -> islinebreak c = false).
      { intros l Hlc c Hc. cbn [occurs] in Hc.
        apply orb_true_iff in Hc as [Hc|Hc]; [|auto].
        apply Ascii.eqb_eq in Hc. subst c. exact E. }
      destruct (splitlines s) as [|l ls].
      * constructor; [|constructor]. apply Hc. intros c H. discriminate H.
      * inversion Hl; subst. constructor; [apply Hc|]; assumption.
Qed.

(** The first line of a stripped stem: an [IndexError] when the stem is
    blank, and otherwise a line that begins with a character that is no
    whitespace and that holds no line break. *)
Lemma first_line_spec (stem : string) :
  match item (splitlines (strip stem)) 0 with
  | Ok n =>
      (exists c r, n = String c r /\ isspace c = false) /\
      (forall c, occurs c n = true -> islinebreak c = false) /\
      ~ (forall c, occurs c stem = true -> isspace c = true)
  | Raise e =>
      e = IndexError /\ forall c, occurs c stem = true -> isspace c = true
  end.
Proof.
  destruct (strip stem) as [|c r] eqn:E.
  - cbn. split; [reflexivity|]. apply strip_blank, E.
  - pose proof (strip_head stem c r E) as Hc.
    assert (Hb : islinebreak c = false).
    { destruct (islinebreak c) eqn:B; [|reflexivity].
      rewrite (linebreak_is_space c B) in Hc. discriminate. }
    destruct (splitlines_head c r Hb) as [l [ls Hs]].
    pose proof (splitlines_no_break _ (String c r) (Nat.le_refl _)) as Hf.
    rewrite Hs in Hf |- *. cbn. inversion Hf; subst.
    split; [eauto|]. split; [assumption|].
    intros H. apply strip_blank in H. rewrite E in H. discriminate.
Qed.

End Identifiers.

(** X1.  An identifier that the script derives from a genome or marker path
    is never empty, begins with a character that is no whitespace, and
    holds neither a line break nor a slash: it names one entry of a
    directory. *)
Theorem X1_identifier_shape (path n : string) :
  genome_name path = Ok n \/ marker_name path = Ok n ->
  (exists c r, n = String c r /\ Str.isspace c = false) /\
  (forall c, Str.occurs c n = true -> Str.islinebreak c = false) /\
  Str.occurs Str.slash n = false.
Proof.
  intros [H|H].
  - pose proof (first_line_spec (Str.replace ".faa" EmptyString (Str.basename path))) as S.
    unfold genome_name in H. rewrite H in S. destruct S as [S1 [S2 _]].
    split; [exact S1|]. split; [exact S2|].
    eapply genome_name_no_slash. unfold genome_name. exact H.
  - pose proof (first_line_spec (Str.replace ".hmm" EmptyString (Str.basename path))) as S.
    unfold marker_name in H. rewrite H in S. destruct S as [S1 [S2 _]].
    split; [exact S1|]. split; [exact S2|].
    eapply marker_name_no_slash. unfold marker_name. exact H.
Qed.

Lemma X1_identifier_shape_witness :
  genome_name (String.concat (String (ascii_of_nat 10) EmptyString)
                 ["genomes/ Ecoli K12 "; "copy.faa"]) = Ok "Ecoli K12 " /\
  (exists c r, "Ecoli K12 " = String c r /\ Str.isspace c = false) /\
  (forall c, Str.occurs c "Ecoli K12 " = true -> Str.islinebreak c = false) /\
  Str.occurs Str.slash "Ecoli K12 " = false.
Proof.
  split; [reflexivity|].
  apply (X1_identifier_shape
           (String.concat (String (ascii_of_nat 10) EmptyString)
              ["genomes/ Ecoli K12 "; "copy.faa"])).
  left. reflexivity.
Defined.

(** X2.  Deriving an identifier fails exactly when the file stem -- the
    base name without its extension -- is blank, and then with an
    [IndexError]: no other exception leaves the derivation. *)
Theorem X2_blank_stem_raises_IndexError (path : string) :
  (genome_name path = Raise IndexError
   <-> forall c, Str.occurs c (Str.replace ".faa" EmptyString (Str.basename path)) = true
                 -> Str.isspace c = true) /\
  (marker_name path = Raise IndexError
   <-> forall c, Str.occurs c (marker_col path) = true -> Str.isspace c = true) /\
  (forall e, genome_name path = Raise e \/ marker_name path = Raise e ->
             e = IndexError).
Proof.
  pose proof (first_line_spec (Str.replace ".faa" EmptyString (Str.basename path))) as G.
  pose proof (first_line_spec (marker_col path)) as M.
  unfold marker_col in *. unfold genome_name, marker_name.
  destruct (Str.item (Str.splitlines (Str.strip (Str.replace ".faa" EmptyString (Str.basename path)))) 0)
    as [n|e] eqn:Eg;
  destruct (Str.item (Str.splitlines (Str.strip (Str.replace ".hmm" EmptyString (Str.basename path)))) 0)
    as [p|e'] eqn:Em.
  - destruct G as [_ [_ G]], M as [_ [_ M]].
    split; [split; [discriminate|tauto]|]. split; [split; [discriminate|tauto]|].
    intros e [H|H]; discriminate.
  - destruct G as [_ [_ G]], M as [-> M].
    split; [split; [discriminate|tauto]|]. split; [split; [intros _; exact M|reflexivity]|].
    intros e [H|H]; [discriminate|congruence].
  - destruct G as [-> G], M as [_ [_ M]].
    split; [split; [intros _; exact G|reflexivity]|]. split; [split; [discriminate|tauto]|].
    intros e [H|H]; [congruence|discriminate].
  - destruct G as [-> G], M as [-> M].
    split; [split; [intros _; exact G|reflexivity]|]. split; [split; [intros _; exact M|reflexivity]|].
    intros e [H|H]; congruence.
Qed.

Lemma X2_blank_stem_raises_IndexError_witness :
  genome_name "genomes/ .faa" = Raise IndexError /\
  marker_name "markers/nifH.hmm" = Ok "nifH".
Proof.
  destruct (X2_blank_stem_raises_IndexError "genomes/ .faa") as [[_ H] _].
  split; [|reflexivity]. apply H. intros c Hc.
  change (Str.replace ".faa" EmptyString (Str.basename "genomes/ .faa")) with " " in Hc.
  cbn [Str.occurs] in Hc. rewrite orb_false_r in Hc.
  apply Ascii.eqb_eq in Hc. subst c. reflexivity.
Defined.

(** ** The report tree of any search *)

Lemma foldM_inv_in {A S : Type} (P : S -> Prop) (body : S -> A -> result S)
  (l : list A) :
  (forall s a s', In a l -> P s -> body s a = Ok s' -> P s') ->
  forall s s', P s -> foldM body l s = Ok s' -> P s'.
Proof.
  induction l as [|a l IH]; intros Hstep s s' Hs H; simpl in H.
  - injection H as <-. exact Hs.
  - destruct (body s a) as [s1|e] eqn:E; simpl in H; [|discriminate].
    apply (IH (fun s0 b s0' Hb => Hstep s0 b s0' (or_intror Hb)) s1);
      [|exact H].
    apply (Hstep s a s1 (or_introl eq_refl) Hs E).
Qed.

Lemma foldM_raise_inv {A S : Type} (body : S -> A -> result S) (l : list A)
  (s : S) (e : exn) :
  foldM body l s = Raise e -> exists a s0, In a l /\ body s0 a = Raise e.
Proof.
  revert s. induction l as [|a l IH]; intros s H; simpl in H; [discriminate|].
  destruct (body s a) as [s1|e1] eqn:E; simpl in H.
  - destruct (IH s1 H) as [b [s0 [Hb Hr]]]. exists b, s0. split; [now right|exact Hr].
  - injection H as ->. exists a, s. split; [now left|exact E].
Qed.


Section AnySearch.

Variable hmmsearch : string -> string -> option Report.

Lemma write_report_keys (dir file : string) (r : Report) (fs : FS) :
  Dict.keys (write_report dir file r fs) = Dict.keys fs.
Proof.
  unfold write_report. destruct (Dict.get dir fs) as [d|] eqn:E; [|reflexivity].
  rewrite keys_set. unfold Dict.mem. rewrite E. reflexivity.
Qed.

Lemma search_marker_keys (genome name : string) (fs fs' : FS) (m : string) :
  search_marker hmmsearch genome name fs m = Ok fs' ->
  Dict.keys fs' = Dict.keys fs.
Proof.
  unfold search_marker. destruct (marker_name m) as [p|]; [|discriminate].
  cbn [bind]. intros H. injection H as <-.
  destruct (hmmsearch m genome); [apply write_report_keys|reflexivity].
Qed.

Lemma search_markers_names (genome name : string) (ms : list string) :
  forall fs fs', foldM (search_marker hmmsearch genome name) ms fs = Ok fs' ->
                 exists ps, mapM marker_name ms = Ok ps.
Proof.
  induction ms as [|m ms IH]; intros fs fs' H.
  - exists []. reflexivity.
  - cbn [foldM] in H. unfold search_marker at 1 in H. cbn [mapM].
    destruct (marker_name m) as [p|]; [|discriminate]. cbn [bind] in H |- *.
    destruct (IH _ _ H) as [ps ->]. eexists. reflexivity.
Qed.

(** One genome more: its directory is new and comes last. *)
Lemma search_genome_keys (markers : list string) (fs fs' : FS) (g : string) :
  search_genome hmmsearch markers fs g = Ok fs' ->
  exists name, genome_name g = Ok name /\ name <> "." /\ name <> ".."
               /\ ~ In name (Dict.keys fs)
               /\ Dict.keys fs' = Dict.keys fs ++ [name].
Proof.
  unfold search_genome. destruct (genome_name g) as [name|]; [|discriminate].
  cbn [bind]. unfold mkdir.
  destruct (String.eqb_spec name ".") as [|N1]; [discriminate|].
  destruct (String.eqb_spec name "..") as [|N2]; [discriminate|].
  cbn [orb]. unfold Dict.mem at 1.
  destruct (Dict.get name fs) eqn:E; [discriminate|]. cbn [bind].
  intros H. exists name. repeat split; try assumption.
  - apply get_none_keys, E.
  - assert (K : Dict.keys fs' = Dict.keys (Dict.set name [] fs)).
    { apply (foldM_inv (fun s => Dict.keys s = Dict.keys (Dict.set name [] fs)) _ _)
        with (3 := H); [|reflexivity].
      intros s a s' Hs Hb. rewrite (search_marker_keys _ _ _ _ _ Hb). exact Hs. }
    rewrite K, (set_absent _ _ _ E). unfold Dict.keys. rewrite map_app. reflexivity.
Qed.

Lemma run_hmms_keys (markers gs : list string) :
  forall fs0 fs,
    foldM (search_genome hmmsearch markers) gs fs0 = Ok fs ->
    exists names,
      mapM genome_name gs = Ok names /\ Dict.keys fs = Dict.keys fs0 ++ names
      /\ ~ In "." names /\ ~ In ".." names
      /\ (NoDup (Dict.keys fs0) -> NoDup (Dict.keys fs)).
Proof.
  induction gs as [|g gs IH]; intros fs0 fs H.
  - simpl in H. injection H as <-. exists []. rewrite app_nil_r.
    repeat split; auto.
  - cbn [foldM] in H.
    destruct (search_genome hmmsearch markers fs0 g) as [fs1|] eqn:E; [|discriminate].
    cbn [bind] in H.
    destruct (search_genome_keys _ _ _ _ E) as [name [Hn [N1 [N2 [Hf K1]]]]].
    destruct (IH _ _ H) as [names [Hns [K [D1 [D2 ND]]]]].
    exists (name :: names). cbn [mapM]. rewrite Hn, Hns. cbn [bind].
    split; [reflexivity|]. split; [rewrite K, K1, <- app_assoc; reflexivity|].
    split; [intros [E1|E1]; [congruence|contradiction]|].
    split; [intros [E1|E1]; [congruence|contradiction]|].
    intros ND0. apply ND. rewrite K1.
    apply NoDup_app; [exact ND0|repeat constructor; simpl; tauto|].
    intros x Hx [<-|[]]. contradiction.
Qed.

Lemma run_hmms_dirs (genomes markers : list string) (fs : FS) :
  run_hmms hmmsearch genomes markers = Ok fs ->
  exists names,
    mapM genome_name genomes = Ok names /\ Dict.keys fs = names /\
    NoDup names /\ ~ In "." names /\ ~ In ".." names.
Proof.
  unfold run_hmms. intros H.
  destruct (run_hmms_keys _ _ _ _ H) as [names [Hn [K [D1 [D2 ND]]]]].
  exists names. cbn in K. split; [exact Hn|]. split; [exact K|].
  split; [rewrite <- K; apply ND; constructor|]. split; assumption.
Qed.

(** X3.  A search that completes has made one directory per genome, in the
    order of the enumeration and named by the genome; the names are
    pairwise distinct and none is [.] or [..]. *)
Theorem X3_one_directory_per_genome (genomes markers : list string) (fs : FS) :
  run_hmms hmmsearch genomes markers = Ok fs ->
  exists names,
    mapM genome_name genomes = Ok names /\ Dict.keys fs = names /\
    NoDup names /\ ~ In "." names /\ ~ In ".." names.
Proof. apply run_hmms_dirs. Qed.

(** Whatever the names are, the genome loop ends well or with the
    [FileExistsError] of [os.mkdir], once every identifier can be
    derived. *)
Lemma run_hmms_outcome (markers prots gs : list string) :
  mapM marker_name markers = Ok prots ->
  forall names fs0,
    mapM genome_name gs = Ok names ->
    (exists fs, foldM (search_genome hmmsearch markers) gs fs0 = Ok fs)
    \/ foldM (search_genome hmmsearch markers) gs fs0 = Raise FileExistsError.
Proof.
  intros Hp. induction gs as [|g gs IH]; intros names fs0 Hn.
  - left. exists fs0. reflexivity.
  - apply mapM_cons_inv in Hn as [n [ns [Hg [Hns _]]]].
    cbn [foldM]. unfold search_genome at 1 3. rewrite Hg. cbn [bind]. unfold mkdir.
    destruct (String.eqb n "." || String.eqb n ".." || Dict.mem n fs0);
      [right; reflexivity|].
    cbn [bind].
    rewrite (search_markers_spec hmmsearch g n markers prots _ [] Hp (get_set_eq _ _ _)).
    cbn [bind]. apply (IH ns _ Hns).
Qed.

(** X4.  Two genomes with one derived name do not share a directory: when
    every identifier can be derived and two genome names coincide, or one
    is [.] or [..], the search ends with the [FileExistsError] of
    [os.mkdir]. *)
Theorem X4_genome_name_collision_raises (genomes markers names prots : list string) :
  mapM genome_name genomes = Ok names ->
  mapM marker_name markers = Ok prots ->
  ~ NoDup names \/ In "." names \/ In ".." names ->
  run_hmms hmmsearch genomes markers = Raise FileExistsError.
Proof.
  intros Hn Hp Hbad.
  destruct (run_hmms_outcome markers prots genomes Hp names [] Hn) as [[fs H]|H];
    [|exact H].
  exfalso. destruct (run_hmms_dirs genomes markers fs H)
    as [names' [Hn' [_ [ND [D1 D2]]]]].
  assert (names' = names) by congruence. subst names'. tauto.
Qed.

(** *** Where the files come from *)

Lemma search_marker_provenance (genomes markers : list string)
  (g name m : string) (fs fs' : FS) :
  In g genomes -> In m markers -> genome_name g = Ok name ->
  (forall d files f r, In (d, files) fs -> In (f, r) files ->
     exists g m prot, In g genomes /\ In m markers /\ genome_name g = Ok d
       /\ marker_name m = Ok prot /\ f = report_file d prot
       /\ hmmsearch m g = Some r) ->
  search_marker hmmsearch g name fs m = Ok fs' ->
  forall d files f r, In (d, files) fs' -> In (f, r) files ->
    exists g m prot, In g genomes /\ In m markers /\ genome_name g = Ok d
      /\ marker_name m = Ok prot /\ f = report_file d prot
      /\ hmmsearch m g = Some r.
Proof.
  intros Hg Hm Hname Hfs H. unfold search_marker in H.
  destruct (marker_name m) as [p|] eqn:Ep; [|discriminate]. cbn [bind] in H.
  injection H as <-.
  destruct (hmmsearch m g) as [r0|] eqn:Er; [|exact Hfs].
  unfold write_report. destruct (Dict.get name fs) as [d0|] eqn:Ed; [|exact Hfs].
  intros d files f r Hd Hf. apply in_set_inv in Hd as [E|Hd]; [|eauto].
  injection E as -> ->. apply in_set_inv in Hf as [E|Hf].
  - injection E as -> ->. exists g, m, p. repeat split; assumption.
  - apply (Hfs name d0 f r); [apply get_some_in, Ed|exact Hf].
Qed.

Lemma run_hmms_provenance (genomes markers : list string) (fs : FS) :
  run_hmms hmmsearch genomes markers = Ok fs ->
  forall d files f r, In (d, files) fs -> In (f, r) files ->
    exists g m prot, In g genomes /\ In m markers /\ genome_name g = Ok d
      /\ marker_name m = Ok prot /\ f = report_file d prot
      /\ hmmsearch m g = Some r.
Proof.
  unfold run_hmms. intros H.
  apply (foldM_inv_in
           (fun fs => forall d files f r, In (d, files) fs -> In (f, r) files ->
              exists g m prot, In g genomes /\ In m markers /\ genome_name g = Ok d
                /\ marker_name m = Ok prot /\ f = report_file d prot
                /\ hmmsearch m g = Some r) _ _) with (3 := H).
  - intros s g s' Hg Hs Hb. unfold search_genome in Hb.
    destruct (genome_name g) as [name|] eqn:En; [|discriminate]. cbn [bind] in Hb.
    destruct (mkdir name s) as [s1|] eqn:Em; [|discriminate]. cbn [bind] in Hb.
    apply (foldM_inv_in
             (fun fs => forall d files f r, In (d, files) fs -> In (f, r) files ->
                exists g m prot, In g genomes /\ In m markers /\ genome_name g = Ok d
                  /\ marker_name m = Ok prot /\ f = report_file d prot
                  /\ hmmsearch m g = Some r) _ _) with (3 := Hb).
    + intros t m t' Hm Ht Hbm.
      apply (search_marker_provenance genomes markers g name m t t' Hg Hm En Ht Hbm).
    + unfold mkdir in Em. revert Em.
      destruct (_ || _ || _); [discriminate|].
      intros Em. injection Em as <-. intros d files f r Hd Hf.
      apply in_set_inv in Hd as [E|Hd]; [|eauto].
      injection E as -> ->. destruct Hf.
  - intros d files f r [].
Qed.

(** X5.  After a completed search every file under [out/] was written by
    the search of one pair of the two enumerations: it lies in the
    directory of the genome, is named after the genome and the marker, and
    holds the report of that very search. *)
Theorem X5_every_file_comes_from_a_search (genomes markers : list string)
  (fs : FS) :
  run_hmms hmmsearch genomes markers = Ok fs ->
  forall d files f r, In (d, files) fs -> In (f, r) files ->
    exists g m prot, In g genomes /\ In m markers /\ genome_name g = Ok d
      /\ marker_name m = Ok prot /\ f = report_file d prot
      /\ hmmsearch m g = Some r.
Proof. apply run_hmms_provenance. Qed.

(** *** The tree of a completed search *)

Lemma run_hmms_spec_any (markers prots : list string) (gs : list string) :
  mapM marker_name markers = Ok prots ->
  forall (ns : list string) (fs0 : FS),
    mapM genome_name gs = Ok ns ->
    ~ In "." ns -> ~ In ".." ns -> NoDup ns ->
    (forall n, In n ns -> ~ In n (Dict.keys fs0)) ->
    foldM (search_genome hmmsearch markers) gs fs0
    = Ok (fs0 ++ fill_tree hmmsearch (combine gs ns) (combine markers prots)).
Proof.
  intros Hps. induction gs as [|g gs IH]; intros ns fs0 Hns D1 D2 ND Hfresh.
  - simpl in Hns. injection Hns as <-. simpl. rewrite app_nil_r. reflexivity.
  - apply mapM_cons_inv in Hns as [n [ns' [Hn [Hns ->]]]].
    inversion ND as [|? ? Hnn ND']; subst.
    cbn [foldM]. unfold search_genome at 1. rewrite Hn. cbn [bind].
    assert (Hg : Dict.get n fs0 = None).
    { apply get_none_keys, Hfresh. now left. }
    assert (H1 : String.eqb n "." = false).
    { apply String.eqb_neq. intros ->. apply D1. now left. }
    assert (H2 : String.eqb n ".." = false).
    { apply String.eqb_neq. intros ->. apply D2. now left. }
    unfold mkdir, Dict.mem. rewrite H1, H2, Hg. cbn [orb bind].
    rewrite (set_absent _ _ _ Hg).
    rewrite (search_markers_spec hmmsearch g n markers prots _ [] Hps (get_app_last _ _ _ Hg)).
    rewrite (set_app_last _ _ _ _ Hg). cbn [bind].
    rewrite (IH ns' _ Hns (fun H => D1 (or_intror H)) (fun H => D2 (or_intror H)) ND').
    + cbn [combine fill_tree map fst snd]. rewrite <- app_assoc. reflexivity.
    + intros n' Hn' Hk. unfold Dict.keys in Hk. rewrite map_app, in_app_iff in Hk.
      destruct Hk as [Hk|[<-|[]]].
      * apply (Hfresh n'); [now right|exact Hk].
      * contradiction.
Qed.

Lemma run_hmms_tree_any (genomes markers : list string) (fs : FS) (g : string) :
  run_hmms hmmsearch genomes markers = Ok fs -> In g genomes ->
  exists names prots,
    mapM genome_name genomes = Ok names /\ mapM marker_name markers = Ok prots /\
    NoDup names /\
    fs = fill_tree hmmsearch (combine genomes names) (combine markers prots).
Proof.
  intros H Hg. destruct (run_hmms_dirs genomes markers fs H)
    as [names [Hn [_ [ND [D1 D2]]]]].
  assert (Hp : exists prots, mapM marker_name markers = Ok prots).
  { unfold run_hmms in H. destruct genomes as [|g0 gs]; [destruct Hg|].
    cbn [foldM] in H.
    destruct (search_genome hmmsearch markers [] g0) as [fs1|] eqn:E; [|discriminate].
    unfold search_genome in E.
    destruct (genome_name g0) as [n0|]; [|discriminate]. cbn [bind] in E.
    destruct (mkdir n0 []) as [fs0|]; [|discriminate]. cbn [bind] in E.
    eapply search_markers_names, E. }
  destruct Hp as [prots Hp]. exists names, prots.
  split; [exact Hn|]. split; [exact Hp|]. split; [exact ND|].
  unfold run_hmms in H.
  rewrite (run_hmms_spec_any markers prots genomes Hp names [] Hn D1 D2 ND) in H.
  - injection H as <-. reflexivity.
  - intros n _ [].
Qed.

Lemma fill_dir_keeps (genome name f : string) (mps : list (string * string)) :
  forall d0 : Dir,
    In f (Dict.keys d0) -> In f (Dict.keys (fill_dir hmmsearch genome name mps d0)).
Proof.
  unfold fill_dir. induction mps as [|[m p] mps IH]; intros d0 H; simpl.
  - exact H.
  - apply IH. destruct (hmmsearch m genome); [|exact H].
    rewrite keys_set_see. apply see_in. now left.
Qed.

Lemma fill_dir_has (genome name m p : string) (r : Report)
  (mps : list (string * string)) :
  forall d0 : Dir,
    In (m, p) mps -> hmmsearch m genome = Some r ->
    In (report_file name p) (Dict.keys (fill_dir hmmsearch genome name mps d0)).
Proof.
  induction mps as [|[m0 p0] mps IH]; intros d0 Hin Hr; [destruct Hin|].
  change (fill_dir hmmsearch genome name ((m0, p0) :: mps) d0)
    with (fill_dir hmmsearch genome name mps
            (match hmmsearch m0 genome with
             | Some r => Dict.set (report_file name p0) r d0
             | None => d0
             end)).
  destruct Hin as [E|Hin]; [|apply IH; assumption].
  injection E as -> ->. rewrite Hr. apply fill_dir_keeps.
  rewrite keys_set_see. apply see_in. now right.
Qed.

End AnySearch.

Lemma X3_one_directory_per_genome_witness :
  exists fs names,
    run_hmms scenario ["g/A.faa"; "g/B.faa"] ["m/m1.hmm"] = Ok fs /\
    mapM genome_name ["g/A.faa"; "g/B.faa"] = Ok names /\ Dict.keys fs = names /\
    NoDup names /\ ~ In "." names /\ ~ In ".." names.
Proof.
  eexists.
  destruct (X3_one_directory_per_genome scenario
              ["g/A.faa"; "g/B.faa"] ["m/m1.hmm"] _ eq_refl) as [names H].
  exists names. split; [reflexivity|exact H].
Defined.

Lemma X4_genome_name_collision_raises_witness :
  mapM genome_name ["g/A.faa"; "g/A.faa.faa"] = Ok ["A"; "A"] /\
  run_hmms scenario ["g/A.faa"; "g/A.faa.faa"] ["m/m1.hmm"] = Raise FileExistsError.
Proof.
  split; [reflexivity|].
  apply (X4_genome_name_collision_raises scenario
           ["g/A.faa"; "g/A.faa.faa"] ["m/m1.hmm"] ["A"; "A"] ["m1"]);
    [reflexivity|reflexivity|].
  left. intros H. inversion H as [|x l Hin _]; subst. apply Hin. now left.
Defined.

Lemma X5_every_file_comes_from_a_search_witness :
  exists g m prot,
    In g ["g/A.faa"; "g/B.faa"] /\ In m ["m/m1.hmm"; "m/m2.hmm"] /\
    genome_name g = Ok "B" /\ marker_name m = Ok prot /\
    "B-m2.out" = report_file "B" prot /\ scenario m g = Some hits1.
Proof.
  apply (X5_every_file_comes_from_a_search scenario
           ["g/A.faa"; "g/B.faa"] ["m/m1.hmm"; "m/m2.hmm"] _ eq_refl
           "B" [("B-m1.out", no_hits); ("B-m2.out", hits1)] "B-m2.out" hits1).
  - simpl. tauto.
  - simpl. tauto.
Defined.

(** ** Genome names with a dash *)

Lemma hd_split_cons (sep c : ascii) (s : string) :
  Ascii.eqb c sep = false ->
  hd EmptyString (Str.split sep (String c s))
  = String c (hd EmptyString (Str.split sep s)).
Proof.
  intros E. cbn [Str.split]. rewrite E.
  pose proof (split_not_nil sep s) as N.
  destruct (Str.split sep s); [contradiction|reflexivity].
Qed.

Lemma split_hd_app (sep : ascii) (a b : string) :
  Str.occurs sep a = true ->
  hd EmptyString (Str.split sep (a ++ b))
  = hd EmptyString (Str.split sep a).
Proof.
  induction a as [|c a IH]; intros H; [discriminate|].
  cbn [Str.occurs] in H. cbn [append].
  destruct (Ascii.eqb c sep) eqn:E.
  - cbn [Str.split]. rewrite E. reflexivity.
  - rewrite !hd_split_cons by exact E. rewrite IH; [reflexivity|exact H].
Qed.

Lemma file_genome_hd (file : string) :
  file_genome file = Ok (hd EmptyString (Str.split Str.dash file)).
Proof.
  unfold file_genome, Str.item. pose proof (split_not_nil Str.dash file) as N.
  destruct (Str.split Str.dash file); [contradiction|reflexivity].
Qed.

(** X7.  A dash in a genome name stops the run.  When the name of a genome
    holds a dash, the search left a report for it, and no genome is named
    by the text before that dash, then the run ends with an exception: the
    parser looks for the report in a directory that does not exist. *)
Theorem X7_dash_in_genome_name_stops_run
  (hmmsearch : string -> string -> option Report)
  (scandir : list string -> list string) (genomes markers : list string)
  (g m name : string) (r : Report) :
  (forall l, Permutation (scandir l) l) ->
  In g genomes -> In m markers -> genome_name g = Ok name ->
  Str.occurs Str.dash name = true ->
  hmmsearch m g = Some r ->
  (forall g', In g' genomes ->
              genome_name g' <> Ok (hd EmptyString (Str.split Str.dash name))) ->
  exists e, aggregate hmmsearch scandir genomes markers = Raise e.
Proof.
  intros Hscan Hg Hm Hname Hdash Hr Hnone. unfold aggregate.
  destruct (run_hmms hmmsearch genomes markers) as [fs|e] eqn:Erun;
    [|exists e; reflexivity].
  cbn [bind].
  destruct (run_hmms_tree_any hmmsearch genomes markers fs g Erun Hg)
    as [names [prots [Hn [Hp [ND ->]]]]].
  assert (Hgn : In (g, name) (combine genomes names)).
  { destruct (mapM_in _ _ _ Hn _ Hg) as [n Hgn].
    pose proof (mapM_in_combine _ _ _ Hn _ _ Hgn). congruence. }
  destruct (mapM_in _ _ _ Hp _ Hm) as [p Hmp].
  set (fs := fill_tree hmmsearch (combine genomes names) (combine markers prots)).
  assert (Hraise : exists e, parse_results scandir fs = Raise e).
  { unfold parse_results.
    apply (foldM_raise _ _ (walk_entry scandir fs name)).
    - apply (walked_dir hmmsearch scandir genomes markers names prots Hn Hscan).
      apply (in_combine_r _ _ _ _ Hgn).
    - intros st. unfold parse_dir.
      destruct (foldM_raise (parse_file fs (length (heap st)))
                  (snd (walk_entry scandir fs name)) (report_file name p))
        with (s := (@nil (string * Z), all_dicts st)) as [e He].
      + unfold walk_entry. cbn [snd]. unfold fs.
        rewrite (get_tree hmmsearch genomes markers names prots Hn ND g name Hgn).
        apply (Permutation_in _ (Permutation_sym (Hscan _))).
        apply (fill_dir_has hmmsearch g name m p r _ _ Hmp Hr).
      + intros s. unfold parse_file. rewrite file_genome_hd.
        rewrite report_file_eq, (split_hd_app _ _ _ Hdash). cbn [bind].
        destruct (file_prot _) as [prot|e]; [|exists e; reflexivity].
        cbn [bind]. unfold open_report.
        assert (Hk : Dict.get (hd EmptyString (Str.split Str.dash name)) fs = None).
        { apply get_none_keys. unfold fs.
          rewrite (keys_tree hmmsearch genomes markers names prots Hn).
          intros Hin. rewrite <- (mapM_snd_combine _ _ _ Hn) in Hin.
          apply in_map_iff in Hin as [[g' n'] [E Hin]]. cbn in E. subst n'.
          apply (Hnone g' (in_combine_l _ _ _ _ Hin)).
          apply (mapM_in_combine _ _ _ Hn _ _ Hin). }
        rewrite Hk. exists FileNotFoundError. reflexivity.
      + unfold Dict.t in He |- *. rewrite He. exists e. reflexivity. }
  destruct Hraise as [e ->]. exists e. reflexivity.
Qed.

Lemma X7_dash_in_genome_name_stops_run_witness :
  genome_name "g/GCA-000123.faa" = Ok "GCA-000123" /\
  exists e, aggregate scenario newest_first
              ["g/A.faa"; "g/GCA-000123.faa"] ["m/m1.hmm"] = Raise e.
Proof.
  split; [reflexivity|].
  apply (X7_dash_in_genome_name_stops_run scenario newest_first
           ["g/A.faa"; "g/GCA-000123.faa"] ["m/m1.hmm"]
           "g/GCA-000123.faa" "m/m1.hmm" "GCA-000123" no_hits).
  - intros l. apply Permutation_sym, Permutation_rev.
  - simpl. tauto.
  - simpl. tauto.
  - reflexivity.
  - reflexivity.
  - reflexivity.
  - intros g' [<-|[<-|[]]]; discriminate.
Defined.

(** ** Reports of a search over well-formed identifiers *)

(** X6.  Over well-formed identifiers the search completes and keeps the
    reports apart: opening the path of a pair gives back exactly the report
    that the search of this pair wrote, and fails with
    [FileNotFoundError] exactly when that search left no file. *)
Theorem X6_report_of_each_pair_is_kept
  (hmmsearch : string -> string -> option Report)
  (genomes markers : list string) :
  well_formed genomes markers = true ->
  exists fs,
    run_hmms hmmsearch genomes markers = Ok fs /\
    forall g m name prot,
      In g genomes -> In m markers ->
      genome_name g = Ok name -> marker_name m = Ok prot ->
      open_report fs name (report_file name prot)
      = match hmmsearch m g with
        | Some r => Ok r
        | None => Raise FileNotFoundError
        end.
Proof.
  intros Hwf.
  destruct (well_formed_inv _ _ Hwf)
    as [names [prots [Hn [Hp [Hcn [Hdn [Hcp [Hdp _]]]]]]]].
  eexists. split.
  { apply (run_hmms_tree hmmsearch genomes markers names prots Hn Hp Hcn Hdn). }
  intros g m name prot Hg Hm Hname Hprot.
  assert (Hgn : In (g, name) (combine genomes names)).
  { destruct (mapM_in _ _ _ Hn _ Hg) as [n Hgn].
    pose proof (mapM_in_combine _ _ _ Hn _ _ Hgn). congruence. }
  assert (Hmp : In (m, prot) (combine markers prots)).
  { destruct (mapM_in _ _ _ Hp _ Hm) as [p Hmp].
    pose proof (mapM_in_combine _ _ _ Hp _ _ Hmp). congruence. }
  unfold open_report.
  rewrite (get_tree hmmsearch genomes markers names prots Hn Hdn g name Hgn).
  rewrite (get_report hmmsearch genomes markers names prots Hn Hp Hcn Hcp Hdp
             g name m prot Hgn Hmp).
  destruct (hmmsearch m g); reflexivity.
Qed.

Lemma X6_report_of_each_pair_is_kept_witness :
  exists fs,
    run_hmms scenario ["g/A.faa"; "g/B.faa"] ["m/m1.hmm"; "m/m2.hmm"] = Ok fs /\
    open_report fs "A" "A-m1.out" = Ok hits2 /\
    open_report fs "B" "B-m2.out" = Ok hits1 /\
    open_report fs "B" "B-m1.out" = Ok no_hits.
Proof.
  destruct (X6_report_of_each_pair_is_kept scenario
              ["g/A.faa"; "g/B.faa"] ["m/m1.hmm"; "m/m2.hmm"] eq_refl)
    as [fs [Hrun Hopen]].
  exists fs. split; [exact Hrun|]. repeat split.
  - apply (Hopen "g/A.faa" "m/m1.hmm" "A" "m1"); simpl; tauto.
  - apply (Hopen "g/B.faa" "m/m2.hmm" "B" "m2"); simpl; tauto.
  - apply (Hopen "g/B.faa" "m/m1.hmm" "B" "m1"); simpl; tauto.
Defined.

(** ** The table of any completed run *)

Lemma position_none (x : string) (l : list string) :
  ~ In x l -> position x l = None.
Proof.
  induction l as [|y l IH]; simpl; [reflexivity|].
  intros H. destruct (String.eqb_spec x y) as [->|N]; [tauto|].
  rewrite IH by tauto. reflexivity.
Qed.

Lemma in_all_cols_iff (markers observed : list string) (c : string) :
  In c (all_cols markers observed)
  <-> In c (map marker_col markers) \/ In c observed.
Proof.
  unfold all_cols, absent_cols. rewrite in_app_iff, filter_In. split.
  - tauto.
  - intros [H|H]; [|now right].
    destruct (label_in c observed) eqn:E.
    + right. apply label_in_iff, E.
    + left. split; [exact H|reflexivity].
Qed.

Lemma table_rows_columns
  (hmmsearch : string -> string -> option Report)
  (scandir : list string -> list string) (genomes markers : list string)
  (data : Dict.t (Dict.t Z)) :
  aggregate hmmsearch scandir genomes markers = Ok data ->
  NoDup (index (assemble data markers)) /\
  (forall r, In r (index (assemble data markers))
             <-> exists c v, fact data r c = Some v) /\
  (forall c, In c (columns (assemble data markers))
             <-> In c (map marker_col markers)
                 \/ exists r v, fact data r c = Some v).
Proof.
  intros Hagg.
  pose proof (aggregate_keys_nodup _ _ _ _ _ Hagg) as ND.
  pose proof (aggregate_rows_nodup _ _ _ _ _ Hagg) as Hrows.
  split; [|split].
  - rewrite assemble_index, from_dict_unfold. cbn [index]. apply first_seen_nodup.
  - intros r. rewrite assemble_index. apply (index_in_iff data r ND Hrows).
  - intros c. rewrite assemble_columns, in_all_cols_iff.
    rewrite (observed_in_iff data c ND). reflexivity.
Qed.

(** X8.  In the table of any completed run no row label occurs twice; a
    genome key has a row exactly when some fact was recorded for it; and a
    label has a column exactly when it is the label of a marker of the
    enumeration or the key of a recorded fact. *)
Theorem X8_rows_and_columns_of_the_table
  (hmmsearch : string -> string -> option Report)
  (scandir : list string -> list string) (genomes markers : list string)
  (df : DataFrame) :
  result_matrix hmmsearch scandir genomes markers = Ok df ->
  exists data,
    aggregate hmmsearch scandir genomes markers = Ok data /\
    NoDup (index df) /\
    (forall r, In r (index df) <-> exists c v, fact data r c = Some v) /\
    (forall c, In c (columns df)
               <-> In c (map marker_col markers)
                   \/ exists r v, fact data r c = Some v).
Proof.
  intros H. apply result_matrix_inv in H as [data [Hagg ->]].
  exists data. split; [exact Hagg|].
  apply (table_rows_columns _ _ _ _ _ Hagg).
Qed.

Lemma X8_rows_and_columns_of_the_table_witness :
  exists data,
    aggregate scenario creation_order ["g/A.faa"; "g/B.faa"] ["m/m1.hmm"]
    = Ok data /\
    NoDup ["A"] /\
    (forall r, In r ["A"] <-> exists c v, fact data r c = Some v) /\
    (forall c, In c ["m1"]
               <-> In c (map marker_col ["m/m1.hmm"])
                   \/ exists r v, fact data r c = Some v).
Proof.
  apply (X8_rows_and_columns_of_the_table scenario creation_order
           ["g/A.faa"; "g/B.faa"] ["m/m1.hmm"]
           (mkFrame ["A"] ["m1"] [Int64 [2%Z]])).
  reflexivity.
Defined.

(** X9.  Every cell of the table of a completed run is the count recorded
    for its row and column, or 0 where none was recorded; and a label that
    is no row or no column of the table has no cell. *)
Theorem X9_cell_is_fact_or_zero
  (hmmsearch : string -> string -> option Report)
  (scandir : list string -> list string) (genomes markers : list string)
  (df : DataFrame) :
  result_matrix hmmsearch scandir genomes markers = Ok df ->
  exists data,
    aggregate hmmsearch scandir genomes markers = Ok data /\
    forall r c,
      (In r (index df) -> In c (columns df) ->
       loc df r c = Some (Some (option_default 0%Z (fact data r c)))) /\
      (~ In r (index df) \/ ~ In c (columns df) -> loc df r c = None).
Proof.
  intros H. apply result_matrix_inv in H as [data [Hagg ->]].
  exists data. split; [exact Hagg|].
  pose proof (aggregate_keys_nodup _ _ _ _ _ Hagg) as ND.
  pose proof (aggregate_rows_nodup _ _ _ _ _ Hagg) as Hrows.
  intros r c. split.
  - intros Hr Hc. rewrite assemble_index in Hr.
    apply (index_in_iff data r ND Hrows) in Hr as [c' [v' Hf]].
    rewrite assemble_columns in Hc.
    apply (loc_assemble data markers r c c' v' ND Hrows Hf Hc).
  - intros [Hr|Hc]; unfold loc.
    + rewrite (position_none _ _ Hr). reflexivity.
    + destruct (position r (index (assemble data markers))); [|reflexivity].
      unfold column_of. rewrite assemble_values, assemble_columns, get_combine_map.
      rewrite assemble_columns in Hc. apply label_in_false in Hc. rewrite Hc.
      reflexivity.
Qed.

Lemma X9_cell_is_fact_or_zero_witness :
  exists data,
    aggregate scenario creation_order
      ["g/A.faa"; "g/B.faa"] ["m/m1.hmm"; "m/m2.hmm"; "m/m3.hmm"] = Ok data /\
    loc (mkFrame ["A"; "B"] ["m3"; "m1"; "m2"]
           [Float64 [Some 0%Z; Some 0%Z]; Float64 [Some 2%Z; Some 0%Z];
            Float64 [Some 0%Z; Some 1%Z]]) "B" "m1"
    = Some (Some (option_default 0%Z (fact data "B" "m1"))).
Proof.
  destruct (X9_cell_is_fact_or_zero scenario creation_order
              ["g/A.faa"; "g/B.faa"] ["m/m1.hmm"; "m/m2.hmm"; "m/m3.hmm"]
              (mkFrame ["A"; "B"] ["m3"; "m1"; "m2"]
                 [Float64 [Some 0%Z; Some 0%Z]; Float64 [Some 2%Z; Some 0%Z];
                  Float64 [Some 0%Z; Some 1%Z]]) eq_refl) as [data [Hagg H]].
  exists data. split; [exact Hagg|].
  destruct (H "B" "m1") as [Hcell _]. apply Hcell; simpl; tauto.
Defined.


Lemma all_cols_perm (markers observed : list string) :
  NoDup (map marker_col markers) -> NoDup observed ->
  incl observed (map marker_col markers) ->
  Permutation (all_cols markers observed) (map marker_col markers).
Proof.
  intros NDl NDo Hincl. apply NoDup_Permutation; [|exact NDl|].
  - unfold all_cols, absent_cols. apply NoDup_app; [apply NoDup_filter, NDl|exact NDo|].
    intros c Hc Ho. apply filter_In in Hc as [_ Hc].
    apply negb_true_iff, label_in_false in Hc. contradiction.
  - intros c. rewrite in_all_cols_iff. split; [|tauto].
    intros [H|H]; [exact H|apply Hincl, H].
Qed.

(** The table of a run over well-formed identifiers and one-block reports,
    described without reference to the order of the directory listings. *)
Lemma well_formed_table
  (hmmsearch : string -> string -> option Report)
  (scandir : list string -> list string) (genomes markers : list string) :
  well_formed genomes markers = true ->
  reports_one_query hmmsearch genomes markers = true ->
  (forall l, Permutation (scandir l) l) ->
  exists df,
    result_matrix hmmsearch scandir genomes markers = Ok df /\
    NoDup (index df) /\
    Permutation (columns df) (map marker_col markers) /\
    (forall r, In r (index df)
               <-> exists g, In g genomes /\ genome_name g = Ok r /\
                     exists m, In m markers /\ (0 < reported hmmsearch m g)%Z) /\
    (forall g m name,
        In g genomes -> In m markers -> genome_name g = Ok name ->
        loc df name (marker_col m)
        = if existsb (fun m' => (0 <? reported hmmsearch m' g)%Z) markers
          then Some (Some (reported hmmsearch m g)) else None).
Proof.
  intros Hwf Hone Hscan.
  destruct (well_formed_inv _ _ Hwf)
    as [names [prots [Hn [Hp [Hcn [Hdn [Hcp [Hdp Hcol]]]]]]]].
  destruct (aggregate_spec hmmsearch scandir genomes markers names prots
              Hn Hp Hcn Hdn Hcp Hdp Hscan Hone) as [data [Hagg [Hfact Hkeys]]].
  pose proof (aggregate_keys_nodup _ _ _ _ _ Hagg) as ND.
  pose proof (aggregate_rows_nodup _ _ _ _ _ Hagg) as Hrows.
  destruct (table_rows_columns _ _ _ _ _ Hagg) as [NDi [Hrow _]].
  assert (Hpair : forall g name, In g genomes -> genome_name g = Ok name ->
                                 In (g, name) (combine genomes names)).
  { intros g name Hg Hname. destruct (mapM_in _ _ _ Hn _ Hg) as [n Hgn].
    pose proof (mapM_in_combine _ _ _ Hn _ _ Hgn). congruence. }
  assert (Hrows' : forall r, In r (index (assemble data markers))
               <-> exists g, In g genomes /\ genome_name g = Ok r /\
                     exists m, In m markers /\ (0 < reported hmmsearch m g)%Z).
  { intros r. rewrite Hrow. split.
    - intros [c [v Hf]]. destruct (Hkeys r c v Hf) as [[g Hg] [m Hm]].
      exists g. split; [apply (in_combine_l _ _ _ _ Hg)|].
      split; [apply (mapM_in_combine _ _ _ Hn _ _ Hg)|].
      exists m. split; [apply (in_combine_l _ _ _ _ Hm)|].
      rewrite (Hfact g r m c Hg Hm) in Hf.
      destruct (0 <? reported hmmsearch m g)%Z eqn:E; [|discriminate].
      apply Z.ltb_lt, E.
    - intros [g [Hg [Hname [m [Hm Hpos]]]]].
      destruct (mapM_in _ _ _ Hp _ Hm) as [p Hmp].
      exists p, (reported hmmsearch m g).
      rewrite (Hfact g r m p (Hpair g r Hg Hname) Hmp).
      apply Z.ltb_lt in Hpos. rewrite Hpos. reflexivity. }
  exists (assemble data markers). split.
  { unfold result_matrix. rewrite Hagg. reflexivity. }
  split; [exact NDi|]. split; [|split; [exact Hrows'|]].
  - rewrite assemble_columns. apply all_cols_perm.
    + rewrite <- Hcol. exact Hdp.
    + apply first_seen_nodup.
    + intros c Hc. apply (observed_in_iff data c ND) in Hc as [r [v Hf]].
      destruct (Hkeys r c v Hf) as [_ [m Hm]].
      rewrite <- Hcol. apply (in_combine_r _ _ _ _ Hm).
  - intros g m name Hg Hm Hname.
    pose proof (Hpair g name Hg Hname) as Hgn.
    destruct (mapM_in _ _ _ Hp _ Hm) as [p Hmp].
    assert (Ep : p = marker_col m).
    { rewrite Hcol in Hmp. apply (in_combine_fun _ _ _ _ Hmp). }
    destruct (existsb _ markers) eqn:Ex.
    + apply existsb_exists in Ex as [m' [Hm' Hpos]].
      destruct (mapM_in _ _ _ Hp _ Hm') as [p' Hmp'].
      pose proof (Hfact g name m' p' Hgn Hmp') as Hf'. rewrite Hpos in Hf'.
      rewrite <- Ep.
      rewrite (loc_assemble data markers name p p' _ ND Hrows Hf').
      * rewrite (Hfact g name m p Hgn Hmp).
        destruct (0 <? reported hmmsearch m g)%Z eqn:E; [reflexivity|].
        apply Z.ltb_ge in E. pose proof (reported_nonneg hmmsearch m g).
        cbn [option_default]. repeat f_equal. lia.
      * apply in_all_cols. rewrite Ep. apply in_map, Hm.
    + unfold loc. rewrite position_none; [reflexivity|].
      intros Hin. apply Hrows' in Hin as [g' [Hg' [Hname' [m' [Hm' Hpos]]]]].
      assert (g' = g).
      { apply (nodup_snd_inj (combine genomes names) g' g name).
        - rewrite (mapM_snd_combine _ _ _ Hn). exact Hdn.
        - apply Hpair; assumption.
        - exact Hgn. }
      subst g'. assert (Et : existsb (fun m' => (0 <? reported hmmsearch m' g)%Z) markers = true).
      { apply existsb_exists. exists m'. split; [exact Hm'|apply Z.ltb_lt, Hpos]. }
      rewrite Et in Ex. discriminate.
Qed.

(** X10.  The order in which the directories and files under [out/] are
    listed changes the order of the rows and of the columns at most: over
    well-formed identifiers and one-block reports, two runs with different
    listing orders have the same row labels, the same column labels, and
    the same cell -- or no cell -- for every genome and marker. *)
Theorem X10_listing_order_changes_no_cell
  (hmmsearch : string -> string -> option Report)
  (scandir1 scandir2 : list string -> list string)
  (genomes markers : list string) :
  well_formed genomes markers = true ->
  reports_one_query hmmsearch genomes markers = true ->
  (forall l, Permutation (scandir1 l) l) ->
  (forall l, Permutation (scandir2 l) l) ->
  exists df1 df2,
    result_matrix hmmsearch scandir1 genomes markers = Ok df1 /\
    result_matrix hmmsearch scandir2 genomes markers = Ok df2 /\
    Permutation (index df1) (index df2) /\
    Permutation (columns df1) (columns df2) /\
    forall g m name,
      In g genomes -> In m markers -> genome_name g = Ok name ->
      loc df1 name (marker_col m) = loc df2 name (marker_col m).
Proof.
  intros Hwf Hone H1 H2.
  destruct (well_formed_table hmmsearch scandir1 genomes markers Hwf Hone H1)
    as [df1 [R1 [N1 [C1 [I1 L1]]]]].
  destruct (well_formed_table hmmsearch scandir2 genomes markers Hwf Hone H2)
    as [df2 [R2 [N2 [C2 [I2 L2]]]]].
  exists df1, df2. split; [exact R1|]. split; [exact R2|]. split; [|split].
  - apply NoDup_Permutation; [exact N1|exact N2|].
    intros r. rewrite I1, I2. reflexivity.
  - apply (Permutation_trans C1), Permutation_sym, C2.
  - intros g m name Hg Hm Hname.
    rewrite (L1 g m name Hg Hm Hname), (L2 g m name Hg Hm Hname). reflexivity.
Qed.

Lemma X10_listing_order_changes_no_cell_witness :
  exists df1 df2,
    result_matrix scenario creation_order
      ["g/A.faa"; "g/B.faa"] ["m/m1.hmm"; "m/m2.hmm"; "m/m3.hmm"] = Ok df1 /\
    result_matrix scenario newest_first
      ["g/A.faa"; "g/B.faa"] ["m/m1.hmm"; "m/m2.hmm"; "m/m3.hmm"] = Ok df2 /\
    Permutation (index df1) (index df2) /\
    Permutation (columns df1) (columns df2) /\
    loc df1 "B" "m2" = loc df2 "B" "m2".
Proof.
  destruct (X10_listing_order_changes_no_cell scenario creation_order newest_first
              ["g/A.faa"; "g/B.faa"] ["m/m1.hmm"; "m/m2.hmm"; "m/m3.hmm"]
              eq_refl eq_refl (fun l => Permutation_refl l)
              (fun l => Permutation_sym (Permutation_rev l)))
    as [df1 [df2 [R1 [R2 [P1 [P2 L]]]]]].
  exists df1, df2. repeat split; try assumption.
  apply (L "g/B.faa" "m/m2.hmm" "B"); [simpl; tauto|simpl; tauto|reflexivity].
Defined.

(** ** The count recorded for one report *)

Lemma record_hits_last (prot key : string) (addr : nat) (d : QueryResult)
  (qs : list QueryResult) :
  qs <> [] ->
  forall st,
    fold_left (record_hits prot key addr) qs st
    = (Dict.set prot (Z.of_nat (length (hits (last qs d)))) (fst st),
       Dict.set key addr (snd st)).
Proof.
  induction qs as [|q qs IH]; intros Hne st; [contradiction|].
  destruct qs as [|q' qs].
  - reflexivity.
  - change (fold_left (record_hits prot key addr) (q :: q' :: qs) st)
      with (fold_left (record_hits prot key addr) (q' :: qs)
              (record_hits prot key addr st q)).
    rewrite (IH ltac:(discriminate)). unfold record_hits. cbn [fst snd].
    rewrite !set_set. reflexivity.
Qed.

Lemma group_rows_total (rows : list Row) :
  list_sum (map (fun q => length (hits q)) (group_rows rows)) = length rows.
Proof.
  induction rows as [|r rows IH]; [reflexivity|].
  cbn [group_rows]. destruct (group_rows rows) as [|q qs].
  - simpl in IH |- *. rewrite <- IH. reflexivity.
  - destruct (String.eqb (query_name r) (qid q)); simpl in IH |- *; lia.
Qed.

Lemma in_le_list_sum (l : list nat) (n : nat) : In n l -> n <= list_sum l.
Proof.
  induction l as [|a l IH]; simpl; [tauto|].
  intros [->|H]; [lia|]. specialize (IH H). lia.
Qed.

Lemma group_rows_not_nil (rows : list Row) : rows <> [] -> group_rows rows <> [].
Proof.
  destruct rows as [|r rows]; [contradiction|]. intros _. cbn [group_rows].
  destruct (group_rows rows) as [|q qs]; [discriminate|].
  destruct (String.eqb (query_name r) (qid q)); discriminate.
Qed.

(** X11.  What is recorded for a report that lists hits is the number of
    hits of its last query block: at least 1 and never more than the rows
    of the report; a report without rows changes nothing. *)
Theorem X11_recorded_count_is_last_block
  (fs : FS) (addr : nat) (st st' : Dict.t Z * Dict.t nat)
  (file genome prot : string) (rows : list Row) :
  file_genome file = Ok genome -> file_prot file = Ok prot ->
  open_report fs genome file = Ok (Tbl rows) ->
  parse_file fs addr st file = Ok st' ->
  (rows = [] -> st' = st) /\
  (rows <> [] ->
   exists v,
     Dict.get prot (fst st') = Some v /\
     v = Z.of_nat (length (hits (last (group_rows rows) (mkQResult EmptyString [])))) /\
     (1 <= v <= Z.of_nat (length rows))%Z).
Proof.
  intros Hg Hp Ho H. unfold parse_file in H. rewrite Hg, Hp in H. cbn [bind] in H.
  rewrite Ho in H. cbn [bind] in H.
  destruct (SearchIO_parse (Tbl rows)) as [qs|] eqn:Eq; [|discriminate].
  cbn [bind] in H. pose proof Eq as Eq'. cbn [SearchIO_parse] in Eq'.
  apply mapM_make_qresult in Eq'. subst qs.
  destruct (Str.item _ 0) as [key|]; [|discriminate]. cbn [bind] in H.
  injection H as <-. split.
  - intros ->. reflexivity.
  - intros Hne. pose proof (group_rows_not_nil rows Hne) as Hq.
    rewrite (record_hits_last prot key addr (mkQResult EmptyString []) _ Hq).
    cbn [fst]. eexists. split; [apply get_set_eq|]. split; [reflexivity|].
    set (q := last (group_rows rows) (mkQResult EmptyString [])).
    assert (Hin : In q (group_rows rows)).
    { unfold q. destruct (exists_last Hq) as [l [a ->]].
      rewrite last_last. apply in_app_iff. right. now left. }
    pose proof (group_rows_hits rows) as Hh. rewrite Forall_forall in Hh.
    specialize (Hh q Hin).
    assert (Hle : length (hits q) <= length rows).
    { rewrite <- (group_rows_total rows). apply in_le_list_sum.
      apply (in_map (fun q => length (hits q))), Hin. }
    destruct (hits q); [contradiction|]. simpl length in *. lia.
Qed.

Lemma X11_recorded_count_is_last_block_witness :
  exists st',
    parse_file [("A", [("A-m1.out", Tbl [mkRow "seq1" "q1"; mkRow "seq2" "q1"; mkRow "seq3" "q2"])])]
               0 ([], []) "A-m1.out" = Ok st' /\
    exists v, Dict.get "m1" (fst st') = Some v /\ v = 1%Z /\ (1 <= v <= 3)%Z.
Proof.
  eexists. split; [reflexivity|].
  destruct (X11_recorded_count_is_last_block
              [("A", [("A-m1.out", Tbl [mkRow "seq1" "q1"; mkRow "seq2" "q1"; mkRow "seq3" "q2"])])]
              0 ([], []) _ "A-m1.out" "A" "m1"
              [mkRow "seq1" "q1"; mkRow "seq2" "q1"; mkRow "seq3" "q2"]
              eq_refl eq_refl eq_refl eq_refl) as [_ H].
  destruct (H ltac:(discriminate)) as [v [Hv [Ev Hb]]].
  exists v. split; [exact Hv|]. split; [exact Ev|exact Hb].
Defined.

(** * Two runs on the same inputs *)

(** ** A report acts as its last query block *)

Lemma mapM_make_qresult_distinct (qs rs : list QueryResult) :
  mapM make_qresult qs = Ok rs -> Forall (fun q => distinct (hits q) = true) qs.
Proof.
  revert rs. induction qs as [|q qs IH]; intros rs H; [constructor|].
  apply mapM_cons_inv in H as [r [rs' [Hq [Hqs _]]]].
  constructor; [|apply (IH rs' Hqs)].
  unfold make_qresult in Hq. destruct (distinct (hits q)); [reflexivity|discriminate].
Qed.

Lemma last_block_in (rows : list Row) :
  rows <> [] ->
  In (last (group_rows rows) (mkQResult EmptyString [])) (group_rows rows).
Proof.
  intros Hne. pose proof (group_rows_not_nil rows Hne) as Hq.
  destruct (exists_last Hq) as [l [a ->]].
  rewrite last_last. apply in_app_iff. right. now left.
Qed.

Lemma last_block_not_nil (rows : list Row) : rows <> [] -> last_block rows <> [].
Proof.
  intros Hne. pose proof (group_rows_hits rows) as H. rewrite Forall_forall in H.
  apply H, last_block_in, Hne.
Qed.

Lemma readable_last_block (rows : list Row) :
  readable (Tbl rows) = true -> distinct (last_block rows) = true.
Proof.
  unfold readable. cbn [SearchIO_parse].
  destruct (mapM make_qresult (group_rows rows)) as [qs|] eqn:E; [|discriminate].
  intros _. destruct rows as [|r rows]; [reflexivity|].
  apply mapM_make_qresult_distinct in E. rewrite Forall_forall in E.
  apply E, last_block_in. discriminate.
Qed.

Lemma one_block_one_query (r : Report) :
  readable r = true -> one_query (one_block r) = true.
Proof.
  destruct r as [rows|]; [|discriminate]. intros H.
  apply readable_last_block in H. cbn [one_block one_query].
  destruct (last_block rows) as [|t ts]; [reflexivity|].
  cbn [map one_query]. apply andb_true_iff. split.
  - apply forallb_forall. intros x Hx. apply in_map_iff in Hx as [t' [<- _]].
    reflexivity.
  - change (mkRow t EmptyString :: map (fun t => mkRow t EmptyString) ts)
      with (map (fun t => mkRow t EmptyString) (t :: ts)).
    rewrite map_map. cbn [target_name]. rewrite map_id. exact H.
Qed.

Lemma report_hits_one_block (r : Report) :
  report_hits (one_block r)
  = match r with
    | Tbl rows => Z.of_nat (length (last_block rows))
    | Malformed => 0%Z
    end.
Proof.
  destruct r as [rows|]; [|reflexivity]. cbn [one_block report_hits].
  rewrite length_map. reflexivity.
Qed.

Lemma reported_one_block (hmmsearch : string -> string -> option Report)
  (m g : string) :
  reported (one_block_search hmmsearch) m g = recorded hmmsearch m g.
Proof.
  unfold reported, recorded, one_block_search.
  destruct (hmmsearch m g) as [r|]; [|reflexivity]. cbn [option_map].
  rewrite report_hits_one_block. destruct r; reflexivity.
Qed.

(** Reading a report leaves what reading its last block alone leaves. *)
Lemma one_block_effect (r : Report) (prot key : string) (addr : nat)
  (st : Dict.t Z * Dict.t nat) :
  readable r = true ->
  bind (SearchIO_parse r)
       (fun qs => Ok (fold_left (record_hits prot key addr) qs st))
  = bind (SearchIO_parse (one_block r))
         (fun qs => Ok (fold_left (record_hits prot key addr) qs st)).
Proof.
  intros Hr.
  destruct (parse_one_query _ (one_block_one_query r Hr)) as [qs' [-> Hf]].
  cbn [bind]. rewrite Hf, report_hits_one_block.
  destruct r as [rows|]; [|discriminate].
  unfold readable in Hr.
  destruct (SearchIO_parse (Tbl rows)) as [qs|] eqn:E; [|discriminate].
  cbn [bind]. cbn [SearchIO_parse] in E. apply mapM_make_qresult in E. subst qs.
  destruct rows as [|r0 rows]; [reflexivity|].
  assert (Hne : r0 :: rows <> []) by discriminate.
  rewrite (record_hits_last prot key addr (mkQResult EmptyString []) _
             (group_rows_not_nil _ Hne)).
  pose proof (last_block_not_nil _ Hne) as Hl. unfold last_block in *.
  destruct (hits (last (group_rows (r0 :: rows)) (mkQResult EmptyString [])));
    [contradiction|reflexivity].
Qed.

(** ** Runs over well-formed identifiers, whatever the reports hold *)

Lemma fill_dir_one_block_keys (hmmsearch : string -> string -> option Report)
  (g n : string) (mps : list (string * string)) :
  forall d d' : Dir,
    Dict.keys d' = Dict.keys d ->
    Dict.keys (fill_dir (one_block_search hmmsearch) g n mps d')
    = Dict.keys (fill_dir hmmsearch g n mps d).
Proof.
  unfold fill_dir.
  induction mps as [|mp mps IH]; intros d d' Hk; [exact Hk|].
  cbn [fold_left]. apply IH. unfold one_block_search.
  destruct (hmmsearch (fst mp) g) as [r|]; cbn [option_map]; [|exact Hk].
  rewrite !keys_set, !mem_keys, Hk. reflexivity.
Qed.

Section AnyReports.

Variable hmmsearch : string -> string -> option Report.
Variable scandir : list string -> list string.
Variables genomes markers names prots : list string.

Hypothesis Hnames : mapM genome_name genomes = Ok names.
Hypothesis Hprots : mapM marker_name markers = Ok prots.
Hypothesis Hcn : forallb clean_genome_name names = true.
Hypothesis Hdn : NoDup names.
Hypothesis Hcp : forallb clean_marker_name prots = true.
Hypothesis Hdp : NoDup prots.
Hypothesis Hscan : forall l, Permutation (scandir l) l.

Local Abbreviation gns := (combine genomes names).
Local Abbreviation mps := (combine markers prots).
Local Abbreviation fs := (fill_tree hmmsearch (combine genomes names) (combine markers prots)).
Local Abbreviation fs1 :=
  (fill_tree (one_block_search hmmsearch) (combine genomes names) (combine markers prots)).

(** Every file that the walk meets is the report of a searched pair, and
    parsing it comes down to parsing that report. *)
Lemma walked_entry_inv (entry : string * list string) :
  In entry (os_walk scandir fs) ->
  entry = ("out/", [])
  \/ exists g n, In (g, n) gns /\ entry = walk_entry scandir fs n /\
       forall f, In f (snd entry) ->
         exists m p r, In (m, p) mps /\ hmmsearch m g = Some r
                       /\ f = report_file n p.
Proof.
  unfold os_walk. intros [<-|H]; [now left|]. right.
  apply in_map_iff in H as [n [<- Hn]].
  apply (Permutation_in _ (Hscan _)) in Hn.
  rewrite (keys_tree hmmsearch genomes markers names prots Hnames) in Hn.
  rewrite <- (mapM_snd_combine _ _ _ Hnames) in Hn.
  apply in_map_iff in Hn as [[g n'] [E Hgn]]. cbn in E. subst n'.
  exists g, n. split; [exact Hgn|]. split; [reflexivity|].
  intros f Hf. unfold walk_entry in Hf. cbn [snd] in Hf.
  rewrite (get_tree hmmsearch genomes markers names prots Hnames Hdn g n Hgn) in Hf.
  apply (Permutation_in _ (Hscan _)) in Hf.
  apply fill_dir_keys in Hf as [[]|[m [p [r [Hmp [-> Hr]]]]]].
  exists m, p, r. auto.
Qed.

(** The parsing loop stops at a report that the parser cannot read. *)
Lemma unreadable_stops (g m : string) (r : Report) :
  In g genomes -> In m markers -> hmmsearch m g = Some r ->
  readable r = false ->
  exists e, parse_results scandir fs = Raise e.
Proof.
  intros Hg Hm Hr Hbad.
  destruct (mapM_in _ _ _ Hnames _ Hg) as [n Hgn].
  destruct (mapM_in _ _ _ Hprots _ Hm) as [p Hmp].
  unfold parse_results.
  apply (foldM_raise _ _ (walk_entry scandir fs n)).
  - apply (walked_dir hmmsearch scandir genomes markers names prots Hnames Hscan).
    apply (genome_facts genomes names Hnames Hcn g n Hgn).
  - intros st. unfold parse_dir.
    destruct (foldM_raise (parse_file fs (length (heap st))) _ _
                (walked_file hmmsearch scandir genomes markers names prots
                   Hnames Hprots Hcn Hdn Hcp Hdp Hscan g n m p r Hgn Hmp Hr))
      with (s := (@nil (string * Z), all_dicts st)) as [e He].
    + intros s.
      rewrite (parse_file_report hmmsearch genomes markers names prots
                 Hnames Hprots Hcn Hdn Hcp Hdp g n m p r _ _ Hgn Hmp Hr).
      unfold readable in Hbad.
      destruct (SearchIO_parse r) as [qs|e]; [discriminate|].
      exists e. reflexivity.
    + rewrite He. exists e. reflexivity.
Qed.

(** When the parsing loop stops, the parser has stopped it. *)
Lemma parsing_stopped_by_parser (e : exn) :
  parse_results scandir fs = Raise e ->
  exists g m r, In g genomes /\ In m markers /\ hmmsearch m g = Some r
                /\ SearchIO_parse r = Raise e.
Proof.
  intros Ep. unfold parse_results in Ep.
  apply foldM_raise_inv in Ep as [entry [st0 [Hentry Hdir]]].
  apply walked_entry_inv in Hentry as [->|[g [n [Hgn [-> Hfiles]]]]];
    [discriminate Hdir|].
  unfold parse_dir in Hdir.
  destruct (foldM (parse_file fs (length (heap st0)))
              (snd (walk_entry scandir fs n)) ([], all_dicts st0))
    as [gd_ad|e1] eqn:Ef; [discriminate|].
  cbn [bind] in Hdir. injection Hdir as ->.
  apply foldM_raise_inv in Ef as [f [s0 [Hf Hfile]]].
  destruct (Hfiles f Hf) as [m [p [r [Hmp [Hr ->]]]]].
  rewrite (parse_file_report hmmsearch genomes markers names prots
             Hnames Hprots Hcn Hdn Hcp Hdp g n m p r _ _ Hgn Hmp Hr) in Hfile.
  destruct (SearchIO_parse r) as [qs|e1] eqn:Er; [discriminate|].
  cbn [bind] in Hfile. injection Hfile as ->.
  exists g, m, r. split; [apply (in_combine_l _ _ _ _ Hgn)|].
  split; [apply (in_combine_l _ _ _ _ Hmp)|]. split; [exact Hr|exact Er].
Qed.

(** *** Every report can be read *)

Hypothesis Hread : forall g m r,
  In g genomes -> In m markers -> hmmsearch m g = Some r -> readable r = true.

Lemma walk_one_block : os_walk scandir fs1 = os_walk scandir fs.
Proof.
  unfold os_walk.
  rewrite (keys_tree hmmsearch genomes markers names prots Hnames).
  rewrite (keys_tree (one_block_search hmmsearch) genomes markers names prots Hnames).
  f_equal. apply map_ext_in. intros n Hn.
  apply (Permutation_in _ (Hscan _)) in Hn.
  rewrite <- (mapM_snd_combine _ _ _ Hnames) in Hn.
  apply in_map_iff in Hn as [[g n'] [E Hgn]]. cbn in E. subst n'.
  unfold walk_entry.
  rewrite (get_tree hmmsearch genomes markers names prots Hnames Hdn g n Hgn).
  rewrite (get_tree (one_block_search hmmsearch) genomes markers names prots
             Hnames Hdn g n Hgn).
  rewrite (fill_dir_one_block_keys hmmsearch g n mps [] [] eq_refl). reflexivity.
Qed.

(** The parsing loop leaves what it leaves when every report is cut down to
    its last query block. *)
Lemma parse_results_one_block :
  parse_results scandir fs1 = parse_results scandir fs.
Proof.
  unfold parse_results. rewrite walk_one_block.
  apply foldM_ext. intros st entry Hentry.
  apply walked_entry_inv in Hentry as [->|[g [n [Hgn [-> Hfiles]]]]]; [reflexivity|].
  unfold parse_dir. f_equal.
  apply foldM_ext. intros s f Hf.
  destruct (Hfiles f Hf) as [m [p [r [Hmp [Hr ->]]]]].
  rewrite (parse_file_report hmmsearch genomes markers names prots
             Hnames Hprots Hcn Hdn Hcp Hdp g n m p r _ _ Hgn Hmp Hr).
  assert (Hr1 : one_block_search hmmsearch m g = Some (one_block r)).
  { unfold one_block_search. rewrite Hr. reflexivity. }
  rewrite (parse_file_report (one_block_search hmmsearch) genomes markers names prots
             Hnames Hprots Hcn Hdn Hcp Hdp g n m p (one_block r) _ _ Hgn Hmp Hr1).
  symmetry. apply one_block_effect.
  apply (Hread g m r (in_combine_l _ _ _ _ Hgn) (in_combine_l _ _ _ _ Hmp) Hr).
Qed.

Lemma aggregate_one_block :
  aggregate (one_block_search hmmsearch) scandir genomes markers
  = aggregate hmmsearch scandir genomes markers.
Proof.
  unfold aggregate.
  rewrite (run_hmms_tree hmmsearch genomes markers names prots Hnames Hprots Hcn Hdn).
  rewrite (run_hmms_tree (one_block_search hmmsearch) genomes markers names prots
             Hnames Hprots Hcn Hdn).
  cbn [bind]. rewrite parse_results_one_block. reflexivity.
Qed.

Lemma one_block_reports_one_query :
  reports_one_query (one_block_search hmmsearch) genomes markers = true.
Proof.
  unfold reports_one_query. apply forallb_forall. intros g Hg.
  apply forallb_forall. intros m Hm. unfold one_block_search.
  destruct (hmmsearch m g) as [r|] eqn:Hr; [|reflexivity]. cbn [option_map].
  apply one_block_one_query, (Hread g m r Hg Hm Hr).
Qed.

End AnyReports.

Lemma loc_outside (data : Dict.t (Dict.t Z)) (markers : list string) (r c : string) :
  ~ In r (index (assemble data markers)) \/ ~ In c (columns (assemble data markers)) ->
  loc (assemble data markers) r c = None.
Proof.
  intros [Hr|Hc]; unfold loc.
  - rewrite (position_none _ _ Hr). reflexivity.
  - destruct (position r (index (assemble data markers))); [|reflexivity].
    unfold column_of. rewrite assemble_values, assemble_columns, get_combine_map.
    rewrite assemble_columns in Hc. apply label_in_false in Hc. rewrite Hc.
    reflexivity.
Qed.

Lemma forallb_false_in {A : Type} (f : A -> bool) (l : list A) :
  forallb f l = false -> exists a, In a l /\ f a = false.
Proof.
  induction l as [|a l IH]; [discriminate|]. cbn [forallb].
  destruct (f a) eqn:E.
  - intros H. destruct (IH H) as [x [Hx Hf]]. exists x. split; [now right|exact Hf].
  - intros _. exists a. split; [now left|exact E].
Qed.

(** The table of a run over well-formed identifiers whose reports can all
    be read: one column per marker, one row per genome with a recorded
    count, and in every cell of such a row the count recorded for the
    pair. *)
Lemma readable_table
  (hmmsearch : string -> string -> option Report)
  (scandir : list string -> list string) (genomes markers : list string) :
  well_formed genomes markers = true ->
  (forall l, Permutation (scandir l) l) ->
  (forall g m r, In g genomes -> In m markers -> hmmsearch m g = Some r ->
                 readable r = true) ->
  exists df,
    result_matrix hmmsearch scandir genomes markers = Ok df /\
    NoDup (index df) /\
    Permutation (columns df) (map marker_col markers) /\
    (forall r, In r (index df)
               <-> exists g, In g genomes /\ genome_name g = Ok r /\
                     exists m, In m markers /\ (0 < recorded hmmsearch m g)%Z) /\
    (forall g m m' name,
        In g genomes -> In m markers -> genome_name g = Ok name ->
        In m' markers -> (0 < recorded hmmsearch m' g)%Z ->
        loc df name (marker_col m) = Some (Some (recorded hmmsearch m g))) /\
    (forall r c, ~ In r (index df) \/ ~ In c (columns df) -> loc df r c = None).
Proof.
  intros Hwf Hscan Hread.
  destruct (well_formed_inv _ _ Hwf)
    as [names [prots [Hn [Hp [Hcn [Hdn [Hcp [Hdp _]]]]]]]].
  pose proof (one_block_reports_one_query hmmsearch genomes markers Hread) as Hone.
  destruct (well_formed_table (one_block_search hmmsearch) scandir genomes markers
              Hwf Hone Hscan) as [df [R [N [C [I L]]]]].
  assert (R' : result_matrix hmmsearch scandir genomes markers = Ok df).
  { rewrite <- R. unfold result_matrix.
    rewrite (aggregate_one_block hmmsearch scandir genomes markers names prots
               Hn Hp Hcn Hdn Hcp Hdp Hscan Hread). reflexivity. }
  exists df. split; [exact R'|]. split; [exact N|]. split; [exact C|].
  split; [|split].
  - intros r. rewrite (I r). split; intros [g [Hg [Hname [m [Hm Hpos]]]]];
      exists g; (split; [exact Hg|]); (split; [exact Hname|]); exists m;
      (split; [exact Hm|]).
    + rewrite <- reported_one_block. exact Hpos.
    + rewrite reported_one_block. exact Hpos.
  - intros g m m' name Hg Hm Hname Hm' Hpos.
    rewrite (L g m name Hg Hm Hname), reported_one_block.
    assert (Ex : existsb (fun m0 => (0 <? reported (one_block_search hmmsearch) m0 g)%Z)
                   markers = true).
    { apply existsb_exists. exists m'. split; [exact Hm'|].
      rewrite reported_one_block. apply Z.ltb_lt, Hpos. }
    rewrite Ex. reflexivity.
  - apply result_matrix_inv in R' as [data [_ ->]]. intros r c. apply loc_outside.
Qed.

(** A run over well-formed identifiers stops when the parser cannot read
    the report of some pair. *)
Lemma unreadable_run
  (hmmsearch : string -> string -> option Report)
  (scandir : list string -> list string) (genomes markers : list string)
  (g m : string) (r : Report) :
  well_formed genomes markers = true ->
  (forall l, Permutation (scandir l) l) ->
  In g genomes -> In m markers -> hmmsearch m g = Some r -> readable r = false ->
  exists e, result_matrix hmmsearch scandir genomes markers = Raise e.
Proof.
  intros Hwf Hscan Hg Hm Hr Hbad.
  destruct (well_formed_inv _ _ Hwf)
    as [names [prots [Hn [Hp [Hcn [Hdn [Hcp [Hdp _]]]]]]]].
  destruct (unreadable_stops hmmsearch scandir genomes markers names prots
              Hn Hp Hcn Hdn Hcp Hdp Hscan g m r Hg Hm Hr Hbad) as [e He].
  exists e. unfold result_matrix, aggregate.
  rewrite (run_hmms_tree hmmsearch genomes markers names prots Hn Hp Hcn Hdn).
  cbn [bind]. rewrite He. reflexivity.
Qed.

(** ** Enumerations in another order *)

Lemma mapM_perm {A B : Type} (f : A -> result B) (l l' : list A) :
  Permutation l l' ->
  forall rs, mapM f l = Ok rs ->
             exists rs', mapM f l' = Ok rs' /\ Permutation rs rs'.
Proof.
  induction 1 as [|x l l' HP IH|x y l|l l' l'' HP1 IH1 HP2 IH2]; intros rs H.
  - exists rs. split; [exact H|]. simpl in H. injection H as <-. constructor.
  - apply mapM_cons_inv in H as [r [rs0 [Hx [Hl ->]]]].
    destruct (IH rs0 Hl) as [rs' [Hl' HP']].
    exists (r :: rs'). cbn [mapM]. rewrite Hx, Hl'. split; [reflexivity|].
    constructor. exact HP'.
  - apply mapM_cons_inv in H as [ry [rs0 [Hy [H ->]]]].
    apply mapM_cons_inv in H as [rx [rs1 [Hx [Hl ->]]]].
    exists (rx :: ry :: rs1). cbn [mapM]. rewrite Hx, Hy, Hl.
    split; [reflexivity|apply perm_swap].
  - destruct (IH1 rs H) as [rs' [H' P1]]. destruct (IH2 rs' H') as [rs'' [H'' P2]].
    exists rs''. split; [exact H''|apply (Permutation_trans P1 P2)].
Qed.

Lemma mapM_pointwise {A B : Type} (f : A -> result B) (h : A -> B) (l : list A) :
  (forall a, In a l -> f a = Ok (h a)) -> mapM f l = Ok (map h l).
Proof.
  induction l as [|a l IH]; intros H; [reflexivity|].
  cbn [mapM map]. rewrite (H a (or_introl eq_refl)), IH; [reflexivity|].
  intros b Hb. apply H. now right.
Qed.

Lemma labels_eqb_refl (l : list string) : labels_eqb l l = true.
Proof.
  induction l as [|x l IH]; [reflexivity|].
  cbn [labels_eqb]. rewrite String.eqb_refl. exact IH.
Qed.

(** Well-formedness is a property of the two sets of paths. *)
Lemma well_formed_perm (genomes genomes' markers markers' : list string) :
  Permutation genomes genomes' -> Permutation markers markers' ->
  well_formed genomes markers = true -> well_formed genomes' markers' = true.
Proof.
  intros Pg Pm Hwf.
  destruct (well_formed_inv _ _ Hwf)
    as [names [prots [Hn [Hp [Hcn [Hdn [Hcp [Hdp Hcol]]]]]]]].
  destruct (mapM_perm genome_name genomes genomes' Pg names Hn) as [names' [Hn' Pn]].
  assert (Hp' : mapM marker_name markers' = Ok (map marker_col markers')).
  { apply mapM_pointwise. intros m Hm.
    apply (Permutation_in _ (Permutation_sym Pm)) in Hm.
    destruct (mapM_in _ _ _ Hp _ Hm) as [p Hmp].
    rewrite (mapM_in_combine _ _ _ Hp _ _ Hmp). f_equal.
    rewrite Hcol in Hmp. apply (in_combine_fun _ _ _ _ Hmp). }
  assert (Pp : Permutation prots (map marker_col markers')).
  { rewrite Hcol. apply Permutation_map, Pm. }
  unfold well_formed. rewrite Hn', Hp'.
  repeat (apply andb_true_iff; split).
  - apply forallb_forall. intros n Hin. rewrite forallb_forall in Hcn.
    apply Hcn, (Permutation_in _ (Permutation_sym Pn)), Hin.
  - apply distinct_nodup, (Permutation_NoDup Pn), Hdn.
  - apply forallb_forall. intros p Hin. rewrite forallb_forall in Hcp.
    apply Hcp, (Permutation_in _ (Permutation_sym Pp)), Hin.
  - apply distinct_nodup, (Permutation_NoDup Pp), Hdp.
  - apply labels_eqb_refl.
Qed.

Lemma parse_results_listing (scandir1 scandir2 : list string -> list string)
  (fs : FS) :
  (forall l, scandir1 l = scandir2 l) ->
  parse_results scandir1 fs = parse_results scandir2 fs.
Proof.
  intros Hs. unfold parse_results, os_walk, walk_entry. rewrite Hs.
  f_equal. f_equal. apply map_ext. intros d. rewrite Hs. reflexivity.
Qed.

Lemma run_hmms_reports (h1 h2 : string -> string -> option Report)
  (genomes markers : list string) :
  (forall m g, In m markers -> In g genomes -> h1 m g = h2 m g) ->
  run_hmms h1 genomes markers = run_hmms h2 genomes markers.
Proof.
  intros Hagree. unfold run_hmms. apply foldM_ext. intros fs g Hg.
  unfold search_genome.
  destruct (genome_name g) as [name|]; [|reflexivity]. cbn [bind].
  destruct (mkdir name fs) as [fs1|]; [|reflexivity]. cbn [bind].
  apply foldM_ext. intros fs2 m Hm. unfold search_marker.
  rewrite (Hagree m g Hm Hg). reflexivity.
Qed.

(** ** What stops the parsing loop *)

(** X12.  After a completed search over well-formed identifiers, the
    parsing loop stops exactly when the parser stops on the report of a
    searched pair, and the exception that leaves the loop is the one the
    parser raised on such a report: reading the pair back from a file name
    and opening the path built from it do not fail. *)
Theorem X12_only_the_parser_stops_the_parsing_loop
  (hmmsearch : string -> string -> option Report)
  (scandir : list string -> list string) (genomes markers : list string)
  (fs : FS) :
  well_formed genomes markers = true ->
  (forall l, Permutation (scandir l) l) ->
  run_hmms hmmsearch genomes markers = Ok fs ->
  (forall e, parse_results scandir fs = Raise e ->
     exists g m r, In g genomes /\ In m markers /\ hmmsearch m g = Some r
                   /\ SearchIO_parse r = Raise e) /\
  (forall g m r e, In g genomes -> In m markers -> hmmsearch m g = Some r ->
     SearchIO_parse r = Raise e ->
     exists e', parse_results scandir fs = Raise e').
Proof.
  intros Hwf Hscan Hrun.
  destruct (well_formed_inv _ _ Hwf)
    as [names [prots [Hn [Hp [Hcn [Hdn [Hcp [Hdp _]]]]]]]].
  rewrite (run_hmms_tree hmmsearch genomes markers names prots Hn Hp Hcn Hdn) in Hrun.
  injection Hrun as <-. split.
  - intros e He.
    apply (parsing_stopped_by_parser hmmsearch scandir genomes markers names prots
             Hn Hp Hcn Hdn Hcp Hdp Hscan e He).
  - intros g m r e Hg Hm Hr He.
    apply (unreadable_stops hmmsearch scandir genomes markers names prots
             Hn Hp Hcn Hdn Hcp Hdp Hscan g m r Hg Hm Hr).
    unfold readable. rewrite He. reflexivity.
Qed.

Lemma X12_only_the_parser_stops_the_parsing_loop_witness :
  exists fs,
    run_hmms one_malformed ["g/A.faa"; "g/B.faa"] ["m/m1.hmm"] = Ok fs /\
    parse_results creation_order fs = Raise ParseError /\
    (exists e, parse_results newest_first fs = Raise e) /\
    exists g m r,
      In g ["g/A.faa"; "g/B.faa"] /\ In m ["m/m1.hmm"] /\
      one_malformed m g = Some r /\ SearchIO_parse r = Raise ParseError.
Proof.
  eexists. split; [reflexivity|]. split; [reflexivity|].
  destruct (X12_only_the_parser_stops_the_parsing_loop one_malformed creation_order
              ["g/A.faa"; "g/B.faa"] ["m/m1.hmm"] _ eq_refl
              (fun l => Permutation_refl l) eq_refl) as [H1 _].
  destruct (X12_only_the_parser_stops_the_parsing_loop one_malformed newest_first
              ["g/A.faa"; "g/B.faa"] ["m/m1.hmm"] _ eq_refl
              (fun l => Permutation_sym (Permutation_rev l)) eq_refl) as [_ H2].
  split.
  - apply (H2 "g/B.faa" "m/m1.hmm" Malformed ParseError); simpl; tauto.
  - apply (H1 ParseError). reflexivity.
Defined.

(** ** Two runs on the same inputs *)

Lemma recorded_agree (h1 h2 : string -> string -> option Report) (m g : string) :
  h1 m g = h2 m g -> recorded h1 m g = recorded h2 m g.
Proof. unfold recorded. intros ->. reflexivity. Qed.



